(** * FluxerGateway: the gateway protocol client of the fluxer extension

    A shallow embedding of the class [FluxerGateway]
    ([extensions/fluxer/src/gateway.ts]) and of the module that owns it
    ([extensions/fluxer/src/channel.ts], [runtime.ts]), with the properties
    of the connection state machine stated over it.

    Modelling conventions.
    - JavaScript values received from the wire are [JVal]; numbers are
      integers ([Z]): the wire envelope carries integer opcodes and sequence
      numbers. The backoff arithmetic [reconnectDelay * 2^(k-1)] is done in
      [Z]; in doubles it is exact as long as the delay stays below 2^1024,
      which for the delay 1000 of the class is up to the 1015th reconnect
      ([backoffExact]); from there on the code computes [Infinity]. What is
      stated about a delay is stated for those reconnects, or for attempts
      below the maximum.
    - Where the code converts a received value to a string or a number (a
      template literal, [+] with a string, the delay of a timer), the
      conversion throws on an object with an own [toString]
      ([toPrimitiveThrows]).
    - The class instance ([this]) is the record [FluxerGateway]; the objects
      it creates in its environment (WebSocket handles, timers, the promises
      returned by [connect]) live in tables of [World].
    - A method is a computation [Js A]: it reads and writes the [World],
      appends to a trace of observable effects (transport operations, timer
      operations, user callbacks, console output) and completes normally or
      by a thrown exception.
    - The event loop is [step]: one event (an API call, a WebSocket event, a
      timer firing) runs its handler to completion before the next.
    - The callbacks given by the owner are opaque and return normally; a
      call of one is an effect in the trace. (The message callback that
      channel.ts gives can throw; see [channelReaction].)
    - Of the [ws] library the model keeps what the class relies on: the
      constructor throws or makes a socket that is CONNECTING, 'open' makes
      it OPEN, [close()] makes a socket that is not closed CLOSING, 'close'
      makes it CLOSED; the handlers stay installed on every socket the
      class has made. A promise is settled by the first [resolve] or
      [reject]; a [.catch] runs with the rejection. *)

From Stdlib Require Import ZArith String List Lia.
From stdpp Require Import base option list gmap strings pretty.
Import ListNotations.

Open Scope string_scope.
Open Scope list_scope.
Open Scope Z_scope.

(** ** JavaScript values *)

#[local] Set Warnings "-register-all".

Inductive JVal : Type :=
| JUndefined
| JNull
| JBool (b : bool)
| JNum (n : Z)
| JStr (s : string)
| JObj (fields : list (string * JVal)).

(** [if (v)] *)
Definition truthy (v : JVal) : bool :=
  match v with
  | JUndefined | JNull => false
  | JBool b => b
  | JNum n => negb (Z.eqb n 0)
  | JStr s => negb (String.eqb s "")
  | JObj _ => true
  end.

Fixpoint assoc (k : string) (fields : list (string * JVal)) : option JVal :=
  match fields with
  | [] => None
  | (k', v) :: rest => if String.eqb k k' then Some v else assoc k rest
  end.

(** [v.k]: a TypeError ([None]) on [undefined] and [null], [undefined] for a
    property that is not there. *)
Definition getProp (v : JVal) (k : string) : option JVal :=
  match v with
  | JUndefined | JNull => None
  | JObj fields => Some (default JUndefined (assoc k fields))
  | JBool _ | JNum _ | JStr _ => Some JUndefined
  end.

(** [v === "lit"] *)
Definition isStr (v : JVal) (lit : string) : bool :=
  match v with
  | JStr s => String.eqb s lit
  | _ => false
  end.

(** A parsed object with an own property [toString] has no primitive
    value: JSON cannot make that property callable, and the [valueOf] of a
    plain object returns the object. Converting such a value to a string
    (a template literal, [+] with a string) or to a number throws a
    TypeError; every other parsed value converts. *)
Definition toPrimitiveThrows (v : JVal) : bool :=
  match v with
  | JObj fields =>
      match assoc "toString" fields with
      | Some _ => true
      | None => false
      end
  | _ => false
  end.

(** ** The environment of a gateway object *)

(** [ws.readyState] *)
Inductive ReadyState : Type := CONNECTING | OPEN | CLOSING | CLOSED.

Definition ReadyState_eqb (a b : ReadyState) : bool :=
  match a, b with
  | CONNECTING, CONNECTING | OPEN, OPEN | CLOSING, CLOSING | CLOSED, CLOSED => true
  | _, _ => false
  end.

(** A WebSocket created by [connect]: its ready state, and the promise of
    the [connect] call whose [reject] its error handler closes over. *)
Record Socket : Type := mkSocket {
  readyState : ReadyState;
  connectPromise : nat
}.

(** What a timer callback does. *)
Inductive TimerAction : Type :=
| DoHeartbeat      (* the setInterval callback of startHeartbeat *)
| DoReconnect      (* () => this.reconnect(), scheduled on opcode 9 *)
| DoConnect.       (* () => this.connect().catch(...), scheduled by reconnect *)

Record Timer : Type := mkTimer {
  repeating : bool;
  delayMs : JVal;
  action : TimerAction
}.

(** The promise returned by a [connect] call. *)
Record PromiseCell : Type := mkPromise {
  settled : option bool;     (* Some true: fulfilled; Some false: rejected *)
  catchLogs : bool           (* the .catch of reconnect is attached *)
}.

(** Console messages, by the place that prints them. *)
Inductive LogMsg : Type :=
| LConnecting
| LOpened
| LParseFailed
| LWsError
| LClosed (code : Z) (reason : string)
| LReady
| LEvent (eventType opcode : JVal)
| LHello
| LHeartbeatAck
| LSessionId (sid : JVal)
| LReconnectRequested
| LInvalidSession
| LUnhandled (eventType : JVal)
| LCannotIdentify
| LSendingIdentify
| LMaxReconnect
| LReconnecting (delay attempt : Z)
| LReconnectFailed.

(** Observable effects, in program order. *)
Inductive Effect : Type :=
| Console (isError : bool) (m : LogMsg)
| Dial (sock : nat) (url : string) (authorization : string)
| Send (sock : nat) (payload : JVal)
| CloseSock (sock : nat) (code : Z) (reason : string)
| SetTimeout (id : nat) (delay : JVal) (a : TimerAction)
| SetInterval (id : nat) (delay : JVal) (a : TimerAction)
| ClearInterval (id : nat)
| CallOnReady (data : JVal)
| CallOnMessage (data : JVal)
| CallOnError
| CallOnDisconnect
| Fulfilled (promise : nat)
| Rejected (promise : nat).

(** ** The gateway object *)

Record FluxerGatewayOptions : Type := mkOptions {
  opt_token : string;
  opt_onReady : bool;        (* is the optional callback given? *)
  opt_onMessage : bool;
  opt_onError : bool;
  opt_onDisconnect : bool
}.

(** [this.onReady]: the caller's callback (if any), wrapped once per
    [connect] call by a closure that resolves that call's promise. *)
Inductive ReadyFn : Type :=
| UserReady (given : bool)
| Wrapped (promise : nat) (originalOnReady : ReadyFn).

Record FluxerGateway : Type := mkGateway {
  ws : option nat;
  token : string;
  sequence : JVal;
  sessionId : JVal;
  resumeUrl : JVal;
  onReady : ReadyFn;
  onMessage : bool;
  onError : bool;
  onDisconnect : bool;
  reconnectAttempts : Z;
  maxReconnectAttempts : Z;
  reconnectDelay : Z;
  heartbeatInterval : option nat
}.

Definition gatewayUrl : string := "wss://gateway.fluxer.app?v=1".

(** [new FluxerGateway(options)] *)
Definition newGateway (options : FluxerGatewayOptions) : FluxerGateway :=
  {| ws := None;
     token := opt_token options;
     sequence := JNum 0;
     sessionId := JNull;
     resumeUrl := JNull;
     onReady := UserReady (opt_onReady options);
     onMessage := opt_onMessage options;
     onError := opt_onError options;
     onDisconnect := opt_onDisconnect options;
     reconnectAttempts := 0;
     maxReconnectAttempts := 5;
     reconnectDelay := 1000;
     heartbeatInterval := None |}.

Definition set_ws (v : option nat) (g : FluxerGateway) : FluxerGateway :=
  mkGateway v (token g) (sequence g) (sessionId g) (resumeUrl g) (onReady g)
    (onMessage g) (onError g) (onDisconnect g) (reconnectAttempts g)
    (maxReconnectAttempts g) (reconnectDelay g) (heartbeatInterval g).

Definition set_sequence (v : JVal) (g : FluxerGateway) : FluxerGateway :=
  mkGateway (ws g) (token g) v (sessionId g) (resumeUrl g) (onReady g)
    (onMessage g) (onError g) (onDisconnect g) (reconnectAttempts g)
    (maxReconnectAttempts g) (reconnectDelay g) (heartbeatInterval g).

Definition set_sessionId (v : JVal) (g : FluxerGateway) : FluxerGateway :=
  mkGateway (ws g) (token g) (sequence g) v (resumeUrl g) (onReady g)
    (onMessage g) (onError g) (onDisconnect g) (reconnectAttempts g)
    (maxReconnectAttempts g) (reconnectDelay g) (heartbeatInterval g).

Definition set_onReady (v : ReadyFn) (g : FluxerGateway) : FluxerGateway :=
  mkGateway (ws g) (token g) (sequence g) (sessionId g) (resumeUrl g) v
    (onMessage g) (onError g) (onDisconnect g) (reconnectAttempts g)
    (maxReconnectAttempts g) (reconnectDelay g) (heartbeatInterval g).

Definition set_reconnectAttempts (v : Z) (g : FluxerGateway) : FluxerGateway :=
  mkGateway (ws g) (token g) (sequence g) (sessionId g) (resumeUrl g) (onReady g)
    (onMessage g) (onError g) (onDisconnect g) v
    (maxReconnectAttempts g) (reconnectDelay g) (heartbeatInterval g).

Definition set_heartbeatInterval (v : option nat) (g : FluxerGateway) : FluxerGateway :=
  mkGateway (ws g) (token g) (sequence g) (sessionId g) (resumeUrl g) (onReady g)
    (onMessage g) (onError g) (onDisconnect g) (reconnectAttempts g)
    (maxReconnectAttempts g) (reconnectDelay g) v.

(** The gateway object together with the objects it has created, and what
    the [ws] library makes of the arguments of [new WebSocket]. The class
    passes the same arguments on every call (the fixed URL, and the header
    made of the token), so the constructor throws on every call or on none:
    that is a constant of the environment. *)
Record World : Type := mkWorld {
  gw : FluxerGateway;
  socks : list Socket;            (* socket handle = index *)
  timers : gmap nat Timer;        (* armed timers *)
  nextTimer : nat;
  promises : list PromiseCell;    (* promise handle = index *)
  wsRejectsArguments : bool       (* new WebSocket(url, {headers}) throws *)
}.

(** [new FluxerGateway(options)] where the library rejects the arguments of
    the constructor ([rejects]), or accepts them. *)
Definition newWorldIn (rejects : bool) (options : FluxerGatewayOptions) : World :=
  {| gw := newGateway options; socks := []; timers := ∅; nextTimer := 0%nat;
     promises := []; wsRejectsArguments := rejects |}.

Definition newWorld (options : FluxerGatewayOptions) : World := newWorldIn false options.

Definition set_gw (g : FluxerGateway) (w : World) : World :=
  mkWorld g (socks w) (timers w) (nextTimer w) (promises w) (wsRejectsArguments w).
Definition set_socks (s : list Socket) (w : World) : World :=
  mkWorld (gw w) s (timers w) (nextTimer w) (promises w) (wsRejectsArguments w).
Definition set_timers (t : gmap nat Timer) (w : World) : World :=
  mkWorld (gw w) (socks w) t (nextTimer w) (promises w) (wsRejectsArguments w).
Definition set_promises (p : list PromiseCell) (w : World) : World :=
  mkWorld (gw w) (socks w) (timers w) (nextTimer w) p (wsRejectsArguments w).

(** ** Computations: state, effect trace, exceptions *)

Inductive Completion (A : Type) : Type :=
| Normal (a : A)
| Thrown.
Arguments Normal {A} a.
Arguments Thrown {A}.

Definition Js (A : Type) : Type := World -> Completion A * World * list Effect.

Definition ret {A} (a : A) : Js A := fun w => (Normal a, w, []).

Definition bind {A B} (m : Js A) (k : A -> Js B) : Js B :=
  fun w =>
    match m w with
    | (Normal a, w1, e1) =>
        match k a w1 with
        | (r, w2, e2) => (r, w2, e1 ++ e2)
        end
    | (Thrown, w1, e1) => (Thrown, w1, e1)
    end.

Definition throw {A} : Js A := fun w => (Thrown, w, []).

(** [try { m } catch { handler }] *)
Definition tryCatch (m : Js unit) (handler : Js unit) : Js unit :=
  fun w =>
    match m w with
    | (Normal a, w1, e1) => (Normal a, w1, e1)
    | (Thrown, w1, e1) =>
        match handler w1 with
        | (r, w2, e2) => (r, w2, e1 ++ e2)
        end
    end.

Definition emit (e : Effect) : Js unit := fun w => (Normal tt, w, [e]).
Definition this : Js FluxerGateway := fun w => (Normal (gw w), w, []).
Definition assign (f : FluxerGateway -> FluxerGateway) : Js unit :=
  fun w => (Normal tt, set_gw (f (gw w)) w, []).
Definition world : Js World := fun w => (Normal w, w, []).
Definition update (f : World -> World) : Js unit := fun w => (Normal tt, f w, []).

Declare Scope js_scope.
Delimit Scope js_scope with js.
Notation "'let!' x ':=' m 'in' k" := (bind m (fun x => k))
  (at level 10, x name, m at level 100, k at level 200) : js_scope.
Notation "m ';;;' k" := (bind m (fun _ => k))
  (at level 100, k at level 200, right associativity) : js_scope.
Open Scope js_scope.

Definition when (b : bool) (m : Js unit) : Js unit := if b then m else ret tt.

(** Projections of a finished computation. *)
Definition completion {A} (r : Completion A * World * list Effect) : Completion A := fst (fst r).
Definition after {A} (r : Completion A * World * list Effect) : World := snd (fst r).
Definition effects {A} (r : Completion A * World * list Effect) : list Effect := snd r.

(** [v.k] inside a method *)
Definition prop (v : JVal) (k : string) : Js JVal :=
  match getProp v k with
  | Some x => ret x
  | None => throw
  end.

(** A conversion of [v] to a string or to a number, as a statement. *)
Definition toPrimitive (v : JVal) : Js unit :=
  if toPrimitiveThrows v then throw else ret tt.

(** ** Environment primitives *)

(** [ws.readyState] of a handle; handles are only ever made by [connect]. *)
Definition readyStateOf (w : World) (sock : nat) : ReadyState :=
  match socks w !! sock with
  | Some s => readyState s
  | None => CLOSED
  end.

Definition setReadyState (sock : nat) (st : ReadyState) : Js unit :=
  update (fun w =>
    match socks w !! sock with
    | Some s => set_socks (<[sock := mkSocket st (connectPromise s)]> (socks w)) w
    | None => w
    end).

(** [new Promise(...)]: a pending promise *)
Definition newPromise : Js nat :=
  fun w => (Normal (length (promises w)),
            set_promises (promises w ++ [mkPromise None false]) w, []).

(** Does [new WebSocket] throw? A gateway that holds a socket got it from
    a call of the constructor, with the arguments of every call, that did
    not throw. *)
Definition constructorThrows (w : World) : bool :=
  match socks w with
  | [] => wsRejectsArguments w
  | _ :: _ => false
  end.

(** [new WebSocket(url, {headers})] with its four handlers installed; the
    error handler closes over [reject] of promise [p]. *)
Definition newWebSocket (p : nat) (auth : string) : Js nat :=
  fun w =>
    if constructorThrows w then (Thrown, w, [])
    else
      let sock := length (socks w) in
      (Normal sock, set_socks (socks w ++ [mkSocket CONNECTING p]) w,
       [Dial sock gatewayUrl auth]).

(** [resolve()] of a connect promise: only the first settlement counts. *)
Definition resolve (p : nat) : Js unit :=
  fun w =>
    match promises w !! p with
    | Some (mkPromise None c) =>
        (Normal tt, set_promises (<[p := mkPromise (Some true) c]> (promises w)) w,
         [Fulfilled p])
    | _ => (Normal tt, w, [])
    end.

(** [reject(err)]: the first settlement rejects the promise; when the
    [.catch] of [reconnect] is attached already, it prints the failure,
    otherwise the promise is rejected with no handler on it ([Rejected]):
    the rejection goes to whoever holds the promise. *)
Definition reject (p : nat) : Js unit :=
  fun w =>
    match promises w !! p with
    | Some (mkPromise None c) =>
        (Normal tt, set_promises (<[p := mkPromise (Some false) c]> (promises w)) w,
         [if c then Console true LReconnectFailed else Rejected p])
    | _ => (Normal tt, w, [])
    end.

(** [promise.catch(err => console.error(...))]: on a promise that
    [connect] has rejected already, the handler prints the failure. *)
Definition attachCatch (p : nat) : Js unit :=
  fun w =>
    match promises w !! p with
    | Some (mkPromise st c) =>
        (Normal tt, set_promises (<[p := mkPromise st true]> (promises w)) w,
         match st, c with
         | Some false, false => [Console true LReconnectFailed]
         | _, _ => []
         end)
    | None => (Normal tt, w, [])
    end.

Definition armTimer (rep : bool) (a : TimerAction) (delay : JVal) : Js nat :=
  fun w => let id := nextTimer w in
           (Normal id,
            mkWorld (gw w) (socks w) (<[id := mkTimer rep delay a]> (timers w))
                    (S id) (promises w) (wsRejectsArguments w),
            [if rep then SetInterval id delay a else SetTimeout id delay a]).

(** [setTimeout(callback, delay)], [setInterval(callback, delay)]: Node
    converts the delay to a number before it arms the timer. The effect
    and the timer table record the delay the code asked for (Node itself
    waits 1 ms where that is not a number from 1 to 2^31 - 1). *)
Definition setTimeout (a : TimerAction) (delay : JVal) : Js nat :=
  toPrimitive delay ;;; armTimer false a delay.
Definition setInterval (a : TimerAction) (delay : JVal) : Js nat :=
  toPrimitive delay ;;; armTimer true a delay.

Definition clearInterval (id : nat) : Js unit :=
  fun w => (Normal tt, set_timers (delete id (timers w)) w, [ClearInterval id]).

(** [ws.send(JSON.stringify(payload))] *)
Definition wsSend (sock : nat) (payload : JVal) : Js unit := emit (Send sock payload).

(** [ws.close(code, reason)]: starts the closing handshake of a socket that
    is not closed yet. *)
Definition wsClose (sock : nat) (code : Z) (reason : string) : Js unit :=
  emit (CloseSock sock code reason) ;;;
  let! w := world in
  match readyStateOf w sock with
  | CLOSED => ret tt
  | _ => setReadyState sock CLOSING
  end.

(** ** Methods of FluxerGateway *)

(** [this.ws && this.ws.readyState === WebSocket.OPEN] *)
Definition wsIsOpen (w : World) : bool :=
  match ws (gw w) with
  | Some sock => ReadyState_eqb (readyStateOf w sock) OPEN
  | None => false
  end.

Definition isConnected (w : World) : bool := wsIsOpen w.

Definition getSessionId (w : World) : JVal := sessionId (gw w).

(** The call [this.onReady?.(data)]: every wrapper prints, calls the
    callback it wrapped and resolves its own promise. *)
Fixpoint callReady (f : ReadyFn) (data : JVal) : Js unit :=
  match f with
  | UserReady given => when given (emit (CallOnReady data))
  | Wrapped p originalOnReady =>
      emit (Console false LReady) ;;;
      callReady originalOnReady data ;;;
      resolve p
  end.

(** [connect()]: the executor of the promise runs at once; what it throws
    rejects the promise. *)
Definition connect : Js nat :=
  let! p := newPromise in
  tryCatch
    (emit (Console false LConnecting) ;;;
     let! g := this in
     let! sock := newWebSocket p ("Bot " +:+ token g) in
     assign (set_ws (Some sock)) ;;;
     let! g := this in
     assign (set_onReady (Wrapped p (onReady g))))
    (reject p) ;;;
  ret p.

Definition startHeartbeat (intervalMs : JVal) : Js unit :=
  let! g := this in
  match heartbeatInterval g with
  | Some id => clearInterval id
  | None => ret tt
  end ;;;
  let! id := setInterval DoHeartbeat intervalMs in
  assign (set_heartbeatInterval (Some id)).

Definition identifyPayload (tok : string) : JVal :=
  JObj [("op", JNum 2);
        ("d", JObj [("token", JStr tok);
                    ("intents", JNum 513);
                    ("properties", JObj [("os", JStr "node");
                                         ("browser", JStr "FluxerBot");
                                         ("device", JStr "FluxerBot")])])].

Definition sendIdentify : Js unit :=
  let! w := world in
  match ws (gw w) with
  | Some sock =>
      if ReadyState_eqb (readyStateOf w sock) OPEN then
        emit (Console false LSendingIdentify) ;;;
        wsSend sock (identifyPayload (token (gw w)))
      else emit (Console true LCannotIdentify)
  | None => emit (Console true LCannotIdentify)
  end.

(** [reconnect()]; the delay [reconnectDelay * Math.pow(2, attempts - 1)]
    is computed in [Z] (see [backoffExact]). *)
Definition reconnect : Js unit :=
  let! g := this in
  assign (set_reconnectAttempts (reconnectAttempts g + 1)) ;;;
  let! g := this in
  let delay := reconnectDelay g * 2 ^ (reconnectAttempts g - 1) in
  emit (Console false (LReconnecting delay (reconnectAttempts g))) ;;;
  let! _ := setTimeout DoConnect (JNum delay) in
  ret tt.

Definition handleDisconnect : Js unit :=
  let! g := this in
  match heartbeatInterval g with
  | Some id => clearInterval id ;;; assign (set_heartbeatInterval None)
  | None => ret tt
  end ;;;
  let! g := this in
  if reconnectAttempts g <? maxReconnectAttempts g then reconnect
  else emit (Console true LMaxReconnect).

Definition disconnect : Js unit :=
  let! g := this in
  match heartbeatInterval g with
  | Some id => clearInterval id ;;; assign (set_heartbeatInterval None)
  | None => ret tt
  end ;;;
  let! g := this in
  match ws g with
  | Some sock => wsClose sock 1000 "Client disconnecting" ;;; assign (set_ws None)
  | None => ret tt
  end.

(** The [switch (opcode)] of [handlePayload], by strict equality. *)
Inductive Opcode : Type :=
| OpHello | OpHeartbeatAck | OpDispatch | OpReconnect | OpInvalidSession | OpOther.

Definition opcodeCase (opcode : JVal) : Opcode :=
  match opcode with
  | JNum n =>
      if n =? 10 then OpHello
      else if n =? 11 then OpHeartbeatAck
      else if n =? 0 then OpDispatch
      else if n =? 7 then OpReconnect
      else if n =? 9 then OpInvalidSession
      else OpOther
  | _ => OpOther
  end.

(** The first statement of [handlePayload]: [if (payload.s) this.sequence = payload.s] *)
Definition updateSequence (payload : JVal) : Js unit :=
  let! s := prop payload "s" in
  when (truthy s) (assign (set_sequence s)).

(** The rest of [handlePayload]: destructuring, the log line (which
    converts [eventType || "OP " + opcode] to a string), the switch. In the
    READY case the session id is stored before it is printed. *)
Definition dispatchPayload (payload : JVal) : Js unit :=
  let! eventType := prop payload "t" in
  let! eventData := prop payload "d" in
  let! opcode := prop payload "op" in
  toPrimitive (if truthy eventType then eventType else opcode) ;;;
  emit (Console false (LEvent eventType opcode)) ;;;
  match opcodeCase opcode with
  | OpHello =>
      emit (Console false LHello) ;;;
      let! intervalMs := prop eventData "heartbeat_interval" in
      startHeartbeat intervalMs ;;;
      sendIdentify
  | OpHeartbeatAck =>
      emit (Console false LHeartbeatAck)
  | OpDispatch =>
      if isStr eventType "READY" then
        let! sid := prop eventData "session_id" in
        assign (set_sessionId sid) ;;;
        toPrimitive sid ;;;
        emit (Console false (LSessionId sid)) ;;;
        let! g := this in
        callReady (onReady g) eventData
      else if isStr eventType "MESSAGE_CREATE" then
        let! g := this in
        when (onMessage g) (emit (CallOnMessage eventData))
      else ret tt
  | OpReconnect =>
      emit (Console false LReconnectRequested) ;;;
      reconnect
  | OpInvalidSession =>
      emit (Console false LInvalidSession) ;;;
      let! g := this in
      let! _ := setTimeout DoReconnect (JNum (reconnectDelay g)) in
      ret tt
  | OpOther =>
      when (truthy eventType) (emit (Console false (LUnhandled eventType)))
  end.

Definition handlePayload (payload : JVal) : Js unit :=
  updateSequence payload ;;;
  dispatchPayload payload.

(** ** WebSocket handlers installed by [connect] *)

(** A received frame: [JSON.parse(data.toString())] throws or yields a value. *)
Inductive Frame : Type :=
| Malformed
| Parsed (payload : JVal).

Definition wsOnOpen : Js unit := emit (Console false LOpened).

Definition wsOnMessage (data : Frame) : Js unit :=
  tryCatch
    match data with
    | Malformed => throw
    | Parsed payload => handlePayload payload
    end
    (emit (Console true LParseFailed)).

Definition wsOnError (p : nat) : Js unit :=
  emit (Console true LWsError) ;;;
  let! g := this in
  when (onError g) (emit CallOnError) ;;;
  reject p.

Definition wsOnClose (code : Z) (reason : string) : Js unit :=
  emit (Console false (LClosed code reason)) ;;;
  let! g := this in
  when (onDisconnect g) (emit CallOnDisconnect) ;;;
  handleDisconnect.

(** ** Timer callbacks *)

Definition heartbeatPayload (seq : JVal) : JVal :=
  JObj [("op", JNum 1); ("d", seq)].

Definition heartbeatTick : Js unit :=
  let! w := world in
  match ws (gw w) with
  | Some sock =>
      when (ReadyState_eqb (readyStateOf w sock) OPEN)
           (wsSend sock (heartbeatPayload (sequence (gw w))))
  | None => ret tt
  end.

Definition timerCallback (a : TimerAction) : Js unit :=
  match a with
  | DoHeartbeat => heartbeatTick
  | DoReconnect => reconnect
  | DoConnect => let! p := connect in attachCatch p
  end.

(** A timer comes due: a timeout is spent, an interval stays armed; a
    cleared timer never runs. *)
Definition fireTimer (id : nat) : Js unit :=
  let! w := world in
  match timers w !! id with
  | None => ret tt
  | Some t =>
      when (negb (repeating t)) (update (fun w => set_timers (delete id (timers w)) w)) ;;;
      timerCallback (action t)
  end.

(** ** The event loop *)

Inductive Event : Type :=
| ECallConnect                          (* the owner calls connect() *)
| ECallDisconnect                       (* the owner calls disconnect() *)
| EOpen (sock : nat)                    (* 'open' on a socket *)
| EMessage (sock : nat) (data : Frame)  (* 'message' *)
| EError (sock : nat)                   (* 'error' *)
| EClose (sock : nat) (code : Z) (reason : string)   (* 'close' *)
| ETimer (id : nat).                    (* a timer comes due *)

Definition step (e : Event) : Js unit :=
  match e with
  | ECallConnect => let! _ := connect in ret tt
  | ECallDisconnect => disconnect
  | EOpen sock =>
      let! w := world in
      match socks w !! sock with
      | Some _ => setReadyState sock OPEN ;;; wsOnOpen
      | None => ret tt
      end
  | EMessage sock data =>
      let! w := world in
      match socks w !! sock with
      | Some _ => wsOnMessage data
      | None => ret tt
      end
  | EError sock =>
      let! w := world in
      match socks w !! sock with
      | Some s => wsOnError (connectPromise s)
      | None => ret tt
      end
  | EClose sock code reason =>
      let! w := world in
      match socks w !! sock with
      | Some _ => setReadyState sock CLOSED ;;; wsOnClose code reason
      | None => ret tt
      end
  | ETimer id => fireTimer id
  end.

(** Events in arrival order: the final world and the whole effect trace. *)
Fixpoint run (events : list Event) (w : World) : World * list Effect :=
  match events with
  | [] => (w, [])
  | e :: rest =>
      let r := step e w in
      let '(w', tr) := run rest (after r) in
      (w', effects r ++ tr)
  end.

(** ** channel.ts: the module that owns the gateway *)

Inductive ChannelLog : Type :=
| LAlreadyConnected
| LStarting
| LGatewayReady
| LReceivedMessage (id : JVal)
| LGatewayError
| LGatewayDisconnected
| LEstablished
| LFailedToConnect
| LStopped.

Inductive ChannelEffect : Type :=
| ChannelConsole (isError : bool) (m : ChannelLog)
| FromGateway (object : nat) (e : Effect)      (* an effect of a gateway object *)
| StartRejected.                               (* startFluxerGateway rethrows *)

(** The module state: the two module variables, and every gateway object
    made so far together with its environment (an object that the module
    variable no longer points to keeps its sockets, timers and handlers);
    and the tokens of which the [ws] library rejects the header. *)
Record Channel : Type := mkChannel {
  gateways : list World;
  fluxerGateway : option nat;      (* let fluxerGateway: FluxerGateway | null *)
  gatewaySessionId : JVal;         (* let gatewaySessionId: string | null *)
  wsRejectsToken : string -> bool  (* new WebSocket throws on this token *)
}.

(** The module as loaded, where the library accepts every token. *)
Definition newChannel : Channel := mkChannel [] None JNull (fun _ => false).

(** [fluxerGateway && fluxerGateway.isConnected()] *)
Definition moduleGatewayConnected (c : Channel) : bool :=
  match fluxerGateway c with
  | Some i =>
      match gateways c !! i with
      | Some w => isConnected w
      | None => false
      end
  | None => false
  end.

(** [stopFluxerGateway()] *)
Definition stopFluxerGateway (c : Channel) : Channel * list ChannelEffect :=
  match fluxerGateway c with
  | Some i =>
      match gateways c !! i with
      | Some w =>
          let r := disconnect w in
          (mkChannel (<[i := after r]> (gateways c)) None JNull (wsRejectsToken c),
           map (FromGateway i) (effects r) ++ [ChannelConsole false LStopped])
      | None => (c, [])
      end
  | None => (c, [])
  end.

(** [isFluxerGatewayConnected()] *)
Definition isFluxerGatewayConnected (c : Channel) : bool :=
  match gatewaySessionId c with
  | JNull => false
  | _ => true
  end.

(** [fluxerGateway?.getSessionId() ?? null] *)
Definition moduleSessionId (c : Channel) : JVal :=
  match fluxerGateway c with
  | Some i =>
      match gateways c !! i with
      | Some w =>
          match getSessionId w with
          | JUndefined => JNull
          | v => v
          end
      | None => JNull
      end
  | None => JNull
  end.

(** The callbacks that [startFluxerGateway] gives the gateway, and the
    continuation of its [await connect()] (promise 0 of the object). The
    message callback prints [data.id]: on data that is [null] or
    [undefined] it throws, out of the call that ends [handlePayload], and
    the message handler of the gateway object prints the failure. *)
Definition channelReaction (object : nat) (e : Effect) (c : Channel)
  : Channel * list ChannelEffect :=
  match e with
  | CallOnReady _ =>
      (mkChannel (gateways c) (fluxerGateway c) (moduleSessionId c) (wsRejectsToken c),
       [ChannelConsole false LGatewayReady])
  | CallOnMessage data =>
      match getProp data "id" with
      | Some id => (c, [ChannelConsole false (LReceivedMessage id)])
      | None => (c, [FromGateway object (Console true LParseFailed)])
      end
  | CallOnError => (c, [ChannelConsole true LGatewayError])
  | CallOnDisconnect =>
      (mkChannel (gateways c) (fluxerGateway c) JNull (wsRejectsToken c),
       [ChannelConsole false LGatewayDisconnected])
  | Fulfilled O => (c, [ChannelConsole false LEstablished])
  | Rejected O => (c, [ChannelConsole true LFailedToConnect; StartRejected])
  | _ => (c, [])
  end.

Fixpoint channelReactions (object : nat) (es : list Effect) (c : Channel)
  : Channel * list ChannelEffect :=
  match es with
  | [] => (c, [])
  | e :: rest =>
      let '(c1, out1) := channelReaction object e c in
      let '(c2, out2) := channelReactions object rest c1 in
      (c2, FromGateway object e :: out1 ++ out2)
  end.

(** [startFluxerGateway(token)], up to its [await]; where [connect] has
    rejected its promise already (the constructor threw), the [catch]
    around the [await] follows. *)
Definition startFluxerGateway (tok : string) (c : Channel) : Channel * list ChannelEffect :=
  if moduleGatewayConnected c then
    (c, [ChannelConsole false LAlreadyConnected])
  else
    let i := length (gateways c) in
    let r := connect (newWorldIn (wsRejectsToken c tok) (mkOptions tok true true true true)) in
    let '(c', out) :=
      channelReactions i (effects r)
        (mkChannel (gateways c ++ [after r]) (Some i) (gatewaySessionId c)
                   (wsRejectsToken c)) in
    (c', ChannelConsole false LStarting :: out).

(** An event of the environment of gateway object [object]. *)
Definition channelStep (object : nat) (e : Event) (c : Channel) : Channel * list ChannelEffect :=
  match gateways c !! object with
  | Some w =>
      let r := step e w in
      channelReactions object (effects r)
        (mkChannel (<[object := after r]> (gateways c)) (fluxerGateway c) (gatewaySessionId c)
                   (wsRejectsToken c))
  | None => (c, [])
  end.

(** * The vocabulary of the properties *)

(** ** Observations *)

(** The effects of the last event alone, after the events before it. *)
Definition thenStep (events : list Event) (e : Event) (w : World) : list Effect :=
  effects (step e (fst (run events w))).

(** Frames handed to the message handler one after the other. *)
Definition receive (frames : list Frame) (w : World) : World :=
  fold_left (fun w data => after (wsOnMessage data w)) frames w.

(** An observation of the gateway object alone. *)
Definition field {X} (f : FluxerGateway -> X) (w : World) : X := f (gw w).

(** [Keeps f m]: running [m] leaves the observation [f] of the world as it
    was, however [m] completes. *)
Definition Keeps {A X} (f : World -> X) (m : Js A) : Prop :=
  forall w, f (after (m w)) = f w.

(** [Returns m]: [m] never completes by an exception. *)
Definition Returns {A} (m : Js A) : Prop :=
  forall w, exists a, completion (m w) = Normal a.

(** [Grows m]: [m] does not lower the attempt counter. *)
Definition Grows {A} (m : Js A) : Prop :=
  forall w, reconnectAttempts (gw w) <= reconnectAttempts (gw (after (m w))).

(** ** Payloads, frames and traces *)

(** A Dispatch payload (opcode 0) that carries the sequence number [s]. *)
Definition isDispatch (payload : JVal) (s : Z) : Prop :=
  getProp payload "op" = Some (JNum 0) /\ getProp payload "s" = Some (JNum s).

(** The session-ready event: a Dispatch whose event type is READY. *)
Definition isReady (payload : JVal) : Prop :=
  getProp payload "op" = Some (JNum 0) /\ getProp payload "t" = Some (JStr "READY").

Fixpoint increasing (l : list Z) : Prop :=
  match l with
  | a :: (b :: _) as rest => a < b /\ increasing rest
  | _ => True
  end.

(** The largest of [s] and the values after it. *)
Definition maxSeen (s : Z) (rest : list Z) : Z := fold_left Z.max rest s.

(** Does the event bring a truthy [s]? *)
Definition carriesSequence (e : Event) : bool :=
  match e with
  | EMessage _ (Parsed payload) =>
      match getProp payload "s" with
      | Some s => truthy s
      | None => false
      end
  | _ => false
  end.

(** The attempt number the specification gives each retry, with the delay
    the code scheduled for it: retries are counted from the last
    "Received READY, connection established!". *)
Fixpoint retriesSinceSuccess (k : Z) (trace : list Effect) : list (Z * JVal) :=
  match trace with
  | [] => []
  | Console false LReady :: rest => retriesSinceSuccess 0 rest
  | SetTimeout _ delay DoConnect :: rest => (k + 1, delay) :: retriesSinceSuccess (k + 1) rest
  | _ :: rest => retriesSinceSuccess k rest
  end.

(** The backoff arithmetic of the next [reconnect] is exact in doubles:
    the attempt counter is a count, the base delay an integer that a double
    holds, and the delay [reconnectDelay * 2^attempts] is below 2^1024
    (from there on the code computes [Infinity]). With the delay 1000 of
    the class these are the reconnects up to the 1015th. *)
Definition backoffExact (g : FluxerGateway) : bool :=
  (0 <=? reconnectAttempts g) && (1 <=? reconnectDelay g) && (reconnectDelay g <=? 2 ^ 53)
  && (reconnectDelay g * 2 ^ reconnectAttempts g <? 2 ^ 1024).

(** ** Worlds that the methods leave behind *)

(** The world after [if (payload.s) this.sequence = payload.s]. *)
Definition sequenceUpdated (s : JVal) (w : World) : World :=
  if truthy s then set_gw (set_sequence s (gw w)) w else w.

(** [ws.close] on the socket table. *)
Definition closing (sock : nat) (w : World) : World :=
  match socks w !! sock with
  | Some s =>
      match readyState s with
      | CLOSED => w
      | _ => set_socks (<[sock := mkSocket CLOSING (connectPromise s)]> (socks w)) w
      end
  | None => w
  end.

(** The two steps of [disconnect]. *)
Definition stopHeartbeat (w : World) : World :=
  match heartbeatInterval (gw w) with
  | Some h => set_gw (set_heartbeatInterval None (gw w)) (set_timers (delete h (timers w)) w)
  | None => w
  end.

Definition closeTransport (w : World) : World :=
  match ws (gw w) with
  | Some sock => set_gw (set_ws None (gw (closing sock w))) (closing sock w)
  | None => w
  end.

(** The world after [disconnect]. *)
Definition disconnected (w : World) : World := closeTransport (stopHeartbeat w).

(** The world after the timer armed by [reconnect] has come due:
    [this.connect().catch(...)]. *)
Definition afterReconnectTimer (id : nat) (w : World) : World :=
  let p := length (promises w) in
  let sock := length (socks w) in
  mkWorld (set_onReady (Wrapped p (onReady (gw w))) (set_ws (Some sock) (gw w)))
          (socks w ++ [mkSocket CONNECTING p]) (delete id (timers w)) (nextTimer w)
          (promises w ++ [mkPromise None true]) (wsRejectsArguments w).

(** ** Frames and scenarios *)

Definition helloFrame (interval : Z) : Frame :=
  Parsed (JObj [("op", JNum 10); ("d", JObj [("heartbeat_interval", JNum interval)])]).

Definition readyFrame (s : Z) (sid : string) : Frame :=
  Parsed (JObj [("op", JNum 0); ("t", JStr "READY"); ("s", JNum s);
                ("d", JObj [("session_id", JStr sid)])]).

Definition opFrame (op : Z) : Frame := Parsed (JObj [("op", JNum op)]).

(** A gateway made with all four callbacks. *)
Definition allCallbacks : FluxerGatewayOptions := mkOptions "tok" true true true true.

(** The handshake: connect, open, Hello, READY. *)
Definition sessionEstablished : list Event :=
  [ ECallConnect; EOpen 0; EMessage 0 (helloFrame 41250); EMessage 0 (readyFrame 1 "s0") ].

(** A session is established and dropped, the first reconnect fails on a
    transport error, the second establishes a session. *)
Definition secondRetryConnected : list Event :=
  sessionEstablished ++
  [ EClose 0 1006 "";
    ETimer 1; EError 1; EClose 1 1006 "";
    ETimer 2; EOpen 2; EMessage 2 (helloFrame 41250); EMessage 2 (readyFrame 1 "s2") ].

(** A session is established and dropped, two reconnects fail on a
    transport error, the third gets as far as Hello. *)
Definition thirdRetryAtHello : list Event :=
  sessionEstablished ++
  [ EClose 0 1006 "";
    ETimer 1; EError 1; EClose 1 1006 "";
    ETimer 2; EError 2; EClose 2 1006 "";
    ETimer 3; EOpen 3; EMessage 3 (helloFrame 41250) ].

(** A session is established and dropped, four reconnects fail on a
    transport error and the fifth establishes a session again. *)
Definition fifthRetryConnected : list Event :=
  sessionEstablished ++
  [ EClose 0 1006 "";
    ETimer 1; EError 1; EClose 1 1006 "";
    ETimer 2; EError 2; EClose 2 1006 "";
    ETimer 3; EError 3; EClose 3 1006 "";
    ETimer 4; EError 4; EClose 4 1006 "";
    ETimer 5; EOpen 5; EMessage 5 (helloFrame 41250); EMessage 5 (readyFrame 1 "s5") ].

(** * The vocabulary of the further properties *)

(** [Emits P m]: every effect of [m] satisfies [P]. *)
Definition Emits {A} (P : Effect -> Prop) (m : Js A) : Prop :=
  forall w, Forall P (effects (m w)).

(** The case of the switch that a payload takes, and its event type. *)
Definition payloadOpcode (payload : JVal) : Opcode :=
  match getProp payload "op" with
  | Some opcode => opcodeCase opcode
  | None => OpOther
  end.

Definition payloadEventType (payload : JVal) : JVal :=
  default JUndefined (getProp payload "t").

(** Kinds of events. *)
Definition isFrame (op : Opcode) (e : Event) : Prop :=
  match e with
  | EMessage _ (Parsed payload) => payloadOpcode payload = op
  | _ => False
  end.

Definition isDispatchOf (eventType : string) (e : Event) : Prop :=
  match e with
  | EMessage _ (Parsed payload) =>
      payloadOpcode payload = OpDispatch /\ isStr (payloadEventType payload) eventType = true
  | _ => False
  end.

Definition isTimer (e : Event) : Prop :=
  match e with ETimer _ => True | _ => False end.

Definition isClose (e : Event) : Prop :=
  match e with EClose _ _ _ => True | _ => False end.

Definition isError (e : Event) : Prop :=
  match e with EError _ => True | _ => False end.

(** The events whose handler can produce an effect. *)
Definition producedBy (e : Event) (eff : Effect) : Prop :=
  match eff with
  | Console _ _ => True
  | Dial _ _ _ => e = ECallConnect \/ isTimer e
  | Send _ _ => isTimer e \/ isFrame OpHello e
  | CloseSock _ code _ => e = ECallDisconnect /\ code = 1000
  | SetTimeout _ _ DoConnect => isTimer e \/ isFrame OpReconnect e \/ isClose e
  | SetTimeout _ _ DoReconnect => isFrame OpInvalidSession e
  | SetTimeout _ _ DoHeartbeat => False
  | SetInterval _ _ a => a = DoHeartbeat /\ isFrame OpHello e
  | ClearInterval _ => isFrame OpHello e \/ isClose e \/ e = ECallDisconnect
  | CallOnReady _ | Fulfilled _ => isDispatchOf "READY" e
  | CallOnMessage _ => isDispatchOf "MESSAGE_CREATE" e
  | CallOnError => isError e
  | Rejected _ => isError e \/ e = ECallConnect \/ isTimer e
  | CallOnDisconnect => isClose e
  end.

Definition notSend (eff : Effect) : Prop :=
  match eff with Send _ _ => False | _ => True end.

(** [Sends obs Q m]: whatever [m] sends satisfies [Q], judged on the
    observation [obs] of the world in which [m] starts. *)
Definition Sends {A X} (obs : World -> X) (Q : X -> nat -> JVal -> Prop) (m : Js A) : Prop :=
  forall w sock payload, In (Send sock payload) (effects (m w)) -> Q (obs w) sock payload.

(** The current handle, the socket table and the token. *)
Definition identifyView (w : World) : option nat * list Socket * string :=
  (ws (gw w), socks w, token (gw w)).

Definition isIdentifyOnOpen (v : option nat * list Socket * string)
    (sock : nat) (payload : JVal) : Prop :=
  v.1.1 = Some sock /\
  (match v.1.2 !! sock with Some s => readyState s | None => CLOSED end) = OPEN /\
  payload = identifyPayload v.2.

(** The current handle, the socket table and the tracked sequence number. *)
Definition heartbeatView (w : World) : option nat * list Socket * JVal :=
  (ws (gw w), socks w, sequence (gw w)).

Definition isHeartbeatOnOpen (v : option nat * list Socket * JVal)
    (sock : nat) (payload : JVal) : Prop :=
  v.1.1 = Some sock /\
  (match v.1.2 !! sock with Some s => readyState s | None => CLOSED end) = OPEN /\
  payload = heartbeatPayload v.2.

(** What one frame makes of the tracked sequence number. *)
Definition latestSequence (tracked : JVal) (data : Frame) : JVal :=
  match data with
  | Parsed payload =>
      match getProp payload "s" with
      | Some s => if truthy s then s else tracked
      | None => tracked
      end
  | Malformed => tracked
  end.

(** The delays of the backoff timers armed in a trace, in order. *)
Fixpoint backoffDelays (trace : list Effect) : list JVal :=
  match trace with
  | [] => []
  | SetTimeout _ delay DoConnect :: rest => delay :: backoffDelays rest
  | _ :: rest => backoffDelays rest
  end.

(** [n] doublings of [base], from the exponent [from]. *)
Definition backoffSchedule (base from : Z) (n : nat) : list JVal :=
  map (fun i => JNum (base * 2 ^ (from + Z.of_nat i))) (seq 0 n).

Definition notBackoff (eff : Effect) : Prop :=
  match eff with SetTimeout _ _ DoConnect => False | _ => True end.

(** [Schedules m]: the backoff timers that [m] arms continue the schedule
    at the attempt counter, which [m] advances by their number; the base
    delay stays. *)
Definition Schedules {A} (m : Js A) : Prop :=
  forall w, exists n : nat,
    reconnectDelay (gw (after (m w))) = reconnectDelay (gw w) /\
    reconnectAttempts (gw (after (m w))) = reconnectAttempts (gw w) + Z.of_nat n /\
    backoffDelays (effects (m w)) =
      backoffSchedule (reconnectDelay (gw w)) (reconnectAttempts (gw w)) n.

(** [ArmsNo a m]: every timer with action [a] that is armed after [m] was
    armed before. *)
Definition ArmsNo {A} (a : TimerAction) (m : Js A) : Prop :=
  forall w id t, timers (after (m w)) !! id = Some t -> action t = a ->
                 timers w !! id = Some t.

(** A frame that is neither a Reconnect request nor an Invalid Session. *)
Definition serverQuiet (e : Event) : bool :=
  match e with
  | EMessage _ (Parsed payload) =>
      match payloadOpcode payload with
      | OpReconnect | OpInvalidSession => false
      | _ => true
      end
  | _ => true
  end.

(** The attempts are within the maximum and no fixed-delay timer of an
    Invalid Session is armed. *)
Definition withinMaximum (w : World) : Prop :=
  reconnectAttempts (gw w) <= maxReconnectAttempts (gw w) /\
  forall id t, timers w !! id = Some t -> action t <> DoReconnect.

(** The timer table, the next timer handle and the recorded heartbeat
    handle. *)
Definition timerView (w : World) : gmap nat Timer * nat * option nat :=
  (timers w, nextTimer w, heartbeatInterval (gw w)).

(** The interval that a Hello hands to [setInterval]. *)
Definition helloInterval (payload : JVal) : JVal :=
  match getProp payload "d" with
  | Some eventData => default JUndefined (getProp eventData "heartbeat_interval")
  | None => JUndefined
  end.

(** No Hello with an interval that has no primitive value (on which
    [setInterval] throws). *)
Definition intervalHasValue (e : Event) : bool :=
  match e with
  | EMessage _ (Parsed payload) =>
      match payloadOpcode payload with
      | OpHello => negb (toPrimitiveThrows (helloInterval payload))
      | _ => true
      end
  | _ => true
  end.

(** Handles not yet given out are not armed; an armed heartbeat timer is an
    interval and is the recorded one; and, when [strict], the recorded one
    is armed. *)
Definition heartbeatOk (strict : bool) (v : gmap nat Timer * nat * option nat) : Prop :=
  (forall id, (v.1.2 <= id)%nat -> v.1.1 !! id = None) /\
  (forall id t, v.1.1 !! id = Some t -> action t = DoHeartbeat ->
                v.2 = Some id /\ repeating t = true) /\
  (strict = true ->
   forall h, v.2 = Some h -> exists t, v.1.1 !! h = Some t /\ action t = DoHeartbeat).

Definition heartbeatArmed (strict : bool) (w : World) : Prop :=
  heartbeatOk strict (timerView w).

Definition Preserves {A} (I : World -> Prop) (m : Js A) : Prop :=
  forall w, I w -> I (after (m w)).

(** The callback at the bottom of [this.onReady] and the promises of the
    wrappers around it, outermost first. *)
Fixpoint readyGiven (fn : ReadyFn) : bool :=
  match fn with
  | UserReady given => given
  | Wrapped _ original => readyGiven original
  end.

Fixpoint wrappedPromises (fn : ReadyFn) : list nat :=
  match fn with
  | UserReady _ => []
  | Wrapped p original => p :: wrappedPromises original
  end.

Definition pending (w : World) (p : nat) : Prop :=
  exists c, promises w !! p = Some (mkPromise None c).

(** Every pending promise of a [connect] call is resolved by a wrapper of
    [this.onReady]. *)
Definition promisesWrapped (w : World) : Prop :=
  forall p, pending w p -> In p (wrappedPromises (onReady (gw w))).

(** The promise table and [this.onReady]. *)
Definition promiseView (w : World) : list PromiseCell * ReadyFn :=
  (promises w, onReady (gw w)).

(** The data handed to the Ready callback, call by call. *)
Fixpoint readyCalls (trace : list Effect) : list JVal :=
  match trace with
  | [] => []
  | CallOnReady data :: rest => data :: readyCalls rest
  | _ :: rest => readyCalls rest
  end.

(** The promises fulfilled in a trace. *)
Fixpoint fulfilledIn (trace : list Effect) : list nat :=
  match trace with
  | [] => []
  | Fulfilled p :: rest => p :: fulfilledIn rest
  | _ :: rest => fulfilledIn rest
  end.

(** What a trace of a gateway object makes of the session id of the module:
    the Ready callback copies the session id of the module's gateway, the
    Disconnect callback forgets it. *)
Definition moduleSessionAfter (current : JVal) (sid : JVal) (e : Effect) : JVal :=
  match e with
  | CallOnReady _ => current
  | CallOnDisconnect => JNull
  | _ => sid
  end.

(** ** Accounts and outbound text (channel.ts, runtime.ts) *)

(** [v?.k]: [undefined] on [undefined] and [null]. As with [getProp], a key
    names an own property of a parsed object; members of prototypes carry
    no [enabled], [token] or [accounts] and make no difference below. *)
Definition optProp (v : JVal) (k : string) : JVal :=
  match getProp v k with
  | Some x => x
  | None => JUndefined
  end.

(** [v ?? d] *)
Definition coalesce (v d : JVal) : JVal :=
  match v with
  | JUndefined | JNull => d
  | _ => v
  end.

(** [`${v}`]: the text of a value in a template literal. There is none
    where the conversion throws ([toPrimitiveThrows]), and none is given
    here for a number beyond 2^53: up to there JavaScript prints an integer
    digit by digit, beyond it prints the shortest digits that identify the
    double, and an exponent from 10^21. *)
Definition templateString (v : JVal) : option string :=
  match v with
  | JUndefined => Some "undefined"
  | JNull => Some "null"
  | JBool true => Some "true"
  | JBool false => Some "false"
  | JNum n => if Z.abs n <=? 2 ^ 53 then Some (pretty n) else None
  | JStr s => Some s
  | JObj _ => if toPrimitiveThrows v then None else Some "[object Object]"
  end.

(** What a function of the module throws. *)
Inductive Failure : Type :=
| TypeError                 (* a property of undefined or null; no primitive value *)
| RuntimeNotInitialized     (* "Fluxer runtime not initialized" *)
| AccountNotConfigured.     (* "Fluxer account not configured" *)

Inductive Outcome (A : Type) : Type :=
| Returned (a : A)
| Threw (f : Failure).
Arguments Returned {A} a.
Arguments Threw {A} f.

(** runtime.ts: the module variable [runtime] and its two accessors. Of a
    plugin runtime the module uses [config.get()] only; a runtime is kept
    here by the configuration that call returns. *)
Definition setFluxerRuntime (next : JVal) (runtime : option JVal) : option JVal :=
  Some next.

Definition getFluxerRuntime (runtime : option JVal) : Outcome JVal :=
  match runtime with
  | Some r => Returned r
  | None => Threw RuntimeNotInitialized
  end.

Section Accounts.
(** [DEFAULT_ACCOUNT_ID] of the plugin SDK, and [Object.keys]. *)
Variable DEFAULT_ACCOUNT_ID : string.
Variable objectKeys : JVal -> list string.

(** [cfg.channels?.fluxer?.accounts] *)
Definition fluxerAccounts (cfg : JVal) : Outcome JVal :=
  match getProp cfg "channels" with
  | Some channels => Returned (optProp (optProp channels "fluxer") "accounts")
  | None => Threw TypeError
  end.

Definition resolveFluxerAccount (cfg : JVal) (accountId : string) : Outcome JVal :=
  match fluxerAccounts cfg with
  | Threw f => Threw f
  | Returned accounts =>
      let account := optProp accounts accountId in
      if negb (truthy (optProp account "enabled")) then Returned JNull
      else
        match getProp account "token" with
        | None => Threw TypeError
        | Some tok =>
            if negb (truthy tok) then Returned JNull
            else
              Returned (JObj [ ("accountId", JStr accountId);
                               ("token", tok);
                               ("enabled", optProp account "enabled");
                               ("name", coalesce (optProp account "name")
                                                 (JStr "Fluxer Bot")) ])
        end
  end.

Definition resolveDefaultFluxerAccountId (cfg : JVal) : string := DEFAULT_ACCOUNT_ID.

Definition listFluxerAccountIds (cfg : JVal) : Outcome (list string) :=
  match fluxerAccounts cfg with
  | Threw f => Threw f
  | Returned accounts =>
      if negb (truthy accounts) then Returned [DEFAULT_ACCOUNT_ID]
      else Returned (objectKeys accounts)
  end.

(** The request that [sendFluxerMessage] hands to [fetch]; the text of the
    Authorization header where [templateString] gives it. *)
Record Request : Type := mkRequest {
  url : string;
  authorizationHeader : option string;
  body : JVal
}.

(** [sendFluxerMessage], up to its call of [fetch]: the template literal of
    the header throws on a token without a primitive value. *)
Definition sendFluxerMessageRequest (tok : JVal) (channelId content : string)
  : Outcome Request :=
  if toPrimitiveThrows tok then Threw TypeError
  else
    Returned
      {| url := "https://api.fluxer.app/v1/channels/" +:+ channelId +:+ "/messages";
         authorizationHeader := option_map (String.append "Bot ") (templateString tok);
         body := JObj [("content", JStr content)] |}.

(** [outbound.sendText], up to the request it sends. *)
Definition sendText (runtime : option JVal) (to text : string) (accountId : option string)
  : Outcome Request :=
  match getFluxerRuntime runtime with
  | Threw f => Threw f
  | Returned cfg =>
      match resolveFluxerAccount cfg (default DEFAULT_ACCOUNT_ID accountId) with
      | Threw f => Threw f
      | Returned account =>
          if negb (truthy account) then Threw AccountNotConfigured
          else sendFluxerMessageRequest (optProp account "token") to text
      end
  end.
End Accounts.

(** * Properties *)

(** ** Reasoning about computations *)

Ltac js_unfold :=
  cbv [bind ret throw tryCatch emit this assign world update when prop
       completion after effects] in *.

Section Frames.
Context {X : Type} (f : World -> X).

Lemma Keeps_ret {A} (a : A) : Keeps f (ret a).
Proof. intros w. reflexivity. Qed.

Lemma Keeps_throw {A} : Keeps f (@throw A).
Proof. intros w. reflexivity. Qed.

Lemma Keeps_emit (e : Effect) : Keeps f (emit e).
Proof. intros w. reflexivity. Qed.

Lemma Keeps_this : Keeps f this.
Proof. intros w. reflexivity. Qed.

Lemma Keeps_world : Keeps f world.
Proof. intros w. reflexivity. Qed.

Lemma Keeps_bind {A B} (m : Js A) (k : A -> Js B) :
  Keeps f m -> (forall a, Keeps f (k a)) -> Keeps f (bind m k).
Proof.
  intros Hm Hk w. specialize (Hm w). unfold bind, after in *.
  destruct (m w) as [[[a|] w1] e1]; simpl in *; [|exact Hm].
  specialize (Hk a w1). unfold after in Hk.
  destruct (k a w1) as [[r w2] e2]; simpl in *. congruence.
Qed.

Lemma Keeps_tryCatch (m h : Js unit) :
  Keeps f m -> Keeps f h -> Keeps f (tryCatch m h).
Proof.
  intros Hm Hh w. specialize (Hm w). unfold tryCatch, after in *.
  destruct (m w) as [[[a|] w1] e1]; simpl in *; [exact Hm|].
  specialize (Hh w1). unfold after in Hh.
  destruct (h w1) as [[r w2] e2]; simpl in *. congruence.
Qed.

Lemma Keeps_when (b : bool) (m : Js unit) : Keeps f m -> Keeps f (when b m).
Proof. intros Hm. destruct b; [exact Hm | apply Keeps_ret]. Qed.

Lemma Keeps_prop (v : JVal) (k : string) : Keeps f (prop v k).
Proof. unfold prop. destruct (getProp v k); [apply Keeps_ret | apply Keeps_throw]. Qed.

Lemma Keeps_toPrimitive (v : JVal) : Keeps f (toPrimitive v).
Proof.
  unfold toPrimitive. destruct (toPrimitiveThrows v); [apply Keeps_throw | apply Keeps_ret].
Qed.

Lemma Keeps_update (u : World -> World) :
  (forall w, f (u w) = f w) -> Keeps f (update u).
Proof. intros Hu w. apply Hu. Qed.

Lemma Keeps_assign (u : FluxerGateway -> FluxerGateway) :
  (forall w, f (set_gw (u (gw w)) w) = f w) -> Keeps f (assign u).
Proof. intros Hu w. apply Hu. Qed.
End Frames.

Lemma Returns_ret {A} (a : A) : Returns (ret a).
Proof. intros w. exists a. reflexivity. Qed.

Lemma Returns_bind {A B} (m : Js A) (k : A -> Js B) :
  Returns m -> (forall a, Returns (k a)) -> Returns (bind m k).
Proof.
  intros Hm Hk w. destruct (Hm w) as [a Ha]. unfold bind, completion in *.
  destruct (m w) as [[c w1] e1]; simpl in Ha; subst c.
  destruct (Hk a w1) as [b Hb]. unfold completion in Hb.
  destruct (k a w1) as [[r w2] e2]; simpl in *. exists b. exact Hb.
Qed.

Lemma Returns_when (b : bool) (m : Js unit) : Returns m -> Returns (when b m).
Proof. intros Hm. destruct b; [exact Hm | apply Returns_ret]. Qed.

Lemma Returns_tryCatch (m h : Js unit) : Returns h -> Returns (tryCatch m h).
Proof.
  intros Hh w. unfold tryCatch, completion.
  destruct (m w) as [[[a|] w1] e1]; simpl; [exists a; reflexivity|].
  destruct (Hh w1) as [b Hb]. unfold completion in Hb.
  destruct (h w1) as [[r w2] e2]; simpl in *. exists b. exact Hb.
Qed.

(** Goals [Keeps f m] and [Returns m] by the structure of [m]. *)
Ltac keeps_step :=
  first
    [ apply Keeps_ret | apply Keeps_throw | apply Keeps_emit | apply Keeps_this
    | apply Keeps_world | apply Keeps_prop | apply Keeps_toPrimitive
    | apply Keeps_bind; [| intros ?]
    | apply Keeps_tryCatch
    | apply Keeps_when
    | apply Keeps_update; intros ?; reflexivity
    | apply Keeps_assign; intros ?; reflexivity
    | match goal with
      | |- Keeps _ (match ?x with _ => _ end) => destruct x
      | |- Keeps _ (if ?x then _ else _) => destruct x
      end ].

Ltac returns_step :=
  first
    [ apply Returns_ret
    | apply Returns_bind; [| intros ?]
    | apply Returns_when
    | apply Returns_tryCatch
    | (intros ?; eexists; reflexivity)
    | match goal with
      | |- Returns (match ?x with _ => _ end) => destruct x
      | |- Returns (if ?x then _ else _) => destruct x
      end ].

Section EnvironmentKeepsObject.
Context {X : Type} (f : FluxerGateway -> X).

Lemma setReadyState_field sock st : Keeps (field f) (setReadyState sock st).
Proof. intros w. unfold setReadyState, update, after, field. simpl.
       destruct (socks w !! sock); reflexivity. Qed.

Lemma newPromise_field : Keeps (field f) newPromise.
Proof. intros w. reflexivity. Qed.

Lemma newWebSocket_field p auth : Keeps (field f) (newWebSocket p auth).
Proof. intros w. unfold newWebSocket, after, field.
       destruct (constructorThrows w); reflexivity. Qed.

Lemma resolve_field p : Keeps (field f) (resolve p).
Proof. intros w. unfold resolve, after, field.
       destruct (promises w !! p) as [[[b|] c]|]; reflexivity. Qed.

Lemma reject_field p : Keeps (field f) (reject p).
Proof. intros w. unfold reject, after, field.
       destruct (promises w !! p) as [[[b|] c]|]; reflexivity. Qed.

Lemma attachCatch_field p : Keeps (field f) (attachCatch p).
Proof. intros w. unfold attachCatch, after, field.
       destruct (promises w !! p) as [[st c]|]; reflexivity. Qed.

Lemma armTimer_field rep a delay : Keeps (field f) (armTimer rep a delay).
Proof. intros w. reflexivity. Qed.

Lemma clearInterval_field id : Keeps (field f) (clearInterval id).
Proof. intros w. reflexivity. Qed.

Lemma wsClose_field sock code reason : Keeps (field f) (wsClose sock code reason).
Proof. unfold wsClose. repeat keeps_step; apply setReadyState_field. Qed.
End EnvironmentKeepsObject.

Ltac keeps :=
  repeat first
    [ keeps_step
    | apply setReadyState_field | apply newPromise_field | apply newWebSocket_field
    | apply resolve_field | apply reject_field | apply attachCatch_field
    | apply armTimer_field | apply clearInterval_field | apply wsClose_field ].

(** ** The sequence number *)

Lemma callReady_sequence fn data : Keeps (field sequence) (callReady fn data).
Proof. induction fn as [given|p fn IH]; simpl; keeps. exact IH. Qed.

Lemma dispatchPayload_sequence payload : Keeps (field sequence) (dispatchPayload payload).
Proof.
  unfold dispatchPayload, startHeartbeat, sendIdentify, reconnect, setTimeout,
    setInterval, wsSend.
  keeps; apply callReady_sequence.
Qed.

(** The sequence number after [handlePayload], whatever the opcode and
    however the switch completes. *)
Lemma handlePayload_sequence (w : World) (payload : JVal) :
  sequence (gw (after (handlePayload payload w))) =
    match getProp payload "s" with
    | Some s => if truthy s then s else sequence (gw w)
    | None => sequence (gw w)
    end.
Proof.
  unfold handlePayload, updateSequence, prop.
  destruct (getProp payload "s") as [s|]; [|reflexivity].
  pose proof (dispatchPayload_sequence payload) as Hd.
  unfold Keeps, field in Hd. js_unfold.
  destruct (truthy s); simpl.
  - specialize (Hd (set_gw (set_sequence s (gw w)) w)).
    destruct (dispatchPayload payload _) as [[r w2] e2]; simpl in *. exact Hd.
  - specialize (Hd w).
    destruct (dispatchPayload payload w) as [[r w2] e2]; simpl in *. exact Hd.
Qed.

(** The same through the message handler, which also swallows what
    [handlePayload] throws. *)
Lemma wsOnMessage_parsed_sequence (w : World) (payload : JVal) :
  sequence (gw (after (wsOnMessage (Parsed payload) w))) =
    sequence (gw (after (handlePayload payload w))).
Proof.
  unfold wsOnMessage, tryCatch, emit, after.
  destruct (handlePayload payload w) as [[[a|] w1] e1]; reflexivity.
Qed.

(** C10. [handlePayload] takes the tracked sequence number from the [s] of
    every payload whose [s] is truthy, whatever the opcode (and whatever the
    switch does afterwards, also when it throws); a payload whose [s] is 0,
    null or absent leaves it as it was, and so does a payload that is not
    an object ([null]), on which [payload.s] throws. The message handler,
    which calls [handlePayload] on every parsed frame, leaves the same
    sequence number behind. *)
Theorem handlePayload_updates_sequence (w : World) (payload : JVal) :
  let tracked := match getProp payload "s" with
                 | Some s => if truthy s then s else sequence (gw w)
                 | None => sequence (gw w)
                 end in
  sequence (gw (after (handlePayload payload w))) = tracked /\
  sequence (gw (after (wsOnMessage (Parsed payload) w))) = tracked.
Proof.
  intros tracked. subst tracked. rewrite wsOnMessage_parsed_sequence.
  split; apply handlePayload_sequence.
Qed.

Example heartbeat_ack_overwrites_sequence :
  sequence (gw (after (handlePayload (JObj [("op", JNum 11); ("s", JNum 7)])
                                     (newWorld allCallbacks)))) = JNum 7.
Proof. reflexivity. Qed.

Example zero_s_keeps_sequence :
  sequence (gw (after (handlePayload (JObj [("op", JNum 0); ("s", JNum 0)])
                 (after (handlePayload (JObj [("op", JNum 0); ("s", JNum 4)])
                                       (newWorld allCallbacks)))))) = JNum 4.
Proof. reflexivity. Qed.

Lemma wsOnMessage_sequence (w : World) (payload : JVal) (s : Z) :
  getProp payload "s" = Some (JNum s) ->
  sequence (gw (after (wsOnMessage (Parsed payload) w))) =
    if s =? 0 then sequence (gw w) else JNum s.
Proof.
  intros Hs. rewrite wsOnMessage_parsed_sequence, handlePayload_sequence, Hs.
  simpl. destruct (s =? 0); reflexivity.
Qed.

Lemma receive_increasing (cur : Z) (ss : list Z) :
  forall (ps : list JVal) (w : World),
    Forall2 isDispatch ps ss ->
    increasing (cur :: ss) ->
    0 <= cur ->
    sequence (gw w) = JNum cur ->
    sequence (gw (receive (map Parsed ps) w)) = JNum (maxSeen cur ss).
Proof.
  revert cur. induction ss as [|s ss IH]; intros cur ps w Hps Hinc Hcur Hw.
  - inversion Hps; subst. exact Hw.
  - inversion Hps as [|p s' ps' ss' [_ Hs] Hrest]; subst.
    destruct Hinc as [Hlt Hinc]. simpl.
    unfold maxSeen. simpl. replace (Z.max cur s) with s by lia.
    apply IH; [exact Hrest | exact Hinc | lia |].
    rewrite (wsOnMessage_sequence w p s Hs).
    destruct (Z.eqb_spec s 0); [lia | reflexivity].
Qed.

Lemma receive_cons (data : Frame) (frames : list Frame) (w : World) :
  receive (data :: frames) w = receive frames (after (wsOnMessage data w)).
Proof. reflexivity. Qed.

Lemma maxSeen_ge (ss : list Z) : forall cur, cur <= maxSeen cur ss.
Proof.
  unfold maxSeen. induction ss as [|s ss IH]; intros cur; simpl; [lia|].
  specialize (IH (Z.max cur s)). lia.
Qed.

(** C8, as the claim has it, fails for the sequences it names, those whose
    first [s] is 0: a session has tracked the sequence number 5, the
    transport drops and the gateway reconnects (nothing resets the tracked
    number), and the READY of the new session comes with [s = 0]. The
    tracked number is still the stale 5, not the largest [s] seen, 0. *)
Lemma zero_first_keeps_stale_number :
  let w := fst (run (sessionEstablished ++
                     [ EMessage 0 (Parsed (JObj [("op", JNum 0); ("t", JStr "MESSAGE_CREATE");
                                                 ("s", JNum 5); ("d", JObj [("id", JStr "m")])]));
                       EClose 0 1006 ""; ETimer 1; EOpen 1; EMessage 1 (helloFrame 41250) ])
                    (newWorld allCallbacks)) in
  let ready := JObj [("op", JNum 0); ("t", JStr "READY"); ("s", JNum 0);
                     ("d", JObj [("session_id", JStr "s1")])] in
  isDispatch ready 0 /\
  increasing [0] /\
  ws (gw w) = Some 1%nat /\
  sequence (gw (receive [Parsed ready] w)) = JNum 5 /\
  JNum 5 <> JNum (maxSeen 0 []).
Proof.
  vm_compute. repeat split; try reflexivity; discriminate.
Qed.

(** C8, amended. Dispatch frames whose [s] values are increasing sequence
    numbers (non-negative; the first may be 0), handled in arrival order:
    the tracked sequence number is then the largest [s] seen, unless that
    is 0 (a single frame with [s = 0]): a frame with [s = 0] leaves the
    tracked number as it was, which is 0 only in a gateway object that has
    not tracked a number yet. *)
Theorem dispatch_sequence_is_max (w : World) (s : Z) (ss : list Z) (ps : list JVal) :
  Forall2 isDispatch ps (s :: ss) ->
  increasing (s :: ss) ->
  0 <= s ->
  sequence (gw (receive (map Parsed ps) w)) =
    if maxSeen s ss =? 0 then sequence (gw w) else JNum (maxSeen s ss).
Proof.
  intros Hps Hinc Hs.
  inversion Hps as [|p s' ps' ss' [_ Hp] Hrest]; subst.
  cbn [map]. rewrite receive_cons.
  pose proof (wsOnMessage_sequence w p s Hp) as Hfirst.
  destruct (Z.eqb_spec s 0) as [->|Hne].
  - destruct ss as [|s2 ss].
    + inversion Hrest; subst. exact Hfirst.
    + inversion Hrest as [|p2 s2' ps2 ss2 [_ Hp2] Hrest2]; subst.
      destruct Hinc as [Hlt Hinc]. cbn [map]. rewrite receive_cons.
      pose proof (maxSeen_ge ss s2) as Hge.
      assert (Hmax : maxSeen 0 (s2 :: ss) = maxSeen s2 ss)
        by (unfold maxSeen; simpl; replace (Z.max 0 s2) with s2 by lia; reflexivity).
      rewrite Hmax. destruct (Z.eqb_spec (maxSeen s2 ss) 0) as [H0|_]; [lia|].
      apply receive_increasing; [exact Hrest2 | exact Hinc | lia |].
      rewrite (wsOnMessage_sequence _ p2 s2 Hp2).
      destruct (Z.eqb_spec s2 0); [lia | reflexivity].
  - pose proof (maxSeen_ge ss s) as Hge.
    destruct (Z.eqb_spec (maxSeen s ss) 0) as [H0|_]; [lia|].
    apply receive_increasing; [exact Hrest | exact Hinc | exact Hs | exact Hfirst].
Qed.

(** A READY with s = 0, then a message with s = 2, then an event with s = 5,
    on a new gateway. *)
Lemma dispatch_sequence_is_max_witness :
  sequence (gw (receive (map Parsed
      [ JObj [("op", JNum 0); ("t", JStr "READY"); ("s", JNum 0);
              ("d", JObj [("session_id", JStr "abc")])];
        JObj [("op", JNum 0); ("t", JStr "MESSAGE_CREATE"); ("s", JNum 2);
              ("d", JObj [("id", JStr "m1")])];
        JObj [("op", JNum 0); ("t", JStr "TYPING_START"); ("s", JNum 5); ("d", JNull)] ])
      (newWorld allCallbacks))) = JNum (maxSeen 0 [2; 5]).
Proof.
  apply (dispatch_sequence_is_max (newWorld allCallbacks) 0 [2; 5]).
  - repeat constructor.
  - simpl. lia.
  - lia.
Defined.

(** ** The reconnect policy *)

(** What [reconnect] does, in full. *)
Lemma reconnect_spec (w : World) :
  let k := reconnectAttempts (gw w) + 1 in
  let delay := reconnectDelay (gw w) * 2 ^ (k - 1) in
  reconnect w =
    (Normal tt,
     mkWorld (set_reconnectAttempts k (gw w)) (socks w)
             (<[nextTimer w := mkTimer false (JNum delay) DoConnect]> (timers w))
             (S (nextTimer w)) (promises w) (wsRejectsArguments w),
     [Console false (LReconnecting delay k);
      SetTimeout (nextTimer w) (JNum delay) DoConnect]).
Proof. reflexivity. Qed.

(** The close handler while attempts remain: the Disconnect callback, the
    heartbeat timer cleared, and one retry scheduled by [reconnect]. *)
Lemma wsOnClose_retries (w : World) (code : Z) (reason : string) :
  reconnectAttempts (gw w) < maxReconnectAttempts (gw w) ->
  let k := reconnectAttempts (gw w) + 1 in
  let delay := reconnectDelay (gw w) * 2 ^ (k - 1) in
  let armed := match heartbeatInterval (gw w) with
               | Some id => delete id (timers w)
               | None => timers w
               end in
  wsOnClose code reason w =
    (Normal tt,
     mkWorld (set_reconnectAttempts k (set_heartbeatInterval None (gw w))) (socks w)
             (<[nextTimer w := mkTimer false (JNum delay) DoConnect]> armed)
             (S (nextTimer w)) (promises w) (wsRejectsArguments w),
     [Console false (LClosed code reason)]
       ++ (if onDisconnect (gw w) then [CallOnDisconnect] else [])
       ++ match heartbeatInterval (gw w) with
          | Some id => [ClearInterval id]
          | None => []
          end
       ++ [Console false (LReconnecting delay k);
           SetTimeout (nextTimer w) (JNum delay) DoConnect]).
Proof.
  intros Hlt. apply Z.ltb_lt in Hlt.
  unfold wsOnClose, handleDisconnect. js_unfold.
  destruct w as [g so ti nt pr rj]. destruct g; simpl in *.
  destruct onDisconnect0, heartbeatInterval0; simpl; rewrite Hlt; reflexivity.
Qed.

(** The close handler once the attempts are used up: nothing is scheduled
    and the only report is a console line. *)
Lemma wsOnClose_exhausted (w : World) (code : Z) (reason : string) :
  maxReconnectAttempts (gw w) <= reconnectAttempts (gw w) ->
  wsOnClose code reason w =
    (Normal tt,
     mkWorld (set_heartbeatInterval None (gw w)) (socks w)
             (match heartbeatInterval (gw w) with
              | Some id => delete id (timers w)
              | None => timers w
              end)
             (nextTimer w) (promises w) (wsRejectsArguments w),
     [Console false (LClosed code reason)]
       ++ (if onDisconnect (gw w) then [CallOnDisconnect] else [])
       ++ match heartbeatInterval (gw w) with
          | Some id => [ClearInterval id]
          | None => []
          end
       ++ [Console true LMaxReconnect]).
Proof.
  intros Hge. apply Z.ltb_ge in Hge.
  unfold wsOnClose, handleDisconnect. js_unfold.
  destruct w as [g so ti nt pr rj]. destruct g; simpl in *.
  destruct onDisconnect0, heartbeatInterval0; simpl; rewrite Hge; reflexivity.
Qed.

Lemma Keeps_bind_ret {X A B} (f : World -> X) (a : A) (k : A -> Js B) :
  Keeps f (k a) -> Keeps f (bind (ret a) k).
Proof.
  intros Hk w. specialize (Hk w). unfold bind, ret, after in *.
  destruct (k a w) as [[r w2] e2]. exact Hk.
Qed.

Lemma callReady_attempts fn data : Keeps (field reconnectAttempts) (callReady fn data).
Proof. induction fn as [given|p fn IH]; simpl; keeps. exact IH. Qed.

(** No branch of the Dispatch case touches the attempt counter. *)
Lemma dispatch_keeps_attempts (payload : JVal) :
  getProp payload "op" = Some (JNum 0) ->
  Keeps (field reconnectAttempts) (handlePayload payload).
Proof.
  intros Hop. unfold handlePayload, updateSequence, dispatchPayload.
  apply Keeps_bind; [keeps | intros _].
  apply Keeps_bind; [keeps | intros eventType].
  apply Keeps_bind; [keeps | intros eventData].
  unfold prop at 1. rewrite Hop. apply Keeps_bind_ret.
  cbn [opcodeCase Z.eqb]. keeps. apply callReady_attempts.
Qed.

Lemma wsOnMessage_dispatch_keeps_attempts (payload : JVal) (w : World) :
  getProp payload "op" = Some (JNum 0) ->
  reconnectAttempts (gw (after (wsOnMessage (Parsed payload) w))) =
    reconnectAttempts (gw w).
Proof.
  intros Hop. pose proof (dispatch_keeps_attempts payload Hop) as H.
  assert (Hk : Keeps (field reconnectAttempts) (wsOnMessage (Parsed payload))).
  { unfold wsOnMessage. apply Keeps_tryCatch; [exact H | apply Keeps_emit]. }
  exact (Hk w).
Qed.

Lemma Grows_Keeps {A} (m : Js A) : Keeps (field reconnectAttempts) m -> Grows m.
Proof. intros H w. specialize (H w). unfold field in H. rewrite H. lia. Qed.

Lemma Grows_bind {A B} (m : Js A) (k : A -> Js B) :
  Grows m -> (forall a, Grows (k a)) -> Grows (bind m k).
Proof.
  intros Hm Hk w. specialize (Hm w). unfold bind, after in *.
  destruct (m w) as [[[a|] w1] e1]; simpl in *; [|exact Hm].
  specialize (Hk a w1). unfold after in Hk.
  destruct (k a w1) as [[r w2] e2]; simpl in *. lia.
Qed.

Lemma Grows_tryCatch (m h : Js unit) : Grows m -> Grows h -> Grows (tryCatch m h).
Proof.
  intros Hm Hh w. specialize (Hm w). unfold tryCatch, after in *.
  destruct (m w) as [[[a|] w1] e1]; simpl in *; [exact Hm|].
  specialize (Hh w1). unfold after in Hh.
  destruct (h w1) as [[r w2] e2]; simpl in *. lia.
Qed.

Lemma reconnect_grows : Grows reconnect.
Proof. intros w. rewrite reconnect_spec. unfold after. simpl. lia. Qed.

Ltac grows :=
  repeat first
    [ apply reconnect_grows
    | apply Grows_bind; [| intros ?]
    | apply Grows_tryCatch
    | match goal with
      | |- Grows (match ?x with _ => _ end) => destruct x
      | |- Grows (if ?x then _ else _) => destruct x
      | |- Grows (when ?x _) => destruct x; unfold when
      end
    | (apply Grows_Keeps; solve [keeps | apply callReady_attempts]) ].

Lemma connect_grows : Grows connect.
Proof. unfold connect. grows. Qed.

Lemma handlePayload_grows payload : Grows (handlePayload payload).
Proof.
  unfold handlePayload, updateSequence, dispatchPayload, startHeartbeat, sendIdentify,
    setTimeout, setInterval, wsSend.
  grows.
Qed.

Lemma attempts_never_decrease (e : Event) : Grows (step e).
Proof.
  destruct e; unfold step, wsOnOpen, wsOnMessage, wsOnError, wsOnClose, handleDisconnect,
    disconnect, fireTimer, timerCallback, heartbeatTick, wsSend.
  all: grows.
  all: try apply connect_grows; try apply handlePayload_grows.
Qed.

(** C1, as the claim has it, fails: after three reconnects the READY of the
    third is handled (the Ready callback runs, the connect promise of that
    attempt is fulfilled), the counter is still 3, and the retry after the
    next drop is attempt 4 with delay 8000, not attempt 1 with
    1000 * 2^0. *)
Lemma ready_does_not_reset_attempts :
  let w := fst (run thirdRetryAtHello (newWorld allCallbacks)) in
  let ready := step (EMessage 3 (readyFrame 1 "s1")) w in
  In (CallOnReady (JObj [("session_id", JStr "s1")])) (effects ready) /\
  In (Fulfilled 3) (effects ready) /\
  reconnectAttempts (gw (after ready)) = 3 /\
  effects (step (EClose 3 1006 "") (after ready)) =
    [ Console false (LClosed 1006 ""); CallOnDisconnect; ClearInterval 4;
      Console false (LReconnecting 8000 4); SetTimeout 5 (JNum 8000) DoConnect ] /\
  8000 <> reconnectDelay (gw (after ready)) * 2 ^ 0.
Proof.
  vm_compute. repeat split; try discriminate; auto 10.
Qed.

(** C1, amended. Handling a READY dispatch leaves the attempt counter as it
    is (nothing in the class resets it); so when the transport closes
    afterwards with attempts left, the retry is attempt [n + 1] with delay
    [reconnectDelay * 2^n], where [n] reconnects were triggered before the
    READY. *)
Theorem ready_keeps_attempt_counter
    (w : World) (payload : JVal) (code : Z) (reason : string) :
  isReady payload ->
  let n := reconnectAttempts (gw w) in
  let w1 := after (wsOnMessage (Parsed payload) w) in
  reconnectAttempts (gw w1) = n /\
  (n < maxReconnectAttempts (gw w1) ->
   reconnectAttempts (gw (after (wsOnClose code reason w1))) = n + 1 /\
   In (SetTimeout (nextTimer w1) (JNum (reconnectDelay (gw w1) * 2 ^ n)) DoConnect)
      (effects (wsOnClose code reason w1))).
Proof.
  intros [Hop _] n w1.
  assert (Hn : reconnectAttempts (gw w1) = n)
    by (apply wsOnMessage_dispatch_keeps_attempts; exact Hop).
  split; [exact Hn|]. intros Hlt.
  rewrite wsOnClose_retries by lia.
  unfold after, effects. simpl. rewrite Hn. split; [reflexivity|].
  replace (n + 1 - 1) with n by lia.
  rewrite !in_app_iff. right. right. right. simpl. auto.
Qed.

(** The READY of the third reconnect, and the close after it. *)
Lemma ready_keeps_attempt_counter_witness :
  let w := fst (run thirdRetryAtHello (newWorld allCallbacks)) in
  let payload := JObj [("op", JNum 0); ("t", JStr "READY"); ("s", JNum 1);
                       ("d", JObj [("session_id", JStr "s1")])] in
  let w1 := after (wsOnMessage (Parsed payload) w) in
  isReady payload /\
  reconnectAttempts (gw w1) = 3 /\
  In (SetTimeout 5 (JNum (1000 * 2 ^ 3)) DoConnect) (effects (wsOnClose 1006 "" w1)).
Proof.
  intros w payload w1.
  assert (Hr : isReady payload) by (split; reflexivity).
  split; [exact Hr|].
  destruct (ready_keeps_attempt_counter w payload 1006 "" Hr) as [Hn Hclose].
  split; [exact Hn|].
  apply Hclose. vm_compute. reflexivity.
Defined.

(** C2, as the claim has it, fails: with the counter at the maximum, a
    Reconnect request (opcode 7) on the live transport still goes through
    [reconnect]: the counter becomes 6, above the maximum 5, a timer is
    armed, and when it comes due [connect] dials again. And the close that
    finds the attempts used up tells the owner what the first close of the
    run told it, the Disconnect callback; the exhaustion itself is a console
    line. *)
Lemma opcode7_reconnects_beyond_maximum :
  let w := fst (run fifthRetryConnected (newWorld allCallbacks)) in
  let request := step (EMessage 5 (opFrame 7)) w in
  reconnectAttempts (gw w) = maxReconnectAttempts (gw w) /\
  maxReconnectAttempts (gw (after request)) < reconnectAttempts (gw (after request)) /\
  effects request =
    [ Console false (LEvent JUndefined (JNum 7)); Console false LReconnectRequested;
      Console false (LReconnecting 32000 6); SetTimeout 7 (JNum 32000) DoConnect ] /\
  effects (step (ETimer 7) (after request)) =
    [ Console false LConnecting; Dial 6 gatewayUrl "Bot tok" ] /\
  effects (step (EClose 5 1006 "") w) =
    [ Console false (LClosed 1006 ""); CallOnDisconnect; ClearInterval 6;
      Console true LMaxReconnect ] /\
  thenStep sessionEstablished (EClose 0 1006 "") (newWorld allCallbacks) =
    [ Console false (LClosed 1006 ""); CallOnDisconnect; ClearInterval 0;
      Console false (LReconnecting 1000 1); SetTimeout 1 (JNum 1000) DoConnect ].
Proof.
  vm_compute. repeat split; reflexivity.
Qed.

(** The 'close' event of a socket of this gateway: the socket is closed,
    then the close handler runs. *)
Lemma step_close (w : World) (sock : nat) (s : Socket) (code : Z) (reason : string) :
  socks w !! sock = Some s ->
  step (EClose sock code reason) w =
    wsOnClose code reason
      (set_socks (<[sock := mkSocket CLOSED (connectPromise s)]> (socks w)) w).
Proof.
  intros Hs. unfold step, bind, world, setReadyState, update. rewrite Hs.
  cbn beta iota. rewrite Hs.
  destruct (wsOnClose code reason _) as [[r w2] e2]. reflexivity.
Qed.

(** C2, amended. Once the attempt counter has reached the configured
    maximum, a transport close issues no further [connect]: the close
    handler runs the Disconnect callback as on every close, clears the
    heartbeat timer, and prints one console error; it arms no timer, opens
    no transport, runs no Error callback and leaves the counter as it is. *)
Theorem close_after_exhaustion_only_logs
    (w : World) (sock : nat) (code : Z) (reason : string) :
  maxReconnectAttempts (gw w) <= reconnectAttempts (gw w) ->
  is_Some (socks w !! sock) ->
  let r := step (EClose sock code reason) w in
  effects r =
    [Console false (LClosed code reason)]
      ++ (if onDisconnect (gw w) then [CallOnDisconnect] else [])
      ++ match heartbeatInterval (gw w) with
         | Some id => [ClearInterval id]
         | None => []
         end
      ++ [Console true LMaxReconnect] /\
  completion r = Normal tt /\
  reconnectAttempts (gw (after r)) = reconnectAttempts (gw w) /\
  nextTimer (after r) = nextTimer w /\
  (forall id t, timers (after r) !! id = Some t -> timers w !! id = Some t) /\
  length (socks (after r)) = length (socks w).
Proof.
  intros Hge [s Hs] r. subst r.
  rewrite (step_close w sock s code reason Hs).
  rewrite wsOnClose_exhausted by exact Hge.
  unfold effects, completion, after. cbn [fst snd app gw socks timers nextTimer set_socks
    set_heartbeatInterval reconnectAttempts onDisconnect heartbeatInterval].
  repeat split.
  - intros id t. destruct (heartbeatInterval (gw w)) as [h|]; [|tauto].
    intros Hl. apply lookup_delete_Some in Hl. tauto.
  - apply length_insert.
Qed.

(** The close of the session that the fifth reconnect established. *)
Lemma close_after_exhaustion_only_logs_witness :
  let w := fst (run fifthRetryConnected (newWorld allCallbacks)) in
  maxReconnectAttempts (gw w) <= reconnectAttempts (gw w) /\
  effects (step (EClose 5 1006 "") w) =
    [ Console false (LClosed 1006 ""); CallOnDisconnect; ClearInterval 6;
      Console true LMaxReconnect ].
Proof.
  intros w.
  assert (Hge : maxReconnectAttempts (gw w) <= reconnectAttempts (gw w))
    by (vm_compute; discriminate).
  assert (Hs : is_Some (socks w !! 5%nat)) by (vm_compute; eauto).
  split; [exact Hge|].
  exact (proj1 (close_after_exhaustion_only_logs w 5%nat 1006 "" Hge Hs)).
Defined.

(** ** Reconnect attempts *)

(** A gateway that holds a socket, or is connected, is in an environment
    whose constructor does not throw. *)
Lemma constructorThrows_socket (w : World) (sock : nat) :
  is_Some (socks w !! sock) -> constructorThrows w = false.
Proof.
  intros [s Hs]. unfold constructorThrows.
  destruct (socks w); [rewrite lookup_nil in Hs; discriminate | reflexivity].
Qed.

Lemma constructorThrows_connected (w : World) :
  isConnected w = true -> constructorThrows w = false.
Proof.
  unfold isConnected, wsIsOpen, readyStateOf. intros Hc.
  destruct (ws (gw w)) as [sock|]; [|discriminate].
  destruct (socks w !! sock) as [s|] eqn:Hs; [|discriminate].
  apply (constructorThrows_socket w sock). eauto.
Qed.

Lemma insert_last {A} (l : list A) (x y : A) :
  <[length l := y]> (l ++ [x]) = l ++ [y].
Proof.
  rewrite insert_app_r_alt by reflexivity.
  rewrite Nat.sub_diag. reflexivity.
Qed.

(** What [connect] does, in full: unless the constructor throws, it opens a
    new transport, whatever the state of the current one. *)
Lemma connect_spec (w : World) :
  constructorThrows w = false ->
  let p := length (promises w) in
  let sock := length (socks w) in
  connect w =
    (Normal p,
     mkWorld (set_onReady (Wrapped p (onReady (gw w))) (set_ws (Some sock) (gw w)))
             (socks w ++ [mkSocket CONNECTING p]) (timers w) (nextTimer w)
             (promises w ++ [mkPromise None false]) (wsRejectsArguments w),
     [Console false LConnecting; Dial sock gatewayUrl ("Bot " +:+ token (gw w))]).
Proof.
  intros Hc. unfold connect, newWebSocket, newPromise, bind, tryCatch, emit, this, assign, ret.
  cbn beta iota. change (constructorThrows (set_promises _ w)) with (constructorThrows w).
  rewrite Hc. reflexivity.
Qed.

(** When the constructor throws, the catch of the executor rejects the new
    promise; no socket is made, the handle and the Ready wrapper stay. *)
Lemma connect_throws_spec (w : World) :
  constructorThrows w = true ->
  let p := length (promises w) in
  connect w =
    (Normal p, set_promises (promises w ++ [mkPromise (Some false) false]) w,
     [Console false LConnecting; Rejected p]).
Proof.
  intros Hc. unfold connect, newWebSocket, newPromise, bind, tryCatch, emit, this, assign, ret.
  cbn beta iota. change (constructorThrows (set_promises _ w)) with (constructorThrows w).
  rewrite Hc. cbn beta iota. unfold reject. cbn [promises set_promises].
  rewrite list_lookup_middle by reflexivity.
  rewrite insert_last. reflexivity.
Qed.

Lemma fireTimer_connect (w : World) (id : nat) (delay : JVal) :
  timers w !! id = Some (mkTimer false delay DoConnect) ->
  constructorThrows w = false ->
  fireTimer id w =
    (Normal tt, afterReconnectTimer id w,
     [Console false LConnecting; Dial (length (socks w)) gatewayUrl ("Bot " +:+ token (gw w))]).
Proof.
  intros Ht Hc. unfold fireTimer, bind at 1, world. rewrite Ht.
  cbn [repeating action negb when timerCallback].
  unfold bind at 1, update. cbn beta iota.
  unfold bind. rewrite connect_spec by exact Hc. cbn beta iota zeta.
  unfold attachCatch. cbn [promises].
  rewrite list_lookup_middle by reflexivity.
  unfold afterReconnectTimer, set_promises, set_timers.
  cbn [gw socks timers nextTimer promises app wsRejectsArguments].
  rewrite insert_last.
  reflexivity.
Qed.

(** The timer of [reconnect] comes due where the constructor throws: the
    promise is rejected inside [connect], and the [.catch] that [reconnect]
    attaches to it prints the failure. *)
Lemma fireTimer_connect_throws (w : World) (id : nat) (delay : JVal) :
  timers w !! id = Some (mkTimer false delay DoConnect) ->
  constructorThrows w = true ->
  fireTimer id w =
    (Normal tt,
     set_promises (promises w ++ [mkPromise (Some false) true])
                  (set_timers (delete id (timers w)) w),
     [Console false LConnecting; Rejected (length (promises w));
      Console true LReconnectFailed]).
Proof.
  intros Ht Hc. unfold fireTimer, bind at 1, world. rewrite Ht.
  cbn [repeating action negb when timerCallback].
  unfold bind at 1, update. cbn beta iota.
  unfold bind. rewrite connect_throws_spec by exact Hc. cbn beta iota zeta.
  unfold attachCatch. cbn [promises set_promises set_timers].
  rewrite list_lookup_middle by reflexivity.
  unfold set_promises, set_timers.
  cbn [gw socks timers nextTimer promises app wsRejectsArguments].
  rewrite insert_last.
  reflexivity.
Qed.

(** A transport error on the socket of a reconnect attempt: the rejection is
    consumed by the [.catch] of [reconnect], which prints it. *)
Lemma reconnect_attempt_error (w : World) (id : nat) :
  let sock := length (socks w) in
  step (EError sock) (afterReconnectTimer id w) =
    (Normal tt,
     set_promises (promises w ++ [mkPromise (Some false) true]) (afterReconnectTimer id w),
     [Console true LWsError]
       ++ (if onError (gw w) then [CallOnError] else [])
       ++ [Console true LReconnectFailed]).
Proof.
  intros sock. unfold step, bind at 1, world.
  unfold afterReconnectTimer at 1. cbn [socks].
  rewrite list_lookup_middle by reflexivity. cbn [connectPromise].
  unfold wsOnError, bind, emit, this, when, reject.
  unfold afterReconnectTimer at 1 2 3. cbn [gw promises onError set_onReady set_ws].
  destruct (onError (gw w)); unfold ret; cbn beta iota; cbn [promises];
    rewrite list_lookup_middle by reflexivity; rewrite insert_last; reflexivity.
Qed.

(** No handler lets an exception out: not an API call, not a WebSocket
    event, not a timer callback. *)
Lemma resolve_returns p : Returns (resolve p).
Proof. intros w. unfold resolve. destruct (promises w !! p) as [[[b|] c]|]; eexists; reflexivity. Qed.

Lemma reject_returns p : Returns (reject p).
Proof. intros w. unfold reject. destruct (promises w !! p) as [[[b|] c]|]; eexists; reflexivity. Qed.

Lemma attachCatch_returns p : Returns (attachCatch p).
Proof. intros w. unfold attachCatch. destruct (promises w !! p) as [[st c]|]; eexists; reflexivity. Qed.

Lemma callReady_returns fn data : Returns (callReady fn data).
Proof.
  induction fn as [given|p fn IH]; simpl.
  - destruct given; intros w; eexists; reflexivity.
  - repeat returns_step. exact IH. apply resolve_returns.
Qed.

Lemma connect_returns : Returns connect.
Proof. unfold connect. repeat first [apply reject_returns | returns_step]. Qed.

Lemma reconnect_returns : Returns reconnect.
Proof. intros w. rewrite reconnect_spec. eexists. reflexivity. Qed.

Lemma setReadyState_returns sock st : Returns (setReadyState sock st).
Proof. intros w. eexists. reflexivity. Qed.

Lemma handleDisconnect_returns : Returns handleDisconnect.
Proof.
  unfold handleDisconnect.
  repeat first [apply reconnect_returns | returns_step].
Qed.

Lemma disconnect_returns : Returns disconnect.
Proof.
  unfold disconnect, wsClose.
  repeat first [apply setReadyState_returns | returns_step].
Qed.

Lemma fireTimer_returns id : Returns (fireTimer id).
Proof.
  unfold fireTimer, timerCallback, heartbeatTick, wsSend.
  repeat first [apply reconnect_returns | apply connect_returns | apply attachCatch_returns
               | returns_step].
Qed.

Lemma step_returns (e : Event) : Returns (step e).
Proof.
  destruct e; unfold step.
  - repeat first [apply connect_returns | returns_step].
  - apply disconnect_returns.
  - unfold wsOnOpen. repeat first [apply setReadyState_returns | returns_step].
  - unfold wsOnMessage. repeat returns_step.
  - unfold wsOnError. repeat first [apply reject_returns | returns_step].
  - unfold wsOnClose.
    repeat first [apply setReadyState_returns | apply handleDisconnect_returns | returns_step].
  - apply fireTimer_returns.
Qed.

(** C3, as the claim has it, fails: the first connection attempt fails, the
    first retry (delay 1000) establishes a session, and the first retry
    after that success is scheduled with delay 2000, not 1000 * 2^(1-1). *)
Lemma first_retry_after_success_is_not_base_delay :
  retriesSinceSuccess 0
    (snd (run [ ECallConnect; EError 0; EClose 0 1006 "";
                ETimer 0; EOpen 1; EMessage 1 (helloFrame 41250);
                EMessage 1 (readyFrame 1 "s1");
                EClose 1 1006 "" ]
              (newWorld allCallbacks)))
    = [ (1, JNum 1000); (1, JNum 2000) ] /\
  JNum 2000 <> JNum (reconnectDelay (newGateway allCallbacks) * 2 ^ (1 - 1)).
Proof.
  vm_compute. split; [reflexivity | discriminate].
Qed.

(** C3, amended. For the reconnect that makes the attempt counter [k]
    (the counter counts every reconnect since the gateway object was made;
    it is not restarted by a successful connection), as long as the
    arithmetic is exact in doubles (with the delay 1000 of the class: up to
    the 1015th reconnect), the delay before [connect] is invoked again is
    exactly [reconnectDelay * 2^(k-1)], with nothing added. When the timer
    comes due [connect] dials, and the timer callback does not throw: where
    the WebSocket constructor throws, [connect] rejects its promise and the
    [.catch] of [reconnect] prints the failure. A transport error of that
    attempt is handled by the same [.catch]: the error handler does not
    throw either. *)
Theorem reconnect_delay_and_failure (w : World) :
  backoffExact (gw w) = true ->
  let k := reconnectAttempts (gw w) + 1 in
  let delay := reconnectDelay (gw w) * 2 ^ (k - 1) in
  let id := nextTimer w in
  let sock := length (socks w) in
  let p := length (promises w) in
  let scheduled := reconnect w in
  let fired := fireTimer id (after scheduled) in
  let failed := step (EError sock) (after fired) in
  reconnectAttempts (gw (after scheduled)) = k /\
  effects scheduled =
    [ Console false (LReconnecting delay k); SetTimeout id (JNum delay) DoConnect ] /\
  timers (after scheduled) !! id = Some (mkTimer false (JNum delay) DoConnect) /\
  completion fired = Normal tt /\
  effects fired =
    Console false LConnecting ::
    (if constructorThrows w
     then [ Rejected p; Console true LReconnectFailed ]
     else [ Dial sock gatewayUrl ("Bot " +:+ token (gw w)) ]) /\
  completion failed = Normal tt /\
  (constructorThrows w = false ->
   effects failed =
     [Console true LWsError]
       ++ (if onError (gw w) then [CallOnError] else [])
       ++ [Console true LReconnectFailed]).
Proof.
  intros _ k delay id sock p scheduled fired failed.
  assert (Ht : timers (after scheduled) !! id = Some (mkTimer false (JNum delay) DoConnect)).
  { subst scheduled. rewrite reconnect_spec. unfold after. cbn [fst snd timers].
    apply lookup_insert_eq. }
  assert (Hc1 : constructorThrows (after scheduled) = constructorThrows w)
    by (subst scheduled; rewrite reconnect_spec; reflexivity).
  split; [subst scheduled; rewrite reconnect_spec; reflexivity|].
  split; [subst scheduled; rewrite reconnect_spec; reflexivity|].
  split; [exact Ht|].
  assert (Hfailed : completion failed = Normal tt)
    by (destruct (step_returns (EError sock) (after fired)) as [[] H]; exact H).
  destruct (constructorThrows w) eqn:Hc.
  - assert (Hf : fired = fireTimer id (after scheduled)) by reflexivity.
    rewrite (fireTimer_connect_throws _ _ _ Ht Hc1) in Hf.
    rewrite Hf. unfold completion, effects. cbn [fst snd].
    subst scheduled. rewrite reconnect_spec. unfold after. cbn [fst snd promises].
    repeat split; [exact Hfailed | discriminate].
  - assert (Hf : fired = (Normal tt, afterReconnectTimer id (after scheduled),
                          [ Console false LConnecting;
                            Dial sock gatewayUrl ("Bot " +:+ token (gw w)) ])).
    { subst fired. rewrite (fireTimer_connect _ _ _ Ht Hc1).
      subst scheduled. rewrite reconnect_spec. reflexivity. }
    assert (He : failed =
      (Normal tt,
       set_promises (promises w ++ [mkPromise (Some false) true])
                    (afterReconnectTimer id (after scheduled)),
       [Console true LWsError] ++ (if onError (gw w) then [CallOnError] else [])
         ++ [Console true LReconnectFailed])).
    { subst failed. rewrite Hf. unfold after at 1. cbn [fst snd].
      subst scheduled sock. rewrite reconnect_spec. unfold after. cbn [fst snd].
      apply (reconnect_attempt_error
               (mkWorld (set_reconnectAttempts k (gw w)) (socks w)
                        (<[id := mkTimer false (JNum delay) DoConnect]> (timers w))
                        (S id) (promises w) (wsRejectsArguments w)) id). }
    rewrite Hf, He. repeat split.
Qed.

(** The first reconnect of a new gateway, where the constructor does not
    throw, and where it does. *)
Lemma reconnect_delay_and_failure_witness :
  backoffExact (gw (newWorld allCallbacks)) = true /\
  effects (reconnect (newWorld allCallbacks)) =
    [ Console false (LReconnecting 1000 1); SetTimeout 0 (JNum 1000) DoConnect ] /\
  effects (fireTimer 0 (after (reconnect (newWorldIn true allCallbacks)))) =
    [ Console false LConnecting; Rejected 0; Console true LReconnectFailed ].
Proof.
  assert (H0 : backoffExact (gw (newWorld allCallbacks)) = true) by reflexivity.
  assert (H1 : backoffExact (gw (newWorldIn true allCallbacks)) = true) by reflexivity.
  split; [exact H0|]. split.
  - exact (proj1 (proj2 (reconnect_delay_and_failure (newWorld allCallbacks) H0))).
  - exact (proj1 (proj2 (proj2 (proj2 (proj2
      (reconnect_delay_and_failure (newWorldIn true allCallbacks) H1)))))).
Defined.

(** ** connect while connected *)

(** C4, as the claim has it, fails: with the transport open and the session
    established, a second [connect] opens a second transport and makes it
    the current one. *)
Lemma connect_while_connected_dials_again :
  let w := fst (run sessionEstablished (newWorld allCallbacks)) in
  let again := step ECallConnect w in
  isConnected w = true /\
  effects again = [ Console false LConnecting; Dial 1 gatewayUrl "Bot tok" ] /\
  ws (gw w) = Some 0%nat /\
  ws (gw (after again)) = Some 1%nat /\
  length (socks (after again)) = 2%nat.
Proof.
  vm_compute. repeat split; reflexivity.
Qed.

(** C4, amended. The no-op is in the owner of the gateway, not in
    [connect]: [startFluxerGateway] returns at once, without calling
    [connect] and without any transport operation, when the gateway of the
    module is connected; [connect] itself has no such check and dials a new
    transport on every call, also while the current one is open. *)
Theorem start_while_connected_is_noop (c : Channel) (tok : string) (i : nat) (w : World) :
  fluxerGateway c = Some i ->
  gateways c !! i = Some w ->
  isConnected w = true ->
  startFluxerGateway tok c = (c, [ChannelConsole false LAlreadyConnected]) /\
  effects (connect w) =
    [ Console false LConnecting;
      Dial (length (socks w)) gatewayUrl ("Bot " +:+ token (gw w)) ] /\
  ws (gw (after (connect w))) = Some (length (socks w)) /\
  socks (after (connect w)) = socks w ++ [mkSocket CONNECTING (length (promises w))].
Proof.
  intros Hg Hw Hc. split.
  - unfold startFluxerGateway, moduleGatewayConnected. rewrite Hg, Hw, Hc. reflexivity.
  - rewrite connect_spec by (apply constructorThrows_connected; exact Hc). repeat split.
Qed.

(** Where the constructor throws, [startFluxerGateway] records the new
    gateway object all the same, prints the failure and rejects; the object
    is not connected, so that the next start makes another one. *)
Example start_where_the_constructor_throws :
  let c := mkChannel [] None JNull (fun _ => true) in
  let started := startFluxerGateway "tok" c in
  snd started =
    [ ChannelConsole false LStarting; FromGateway 0 (Console false LConnecting);
      FromGateway 0 (Rejected 0); ChannelConsole true LFailedToConnect; StartRejected ] /\
  fluxerGateway (fst started) = Some 0%nat /\
  moduleGatewayConnected (fst started) = false /\
  length (gateways (fst (startFluxerGateway "tok" (fst started)))) = 2%nat.
Proof. vm_compute. repeat split. Qed.

(** The module starts the gateway, the transport opens, the module starts
    it again. *)
Lemma start_while_connected_is_noop_witness :
  let c := fst (channelStep 0 (EOpen 0) (fst (startFluxerGateway "tok" newChannel))) in
  moduleGatewayConnected c = true /\
  startFluxerGateway "tok" c = (c, [ChannelConsole false LAlreadyConnected]).
Proof.
  intros c. split; [vm_compute; reflexivity|].
  assert (Hw : exists w, gateways c !! 0%nat = Some w /\ isConnected w = true)
    by (vm_compute; eexists; split; reflexivity).
  destruct Hw as [w [Hw Hc]].
  exact (proj1 (start_while_connected_is_noop c "tok" 0%nat w eq_refl Hw Hc)).
Defined.

(** ** disconnect *)

(** C5, as the claim has it, fails: after [disconnect] the session id and
    the sequence number of the session are still there. *)
Lemma disconnect_keeps_session_state :
  let w := fst (run (sessionEstablished ++
                     [EMessage 0 (Parsed (JObj [("op", JNum 0); ("t", JStr "MESSAGE_CREATE");
                                                ("s", JNum 5); ("d", JObj [("id", JStr "abc")])]))])
                    (newWorld allCallbacks)) in
  let r := step ECallDisconnect w in
  effects r = [ ClearInterval 0; CloseSock 0 1000 "Client disconnecting" ] /\
  getSessionId (after r) = JStr "s0" /\
  getSessionId (after r) <> JNull /\
  sequence (gw (after r)) = JNum 5 /\
  sequence (gw (after r)) <> sequence (newGateway allCallbacks).
Proof.
  vm_compute. repeat split; try reflexivity; discriminate.
Qed.

Lemma wsClose_spec (sock : nat) (code : Z) (reason : string) (w : World) :
  wsClose sock code reason w = (Normal tt, closing sock w, [CloseSock sock code reason]).
Proof.
  unfold wsClose, readyStateOf, setReadyState, closing. js_unfold.
  destruct (socks w !! sock) as [[[] p]|] eqn:Hs; simpl; rewrite ?Hs; reflexivity.
Qed.

Lemma closing_gw (sock : nat) (w : World) : gw (closing sock w) = gw w.
Proof. unfold closing. destruct (socks w !! sock) as [[[] p]|]; reflexivity. Qed.

Lemma closing_timers (sock : nat) (w : World) : timers (closing sock w) = timers w.
Proof. unfold closing. destruct (socks w !! sock) as [[[] p]|]; reflexivity. Qed.

Lemma disconnect_spec (w : World) :
  disconnect w =
    (Normal tt, closeTransport (stopHeartbeat w),
     match heartbeatInterval (gw w) with
     | Some h => [ClearInterval h]
     | None => []
     end ++
     match ws (gw w) with
     | Some sock => [CloseSock sock 1000 "Client disconnecting"]
     | None => []
     end).
Proof.
  unfold disconnect, bind, this, assign, clearInterval, ret, stopHeartbeat, closeTransport.
  destruct w as [g so ti nt pr rj].
  destruct g as [wso tok sq sid ru onr onm one ond att mx dl hb].
  destruct hb as [h|], wso as [sock|]; simpl; rewrite ?wsClose_spec; reflexivity.
Qed.

Lemma disconnected_heartbeat (w : World) : heartbeatInterval (gw (disconnected w)) = None.
Proof.
  unfold disconnected, closeTransport, stopHeartbeat.
  destruct (heartbeatInterval (gw w)) eqn:Hh, (ws (gw w)) eqn:Hw; simpl;
    rewrite ?Hw; simpl; rewrite ?closing_gw; simpl; congruence.
Qed.

Lemma disconnected_ws (w : World) : ws (gw (disconnected w)) = None.
Proof.
  unfold disconnected, closeTransport, stopHeartbeat.
  destruct (heartbeatInterval (gw w)) eqn:Hh, (ws (gw w)) eqn:Hw; simpl;
    rewrite ?Hw; simpl; congruence.
Qed.

(** Every other field of the object is as before. *)
Lemma disconnected_field {X} (f : FluxerGateway -> X) (w : World) :
  (forall v g, f (set_heartbeatInterval v g) = f g) ->
  (forall v g, f (set_ws v g) = f g) ->
  f (gw (disconnected w)) = f (gw w).
Proof.
  intros Hf1 Hf2. unfold disconnected, closeTransport, stopHeartbeat.
  destruct (heartbeatInterval (gw w)) eqn:Hh, (ws (gw w)) eqn:Hw; simpl;
    rewrite ?Hw; simpl; rewrite ?closing_gw; simpl; rewrite ?Hf2, ?Hf1; reflexivity.
Qed.

Lemma disconnected_timers (w : World) :
  timers (disconnected w) =
    match heartbeatInterval (gw w) with
    | Some h => delete h (timers w)
    | None => timers w
    end.
Proof.
  unfold disconnected, closeTransport, stopHeartbeat.
  destruct (heartbeatInterval (gw w)) eqn:Hh, (ws (gw w)) eqn:Hw; simpl;
    rewrite ?Hw; simpl; rewrite ?closing_timers; reflexivity.
Qed.

Lemma closing_nextTimer (sock : nat) (w : World) : nextTimer (closing sock w) = nextTimer w.
Proof. unfold closing. destruct (socks w !! sock) as [[[] p]|]; reflexivity. Qed.

Lemma closing_socks_length (sock : nat) (w : World) :
  length (socks (closing sock w)) = length (socks w).
Proof.
  unfold closing. destruct (socks w !! sock) as [[[] p]|]; simpl;
    rewrite ?length_insert; reflexivity.
Qed.

Lemma disconnected_nextTimer (w : World) : nextTimer (disconnected w) = nextTimer w.
Proof.
  unfold disconnected, closeTransport, stopHeartbeat.
  destruct (heartbeatInterval (gw w)) eqn:Hh, (ws (gw w)) eqn:Hw; simpl;
    rewrite ?Hw; simpl; rewrite ?closing_nextTimer; reflexivity.
Qed.

Lemma disconnected_socks_length (w : World) :
  length (socks (disconnected w)) = length (socks w).
Proof.
  unfold disconnected, closeTransport, stopHeartbeat.
  destruct (heartbeatInterval (gw w)) eqn:Hh, (ws (gw w)) eqn:Hw; simpl;
    rewrite ?Hw; simpl; rewrite ?closing_socks_length; reflexivity.
Qed.

(** C5, amended. [disconnect] cancels the heartbeat timer, closes the
    transport with close code 1000 and drops the handle, and leaves the
    sequence number, the session id and the resume URL as they are
    ([getSessionId] answers as before); it never throws, and called again it
    does nothing at all. *)
Theorem disconnect_stops_and_closes (w : World) :
  let r := disconnect w in
  completion r = Normal tt /\
  effects r =
    match heartbeatInterval (gw w) with
    | Some h => [ClearInterval h]
    | None => []
    end ++
    match ws (gw w) with
    | Some sock => [CloseSock sock 1000 "Client disconnecting"]
    | None => []
    end /\
  heartbeatInterval (gw (after r)) = None /\
  (forall h, heartbeatInterval (gw w) = Some h -> timers (after r) !! h = None) /\
  ws (gw (after r)) = None /\
  isConnected (after r) = false /\
  sequence (gw (after r)) = sequence (gw w) /\
  sessionId (gw (after r)) = sessionId (gw w) /\
  resumeUrl (gw (after r)) = resumeUrl (gw w) /\
  getSessionId (after r) = getSessionId w /\
  disconnect (after r) = (Normal tt, after r, []).
Proof.
  intros r. subst r. rewrite disconnect_spec. unfold completion, effects, after.
  cbn [fst snd]. fold (disconnected w).
  pose proof (disconnected_heartbeat w) as Hhb.
  pose proof (disconnected_ws w) as Hws.
  repeat split.
  - exact Hhb.
  - intros h Hh. rewrite disconnected_timers, Hh. apply lookup_delete_eq.
  - exact Hws.
  - unfold isConnected, wsIsOpen. rewrite Hws. reflexivity.
  - apply (disconnected_field sequence); reflexivity.
  - apply (disconnected_field sessionId); reflexivity.
  - apply (disconnected_field resumeUrl); reflexivity.
  - unfold getSessionId. apply (disconnected_field sessionId); reflexivity.
  - rewrite disconnect_spec. rewrite Hhb, Hws.
    assert (H1 : stopHeartbeat (disconnected w) = disconnected w)
      by (unfold stopHeartbeat; rewrite Hhb; reflexivity).
    rewrite H1. unfold closeTransport. rewrite Hws. reflexivity.
Qed.

(** ** Heartbeats *)

(** What a heartbeat tick does, in full. *)
Lemma heartbeatTick_spec (w : World) :
  heartbeatTick w =
    (Normal tt, w,
     match ws (gw w) with
     | Some sock =>
         if ReadyState_eqb (readyStateOf w sock) OPEN
         then [Send sock (heartbeatPayload (sequence (gw w)))]
         else []
     | None => []
     end).
Proof.
  unfold heartbeatTick, bind, world, when, wsSend, emit, ret.
  destruct (ws (gw w)) as [sock|]; [|reflexivity].
  destruct (ReadyState_eqb (readyStateOf w sock) OPEN); reflexivity.
Qed.

(** With no transport handle, whatever timer comes due sends nothing. *)
Lemma fireTimer_detached_sends_nothing (w : World) (id : nat) :
  ws (gw w) = None ->
  forall sock payload, ~ In (Send sock payload) (effects (fireTimer id w)).
Proof.
  intros Hws sock payload.
  unfold fireTimer, bind at 1, world.
  destruct (timers w !! id) as [[rep delay a]|]; [|simpl; tauto].
  cbn [repeating action].
  assert (Hcb : forall w', ws (gw w') = None ->
                 ~ In (Send sock payload) (effects (timerCallback a w'))).
  { intros w' Hw'. destruct a; unfold timerCallback.
    - rewrite heartbeatTick_spec, Hw'. simpl. tauto.
    - rewrite reconnect_spec. simpl. intros [H|[H|[]]]; discriminate.
    - unfold bind. destruct (constructorThrows w') eqn:Hc.
      + rewrite connect_throws_spec by exact Hc. cbn beta iota zeta.
        unfold attachCatch. cbn [promises set_promises].
        rewrite list_lookup_middle by reflexivity.
        simpl. intros [H|[H|[H|[]]]]; discriminate.
      + rewrite connect_spec by exact Hc. cbn beta iota zeta.
        unfold attachCatch. cbn [promises].
        rewrite list_lookup_middle by reflexivity.
        simpl. intros [H|[H|[]]]; discriminate. }
  destruct rep; cbn [negb when].
  - unfold bind, ret. specialize (Hcb w Hws). unfold effects in *.
    destruct (timerCallback a w) as [[r w2] e2]. exact Hcb.
  - unfold bind, update.
    specialize (Hcb (set_timers (delete id (timers w)) w) Hws). unfold effects in *.
    destruct (timerCallback a _) as [[r w2] e2]. exact Hcb.
Qed.

(** ** Explicit disconnect and the close handler *)

(** C6, as the claim has it, fails: the owner disconnects an established
    session; when the 'close' event of that transport arrives, the close
    handler schedules a reconnect as for any other close, the timer comes
    due and [connect] dials again; after the Hello of the new transport
    heartbeats are sent again. *)
Lemma explicit_disconnect_still_reconnects :
  let w := fst (run (sessionEstablished ++ [ECallDisconnect]) (newWorld allCallbacks)) in
  effects (step (EClose 0 1000 "Client disconnecting") w) =
    [ Console false (LClosed 1000 "Client disconnecting"); CallOnDisconnect;
      Console false (LReconnecting 1000 1); SetTimeout 1 (JNum 1000) DoConnect ] /\
  thenStep [EClose 0 1000 "Client disconnecting"] (ETimer 1) w =
    [ Console false LConnecting; Dial 1 gatewayUrl "Bot tok" ] /\
  thenStep [EClose 0 1000 "Client disconnecting"; ETimer 1; EOpen 1;
            EMessage 1 (helloFrame 41250)] (ETimer 2) w =
    [ Send 1 (heartbeatPayload (JNum 1)) ].
Proof.
  vm_compute. repeat split; reflexivity.
Qed.

(** C6, amended. [disconnect] cancels the heartbeat timer on the spot: that
    timer is gone, and whatever timer comes due in the world [disconnect]
    leaves sends no heartbeat. The close handler does not tell a
    client-initiated close from any other: when the 'close' event of a
    transport arrives after [disconnect] and attempts remain, it schedules a
    reconnect with the backoff delay, and when that timer comes due
    [connect] dials. *)
Theorem disconnect_cancels_heartbeat_close_reconnects
    (w : World) (sock : nat) (code : Z) (reason : string) :
  is_Some (socks w !! sock) ->
  reconnectAttempts (gw w) < maxReconnectAttempts (gw w) ->
  let w1 := after (disconnect w) in
  let delay := reconnectDelay (gw w) * 2 ^ reconnectAttempts (gw w) in
  let closed := step (EClose sock code reason) w1 in
  (forall h, heartbeatInterval (gw w) = Some h ->
             timers w1 !! h = None /\ effects (step (ETimer h) w1) = []) /\
  (forall id sk payload, ~ In (Send sk payload) (effects (step (ETimer id) w1))) /\
  In (SetTimeout (nextTimer w) (JNum delay) DoConnect) (effects closed) /\
  effects (step (ETimer (nextTimer w)) (after closed)) =
    [ Console false LConnecting;
      Dial (length (socks w)) gatewayUrl ("Bot " +:+ token (gw w)) ].
Proof.
  intros Hsock Hlt w1 delay closed.
  assert (Hw1 : w1 = disconnected w) by (subst w1; rewrite disconnect_spec; reflexivity).
  assert (Hatt : reconnectAttempts (gw w1) = reconnectAttempts (gw w))
    by (rewrite Hw1; apply (disconnected_field reconnectAttempts); reflexivity).
  assert (Hmax : maxReconnectAttempts (gw w1) = maxReconnectAttempts (gw w))
    by (rewrite Hw1; apply (disconnected_field maxReconnectAttempts); reflexivity).
  assert (Hdel : reconnectDelay (gw w1) = reconnectDelay (gw w))
    by (rewrite Hw1; apply (disconnected_field reconnectDelay); reflexivity).
  assert (Htok : token (gw w1) = token (gw w))
    by (rewrite Hw1; apply (disconnected_field token); reflexivity).
  assert (Hnt : nextTimer w1 = nextTimer w) by (rewrite Hw1; apply disconnected_nextTimer).
  assert (Hlen : length (socks w1) = length (socks w))
    by (rewrite Hw1; apply disconnected_socks_length).
  assert (Hs1 : is_Some (socks w1 !! sock)).
  { apply lookup_lt_is_Some. rewrite Hlen. apply lookup_lt_is_Some. exact Hsock. }
  destruct Hs1 as [s1 Hs1].
  split; [|split].
  - intros h Hh.
    assert (Hgone : timers w1 !! h = None)
      by (rewrite Hw1, disconnected_timers, Hh; apply lookup_delete_eq).
    split; [exact Hgone|].
    unfold step, fireTimer, bind, world. rewrite Hgone. reflexivity.
  - intros id sk payload. apply fireTimer_detached_sends_nothing.
    rewrite Hw1. apply disconnected_ws.
  - subst closed. rewrite (step_close w1 sock s1 code reason Hs1).
    set (w2 := set_socks _ w1).
    assert (Hlt2 : reconnectAttempts (gw w2) < maxReconnectAttempts (gw w2))
      by (subst w2; simpl; lia).
    rewrite (wsOnClose_retries w2 code reason Hlt2).
    unfold effects, after. cbn [fst snd].
    replace (reconnectAttempts (gw w2)) with (reconnectAttempts (gw w)) by (symmetry; exact Hatt).
    replace (reconnectDelay (gw w2)) with (reconnectDelay (gw w)) by (symmetry; exact Hdel).
    replace (nextTimer w2) with (nextTimer w) by (symmetry; exact Hnt).
    replace (reconnectAttempts (gw w) + 1 - 1) with (reconnectAttempts (gw w)) by lia.
    fold delay. split.
    + rewrite !in_app_iff. right. right. right. simpl. auto.
    + unfold step.
      assert (Hsome : is_Some (socks w2 !! sock)).
      { subst w2. cbn [socks set_socks]. apply lookup_lt_is_Some. rewrite length_insert.
        apply lookup_lt_is_Some. eauto. }
      rewrite (fireTimer_connect _ (nextTimer w) (JNum delay));
        [| apply lookup_insert_eq | apply (constructorThrows_socket _ sock); exact Hsome].
      unfold effects. cbn [snd socks gw token set_reconnectAttempts set_heartbeatInterval].
      replace (length (socks w2)) with (length (socks w))
        by (subst w2; simpl; rewrite length_insert; symmetry; exact Hlen).
      replace (token (gw w2)) with (token (gw w)) by (symmetry; exact Htok).
      reflexivity.
Qed.

(** The owner disconnects an established session; the close event follows. *)
Lemma disconnect_cancels_heartbeat_close_reconnects_witness :
  let w := fst (run sessionEstablished (newWorld allCallbacks)) in
  let w1 := after (disconnect w) in
  is_Some (socks w !! 0%nat) /\
  reconnectAttempts (gw w) < maxReconnectAttempts (gw w) /\
  In (SetTimeout 1 (JNum (1000 * 2 ^ 0)) DoConnect)
     (effects (step (EClose 0 1000 "Client disconnecting") w1)).
Proof.
  intros w w1.
  assert (Hs : is_Some (socks w !! 0%nat)) by (vm_compute; eauto).
  assert (Hlt : reconnectAttempts (gw w) < maxReconnectAttempts (gw w))
    by (vm_compute; reflexivity).
  split; [exact Hs|]. split; [exact Hlt|].
  exact (proj1 (proj2 (proj2
    (disconnect_cancels_heartbeat_close_reconnects w 0%nat 1000 "Client disconnecting"
       Hs Hlt)))).
Defined.

(** ** Invalid session (opcode 9) *)

(** C7, as the claim has it, fails: opcode 9 arms one timer with the fixed
    delay 1000; when it comes due nothing is dialled: [reconnect] arms a
    second timer with the backoff delay (here 4000, the third reconnect),
    and [connect] runs only when that one comes due, 1000 + 4000 after the
    Invalid Session. *)
Lemma invalid_session_waits_for_backoff_too :
  let w := fst (run secondRetryConnected (newWorld allCallbacks)) in
  effects (step (EMessage 2 (opFrame 9)) w) =
    [ Console false (LEvent JUndefined (JNum 9)); Console false LInvalidSession;
      SetTimeout 4 (JNum 1000) DoReconnect ] /\
  thenStep [EMessage 2 (opFrame 9)] (ETimer 4) w =
    [ Console false (LReconnecting 4000 3); SetTimeout 5 (JNum 4000) DoConnect ] /\
  thenStep [EMessage 2 (opFrame 9); ETimer 4] (ETimer 5) w =
    [ Console false LConnecting; Dial 3 gatewayUrl "Bot tok" ].
Proof.
  vm_compute. repeat split; reflexivity.
Qed.

Lemma handlePayload_invalid_session (fields : list (string * JVal)) (w : World) :
  default JUndefined (assoc "op" fields) = JNum 9 ->
  toPrimitiveThrows (default JUndefined (assoc "t" fields)) = false ->
  let w0 := sequenceUpdated (default JUndefined (assoc "s" fields)) w in
  handlePayload (JObj fields) w =
    (Normal tt,
     mkWorld (gw w0) (socks w0)
             (<[nextTimer w := mkTimer false (JNum (reconnectDelay (gw w))) DoReconnect]>
                (timers w))
             (S (nextTimer w)) (promises w) (wsRejectsArguments w),
     [ Console false (LEvent (default JUndefined (assoc "t" fields)) (JNum 9));
       Console false LInvalidSession;
       SetTimeout (nextTimer w) (JNum (reconnectDelay (gw w))) DoReconnect ]).
Proof.
  intros Hop Ht w0. subst w0.
  unfold handlePayload, updateSequence, dispatchPayload, prop, getProp, sequenceUpdated.
  rewrite Hop. cbn [opcodeCase Z.eqb].
  assert (Hlog : toPrimitiveThrows
                   (if truthy (default JUndefined (assoc "t" fields))
                    then default JUndefined (assoc "t" fields) else JNum 9) = false)
    by (destruct (truthy _); [exact Ht | reflexivity]).
  unfold setTimeout, toPrimitive, armTimer. js_unfold. rewrite Hlog. simpl.
  destruct (truthy (default JUndefined (assoc "s" fields))); reflexivity.
Qed.

(** The timer armed on opcode 9 comes due: [this.reconnect()]. *)
Lemma fireTimer_reconnect (w : World) (id : nat) (delay : JVal) :
  timers w !! id = Some (mkTimer false delay DoReconnect) ->
  fireTimer id w = reconnect (set_timers (delete id (timers w)) w).
Proof.
  intros Ht. unfold fireTimer, bind at 1, world. rewrite Ht.
  cbn [repeating action negb when timerCallback].
  unfold bind at 1, update. rewrite reconnect_spec. reflexivity.
Qed.

(** C7, amended. Opcode 9 (in a frame whose event type, if it has one, can
    be printed) arms exactly one timer, with the fixed delay
    [reconnectDelay], and changes nothing else of the reconnect state; when
    that timer comes due [reconnect] runs once: it counts one more attempt
    [k] and arms the backoff timer with delay [reconnectDelay * 2^(k-1)]
    (as long as that arithmetic is exact in doubles); [connect] runs when
    the second timer comes due. The delay before [connect] is the fixed
    delay plus the backoff delay. *)
Theorem invalid_session_fixed_then_backoff (w : World) (payload : JVal) :
  getProp payload "op" = Some (JNum 9) ->
  toPrimitiveThrows (default JUndefined (getProp payload "t")) = false ->
  backoffExact (gw w) = true ->
  let k := reconnectAttempts (gw w) + 1 in
  let backoff := reconnectDelay (gw w) * 2 ^ (k - 1) in
  let t1 := nextTimer w in
  let t2 := S (nextTimer w) in
  let received := handlePayload payload w in
  let first := fireTimer t1 (after received) in
  let second := fireTimer t2 (after first) in
  completion received = Normal tt /\
  effects received =
    [ Console false (LEvent (default JUndefined (getProp payload "t")) (JNum 9));
      Console false LInvalidSession;
      SetTimeout t1 (JNum (reconnectDelay (gw w))) DoReconnect ] /\
  reconnectAttempts (gw (after received)) = reconnectAttempts (gw w) /\
  effects first =
    [ Console false (LReconnecting backoff k); SetTimeout t2 (JNum backoff) DoConnect ] /\
  reconnectAttempts (gw (after first)) = k /\
  effects second =
    Console false LConnecting ::
    (if constructorThrows w
     then [ Rejected (length (promises w)); Console true LReconnectFailed ]
     else [ Dial (length (socks w)) gatewayUrl ("Bot " +:+ token (gw w)) ]).
Proof.
  intros Hop Hprint _ k backoff t1 t2 received first second.
  destruct payload as [| | b | n | s | fields]; try discriminate Hop.
  cbn [getProp] in Hop, Hprint. injection Hop as Hop.
  assert (Hr : received = handlePayload (JObj fields) w) by reflexivity.
  rewrite (handlePayload_invalid_session fields w Hop Hprint) in Hr.
  set (w0 := sequenceUpdated (default JUndefined (assoc "s" fields)) w) in Hr.
  assert (Hg : forall X (f : FluxerGateway -> X),
             (forall v g, f (set_sequence v g) = f g) -> f (gw w0) = f (gw w)).
  { intros X f Hf. subst w0. unfold sequenceUpdated.
    destruct (truthy _); [apply Hf | reflexivity]. }
  assert (Hso : socks w0 = socks w)
    by (subst w0; unfold sequenceUpdated; destruct (truthy _); reflexivity).
  assert (Hf1 : first = reconnect (set_timers (delete t1 (timers (after received)))
                                              (after received))).
  { subst first. apply (fireTimer_reconnect _ t1 (JNum (reconnectDelay (gw w)))).
    rewrite Hr. unfold after. cbn [fst snd timers]. apply lookup_insert_eq. }
  rewrite reconnect_spec in Hf1.
  rewrite Hr in Hf1. unfold after in Hf1. cbn [fst snd gw socks timers nextTimer promises
    set_timers wsRejectsArguments] in Hf1.
  rewrite (Hg _ reconnectAttempts) in Hf1 by reflexivity.
  rewrite (Hg _ reconnectDelay) in Hf1 by reflexivity.
  fold k backoff t2 in Hf1.
  assert (Ht2 : timers (after first) !! t2 = Some (mkTimer false (JNum backoff) DoConnect))
    by (rewrite Hf1; unfold after; cbn [fst snd timers]; apply lookup_insert_eq).
  assert (Hc2 : constructorThrows (after first) = constructorThrows w)
    by (rewrite Hf1; unfold after, constructorThrows; cbn [fst snd socks wsRejectsArguments];
        rewrite Hso; reflexivity).
  assert (Hf2 : effects second =
                  Console false LConnecting ::
                  (if constructorThrows w
                   then [ Rejected (length (promises w)); Console true LReconnectFailed ]
                   else [ Dial (length (socks w)) gatewayUrl ("Bot " +:+ token (gw w)) ])).
  { subst second. destruct (constructorThrows w) eqn:Hc.
    - rewrite (fireTimer_connect_throws _ t2 (JNum backoff) Ht2 Hc2).
      rewrite Hf1. reflexivity.
    - rewrite (fireTimer_connect _ t2 (JNum backoff) Ht2 Hc2).
      rewrite Hf1. unfold effects, after.
      cbn [fst snd socks gw token set_reconnectAttempts].
      rewrite Hso. rewrite (Hg _ token) by reflexivity. reflexivity. }
  rewrite Hr, Hf1. unfold completion, effects, after.
  cbn [fst snd gw reconnectAttempts set_reconnectAttempts getProp].
  rewrite (Hg _ reconnectAttempts) by reflexivity.
  repeat split. exact Hf2.
Qed.

(** Invalid Session in the session that the second reconnect established. *)
Lemma invalid_session_fixed_then_backoff_witness :
  let w := fst (run secondRetryConnected (newWorld allCallbacks)) in
  let payload := JObj [("op", JNum 9); ("d", JBool false)] in
  getProp payload "op" = Some (JNum 9) /\
  backoffExact (gw w) = true /\
  effects (handlePayload payload w) =
    [ Console false (LEvent JUndefined (JNum 9)); Console false LInvalidSession;
      SetTimeout 4 (JNum 1000) DoReconnect ] /\
  effects (fireTimer 4 (after (handlePayload payload w))) =
    [ Console false (LReconnecting (1000 * 2 ^ 2) 3);
      SetTimeout 5 (JNum (1000 * 2 ^ 2)) DoConnect ].
Proof.
  intros w payload.
  assert (Hx : backoffExact (gw w) = true) by (vm_compute; reflexivity).
  pose proof (invalid_session_fixed_then_backoff w payload eq_refl eq_refl Hx) as H.
  split; [reflexivity|]. split; [exact Hx|].
  split; [exact (proj1 (proj2 H)) | exact (proj1 (proj2 (proj2 (proj2 H))))].
Defined.

(** ** The heartbeat payload *)

Lemma connect_sequence : Keeps (field sequence) connect.
Proof. unfold connect. keeps. Qed.

Lemma reconnect_sequence : Keeps (field sequence) reconnect.
Proof. unfold reconnect, setTimeout. keeps. Qed.

(** Only a frame with a truthy [s] changes the tracked sequence number. *)
Lemma step_sequence (e : Event) (w : World) :
  carriesSequence e = false ->
  sequence (gw (after (step e w))) = sequence (gw w).
Proof.
  intros He.
  assert (Hmsg : forall payload, carriesSequence e = false ->
                   forall sock, e = EMessage sock (Parsed payload) ->
                   sequence (gw (after (wsOnMessage (Parsed payload) w))) = sequence (gw w)).
  { intros payload Hc sock ->. simpl in Hc.
    rewrite wsOnMessage_parsed_sequence, handlePayload_sequence.
    destruct (getProp payload "s") as [s|]; [rewrite Hc|]; reflexivity. }
  destruct e as [| | sock | sock data | sock | sock code reason | id].
  - assert (H : Keeps (field sequence) (step ECallConnect))
      by (unfold step; keeps; apply connect_sequence).
    exact (H w).
  - assert (H : Keeps (field sequence) (step ECallDisconnect))
      by (unfold step, disconnect; keeps).
    exact (H w).
  - assert (H : Keeps (field sequence) (step (EOpen sock)))
      by (unfold step, wsOnOpen; keeps).
    exact (H w).
  - unfold step, bind at 1, world.
    destruct (socks w !! sock); [|reflexivity].
    destruct data as [|payload].
    + unfold after. simpl. reflexivity.
    + specialize (Hmsg payload He sock eq_refl). unfold after in *.
      destruct (wsOnMessage (Parsed payload) w) as [[r w2] e2]. exact Hmsg.
  - assert (H : Keeps (field sequence) (step (EError sock)))
      by (unfold step, wsOnError; keeps).
    exact (H w).
  - assert (H : Keeps (field sequence) (step (EClose sock code reason))).
    { unfold step, wsOnClose, handleDisconnect. keeps; apply reconnect_sequence. }
    exact (H w).
  - assert (H : Keeps (field sequence) (step (ETimer id))).
    { unfold step, fireTimer, timerCallback, heartbeatTick, wsSend.
      keeps; first [apply reconnect_sequence | apply connect_sequence]. }
    exact (H w).
Qed.

Lemma run_sequence (events : list Event) :
  forall w, forallb (fun e => negb (carriesSequence e)) events = true ->
            sequence (gw (fst (run events w))) = sequence (gw w).
Proof.
  induction events as [|e rest IH]; intros w Hall; [reflexivity|].
  simpl in Hall. apply andb_prop in Hall as [He Hrest].
  apply negb_true_iff in He.
  simpl. specialize (IH (after (step e w)) Hrest).
  destruct (run rest (after (step e w))) as [w' tr]. simpl in *.
  rewrite IH. apply step_sequence. exact He.
Qed.

(** C9, as the claim has it, fails: the first heartbeat of a gateway that
    has observed no sequence number carries the number 0 in [d], not null.
    And not every tick sends: after a Reconnect request the reconnect timer
    has made a new transport, still connecting, and the tick of the
    heartbeat timer that is still armed sends nothing. *)
Lemma first_heartbeat_carries_zero :
  thenStep [ECallConnect; EOpen 0; EMessage 0 (helloFrame 41250)] (ETimer 0)
           (newWorld allCallbacks)
    = [ Send 0 (JObj [("op", JNum 1); ("d", JNum 0)]) ] /\
  JNum 0 <> JNull /\
  thenStep (sessionEstablished ++ [EMessage 0 (opFrame 7); ETimer 1]) (ETimer 0)
           (newWorld allCallbacks)
    = [].
Proof.
  vm_compute. repeat split; [discriminate].
Qed.

(** C9, amended. When the heartbeat timer comes due and the transport is
    open, the tick sends [{"op": 1, "d": <tracked sequence number>}] (and
    nothing while the transport is not open); the tracked sequence number is
    a number from the start: in a gateway that has not yet received a frame
    with a nonzero [s], the [d] of a heartbeat is the number 0. *)
Theorem heartbeat_tick_sends_tracked_sequence
    (options : FluxerGatewayOptions) (events : list Event) (h : nat) (interval : JVal) :
  let w := fst (run events (newWorld options)) in
  timers w !! h = Some (mkTimer true interval DoHeartbeat) ->
  step (ETimer h) w =
    (Normal tt, w,
     match ws (gw w) with
     | Some sock =>
         if ReadyState_eqb (readyStateOf w sock) OPEN
         then [Send sock (JObj [("op", JNum 1); ("d", sequence (gw w))])]
         else []
     | None => []
     end) /\
  (forallb (fun e => negb (carriesSequence e)) events = true ->
   sequence (gw w) = JNum 0).
Proof.
  intros w Ht. split.
  - unfold step, fireTimer, bind at 1, world. rewrite Ht.
    cbn [repeating action negb when timerCallback].
    unfold bind, ret. rewrite heartbeatTick_spec. reflexivity.
  - intros Hnone. subst w. rewrite run_sequence by exact Hnone. reflexivity.
Qed.

(** The first heartbeat after Hello. *)
Lemma heartbeat_tick_sends_tracked_sequence_witness :
  let events := [ECallConnect; EOpen 0; EMessage 0 (helloFrame 41250)] in
  let w := fst (run events (newWorld allCallbacks)) in
  timers w !! 0%nat = Some (mkTimer true (JNum 41250) DoHeartbeat) /\
  effects (step (ETimer 0) w) = [ Send 0 (JObj [("op", JNum 1); ("d", JNum 0)]) ].
Proof.
  intros events w.
  assert (Ht : timers w !! 0%nat = Some (mkTimer true (JNum 41250) DoHeartbeat))
    by (vm_compute; reflexivity).
  split; [exact Ht|].
  destruct (heartbeat_tick_sends_tracked_sequence allCallbacks events 0%nat
              (JNum 41250) Ht) as [Hstep Hzero].
  specialize (Hzero eq_refl).
  change (fst (run events (newWorld allCallbacks))) with w in Hstep, Hzero.
  rewrite Hstep. unfold effects. cbn [snd].
  rewrite Hzero. vm_compute. reflexivity.
Defined.

(** * Further properties of the gateway *)

(** ** What a handler may emit *)

Section Emissions.
Context (P : Effect -> Prop).

Lemma Emits_silent {A} (m : Js A) : (forall w, effects (m w) = []) -> Emits P m.
Proof. intros H w. rewrite H. constructor. Qed.

Lemma Emits_ret {A} (a : A) : Emits P (ret a).
Proof. apply Emits_silent. reflexivity. Qed.

Lemma Emits_throw {A} : Emits P (@throw A).
Proof. apply Emits_silent. reflexivity. Qed.

Lemma Emits_this : Emits P this.
Proof. apply Emits_silent. reflexivity. Qed.

Lemma Emits_world : Emits P world.
Proof. apply Emits_silent. reflexivity. Qed.

Lemma Emits_update u : Emits P (update u).
Proof. apply Emits_silent. reflexivity. Qed.

Lemma Emits_assign u : Emits P (assign u).
Proof. apply Emits_silent. reflexivity. Qed.

Lemma Emits_emit (e : Effect) : P e -> Emits P (emit e).
Proof. intros He w. repeat constructor. exact He. Qed.

Lemma Emits_bind {A B} (m : Js A) (k : A -> Js B) :
  Emits P m -> (forall a, Emits P (k a)) -> Emits P (bind m k).
Proof.
  intros Hm Hk w. specialize (Hm w). unfold bind, effects in *.
  destruct (m w) as [[[a|] w1] e1]; simpl in *; [|exact Hm].
  specialize (Hk a w1). unfold effects in Hk.
  destruct (k a w1) as [[r w2] e2]; simpl in *.
  apply Forall_app. split; assumption.
Qed.

Lemma Emits_bind_ret {A B} (a : A) (k : A -> Js B) :
  Emits P (k a) -> Emits P (bind (ret a) k).
Proof.
  intros Hk w. specialize (Hk w). unfold bind, ret, effects in *.
  destruct (k a w) as [[r w2] e2]. exact Hk.
Qed.

Lemma Emits_tryCatch (m h : Js unit) : Emits P m -> Emits P h -> Emits P (tryCatch m h).
Proof.
  intros Hm Hh w. specialize (Hm w). unfold tryCatch, effects in *.
  destruct (m w) as [[[a|] w1] e1]; simpl in *; [exact Hm|].
  specialize (Hh w1). unfold effects in Hh.
  destruct (h w1) as [[r w2] e2]; simpl in *.
  apply Forall_app. split; assumption.
Qed.

Lemma Emits_when (b : bool) (m : Js unit) : Emits P m -> Emits P (when b m).
Proof. intros Hm. destruct b; [exact Hm | apply Emits_ret]. Qed.

Lemma Emits_prop v k : Emits P (prop v k).
Proof. unfold prop. destruct (getProp v k); [apply Emits_ret | apply Emits_throw]. Qed.

Lemma Emits_setReadyState sock st : Emits P (setReadyState sock st).
Proof. apply Emits_silent. reflexivity. Qed.

Lemma Emits_newPromise : Emits P newPromise.
Proof. apply Emits_silent. reflexivity. Qed.

Lemma Emits_toPrimitive v : Emits P (toPrimitive v).
Proof.
  unfold toPrimitive. destruct (toPrimitiveThrows v); [apply Emits_throw | apply Emits_ret].
Qed.

Lemma Emits_attachCatch p : P (Console true LReconnectFailed) -> Emits P (attachCatch p).
Proof.
  intros H w. unfold attachCatch, effects.
  destruct (promises w !! p) as [[[[]|] []]|]; simpl; repeat constructor. exact H.
Qed.

Lemma Emits_newWebSocket p auth :
  (forall sock, P (Dial sock gatewayUrl auth)) -> Emits P (newWebSocket p auth).
Proof.
  intros H w. unfold newWebSocket, effects.
  destruct (constructorThrows w); simpl; repeat constructor. apply H.
Qed.

Lemma Emits_resolve p : P (Fulfilled p) -> Emits P (resolve p).
Proof.
  intros H w. unfold resolve, effects.
  destruct (promises w !! p) as [[[b|] c]|]; simpl; repeat constructor. exact H.
Qed.

Lemma Emits_reject p :
  P (Console true LReconnectFailed) -> P (Rejected p) -> Emits P (reject p).
Proof.
  intros H1 H2 w. unfold reject, effects.
  destruct (promises w !! p) as [[[b|] c]|]; simpl; repeat constructor.
  destruct c; assumption.
Qed.

Lemma Emits_armTimer (rep : bool) a delay :
  (forall id, P (if rep then SetInterval id delay a else SetTimeout id delay a)) ->
  Emits P (armTimer rep a delay).
Proof. intros H w. repeat constructor. apply H. Qed.

Lemma Emits_setTimeout a delay :
  (forall id, P (SetTimeout id delay a)) -> Emits P (setTimeout a delay).
Proof.
  intros H. unfold setTimeout. apply Emits_bind; [apply Emits_toPrimitive | intros _].
  apply Emits_armTimer. exact H.
Qed.

Lemma Emits_setInterval a delay :
  (forall id, P (SetInterval id delay a)) -> Emits P (setInterval a delay).
Proof.
  intros H. unfold setInterval. apply Emits_bind; [apply Emits_toPrimitive | intros _].
  apply Emits_armTimer. exact H.
Qed.

Lemma Emits_clearInterval id : P (ClearInterval id) -> Emits P (clearInterval id).
Proof. intros H w. repeat constructor. exact H. Qed.
End Emissions.

(** Goals [Emits P m] by the structure of [m]; what is left are the side
    conditions [P e] of the effects. *)
Ltac emits_step :=
  first
    [ apply Emits_ret | apply Emits_throw | apply Emits_this | apply Emits_world
    | apply Emits_update | apply Emits_assign | apply Emits_prop | apply Emits_toPrimitive
    | apply Emits_setReadyState | apply Emits_newPromise | apply Emits_attachCatch
    | apply Emits_setTimeout; intros ?
    | apply Emits_setInterval; intros ?
    | apply Emits_armTimer; intros ?; cbn beta iota
    | apply Emits_bind; [| intros ?]
    | apply Emits_tryCatch
    | apply Emits_when
    | apply Emits_emit
    | apply Emits_newWebSocket; intros ?
    | apply Emits_resolve
    | apply Emits_reject
    | apply Emits_clearInterval
    | match goal with
      | |- Emits _ (match ?x with _ => _ end) => destruct x eqn:?
      | |- Emits _ (if ?x then _ else _) => destruct x eqn:?
      end ].

Ltac emits := repeat emits_step.

Lemma Emits_bind_throw {A B} (P : Effect -> Prop) (k : A -> Js B) :
  Emits P (bind throw k).
Proof. apply Emits_silent. reflexivity. Qed.

Lemma callReady_emits (P : Effect -> Prop) fn data :
  P (Console false LReady) -> P (CallOnReady data) -> (forall p, P (Fulfilled p)) ->
  Emits P (callReady fn data).
Proof.
  intros H1 H2 H3. induction fn as [given|p fn IH]; simpl; emits; auto.
Qed.

Ltac produced :=
  simpl; unfold isFrame, isDispatchOf, payloadOpcode, payloadEventType;
  repeat match goal with H : getProp _ _ = _ |- _ => rewrite H end;
  simpl; auto.

Lemma handlePayload_producedBy (sock : nat) (payload : JVal) :
  Emits (producedBy (EMessage sock (Parsed payload))) (handlePayload payload).
Proof.
  unfold handlePayload, updateSequence. apply Emits_bind; [emits | intros _].
  unfold dispatchPayload, prop.
  destruct (getProp payload "t") as [eventType|] eqn:Ht;
    [apply Emits_bind_ret | apply Emits_bind_throw].
  destruct (getProp payload "d") as [eventData|] eqn:Hd;
    [apply Emits_bind_ret | apply Emits_bind_throw].
  destruct (getProp payload "op") as [opcode|] eqn:Hop;
    [apply Emits_bind_ret | apply Emits_bind_throw].
  apply Emits_bind; [emits | intros _].
  apply Emits_bind; [emits; exact I | intros _].
  destruct (opcodeCase opcode) eqn:Hcase.
  - unfold startHeartbeat, sendIdentify, wsSend. emits; produced.
  - emits. exact I.
  - destruct (isStr eventType "READY") eqn:Hready.
    + emits; try exact I. apply callReady_emits; intros; produced.
    + destruct (isStr eventType "MESSAGE_CREATE") eqn:Hmsg; emits. produced.
  - unfold reconnect. emits; produced.
  - emits; produced.
  - emits. exact I.
Qed.

(** Every effect of a handler is one that this kind of event can produce. *)
Lemma step_producedBy (e : Event) : Emits (producedBy e) (step e).
Proof.
  destruct e as [| | sock | sock data | sock | sock code reason | id]; unfold step.
  - unfold connect. emits; produced.
  - unfold disconnect, wsClose. emits; produced.
  - unfold wsOnOpen. emits; produced.
  - apply Emits_bind; [emits | intros w0].
    destruct (socks w0 !! sock); [|emits].
    unfold wsOnMessage. apply Emits_tryCatch; [|emits; exact I].
    destruct data as [|payload]; [emits | apply handlePayload_producedBy].
  - unfold wsOnError. emits; produced.
  - unfold wsOnClose, handleDisconnect, reconnect. emits; produced.
  - unfold fireTimer, timerCallback, heartbeatTick, wsSend, reconnect, connect.
    emits; produced.
Qed.

(** ** What is written to a transport *)

Section Sending.
Context {X : Type} (obs : World -> X) (Q : X -> nat -> JVal -> Prop).

Lemma Sends_silent {A} (m : Js A) : Emits notSend m -> Sends obs Q m.
Proof.
  intros Hm w sock payload Hin. specialize (Hm w).
  rewrite Forall_forall in Hm. apply list_elem_of_In in Hin.
  destruct (Hm _ Hin).
Qed.

Lemma Sends_bind {A B} (m : Js A) (k : A -> Js B) :
  Sends obs Q m -> Keeps obs m -> (forall a, Sends obs Q (k a)) -> Sends obs Q (bind m k).
Proof.
  intros Hm Hkeep Hk w sock payload.
  specialize (Hm w sock payload). specialize (Hkeep w).
  unfold bind, effects, after in *.
  destruct (m w) as [[[a|] w1] e1]; simpl in *; [|exact Hm].
  specialize (Hk a w1 sock payload). unfold effects in Hk.
  destruct (k a w1) as [[r w2] e2]; simpl in *.
  rewrite in_app_iff. intros [H|H]; [auto|].
  rewrite <- Hkeep. auto.
Qed.

Lemma Sends_tryCatch (m h : Js unit) :
  Sends obs Q m -> Emits notSend h -> Sends obs Q (tryCatch m h).
Proof.
  intros Hm Hh w sock payload. specialize (Hm w sock payload).
  unfold tryCatch, effects in *.
  destruct (m w) as [[[a|] w1] e1]; simpl in *; [exact Hm|].
  specialize (Hh w1). unfold effects in Hh.
  destruct (h w1) as [[r w2] e2]; simpl in *.
  rewrite in_app_iff. intros [H|H]; [auto|].
  rewrite Forall_forall in Hh. apply list_elem_of_In in H. destruct (Hh _ H).
Qed.
End Sending.

Ltac silent := solve [emits; simpl; auto].

Ltac keeps_plain := repeat first [keeps_step | (intros ?; reflexivity)].

Ltac sends_step :=
  first
    [ (apply Sends_silent; silent)
    | apply Sends_bind; [| solve [keeps_plain] | intros ?]
    | apply Sends_tryCatch; [| silent]
    | match goal with
      | |- Sends _ _ (match ?x with _ => _ end) => destruct x
      | |- Sends _ _ (if ?x then _ else _) => destruct x
      | |- Sends _ _ (when ?x _) => destruct x; unfold when
      end ].

Ltac sends := repeat sends_step.

Lemma ReadyState_eqb_OPEN (st : ReadyState) : ReadyState_eqb st OPEN = true -> st = OPEN.
Proof. destruct st; simpl; congruence. Qed.

Lemma sendIdentify_sends : Sends identifyView isIdentifyOnOpen sendIdentify.
Proof.
  intros w sock payload. unfold sendIdentify, bind, world, effects, emit, wsSend, readyStateOf.
  destruct (ws (gw w)) as [s|] eqn:Hws; simpl; [|intros [H|[]]; discriminate].
  destruct (ReadyState_eqb _ OPEN) eqn:Hopen; simpl.
  - intros [H|[H|[]]]; [discriminate|]. injection H as <- <-.
    unfold isIdentifyOnOpen, identifyView. simpl. rewrite Hws.
    repeat split. apply ReadyState_eqb_OPEN. exact Hopen.
  - intros [H|[]]; discriminate.
Qed.

Lemma handlePayload_sends payload : Sends identifyView isIdentifyOnOpen (handlePayload payload).
Proof.
  unfold handlePayload, updateSequence, dispatchPayload, startHeartbeat, reconnect, setTimeout,
    setInterval.
  repeat first
    [ apply sendIdentify_sends
    | (apply Sends_silent; apply callReady_emits; simpl; solve [auto])
    | sends_step ].
Qed.

Lemma heartbeatTick_sends : Sends heartbeatView isHeartbeatOnOpen heartbeatTick.
Proof.
  intros w sock payload. rewrite heartbeatTick_spec. unfold effects, readyStateOf. simpl.
  destruct (ws (gw w)) as [s|] eqn:Hws; simpl; [|tauto].
  destruct (ReadyState_eqb _ OPEN) eqn:Hopen; simpl; [|tauto].
  intros [H|[]]. injection H as <- <-.
  unfold isHeartbeatOnOpen, heartbeatView. simpl. rewrite Hws.
  repeat split. apply ReadyState_eqb_OPEN. exact Hopen.
Qed.

Lemma fireTimer_sends id : Sends heartbeatView isHeartbeatOnOpen (fireTimer id).
Proof.
  unfold fireTimer, timerCallback, reconnect, setTimeout, connect.
  repeat first [apply heartbeatTick_sends | sends_step].
Qed.

Lemma step_message_sends sock data :
  Sends identifyView isIdentifyOnOpen (step (EMessage sock data)).
Proof.
  unfold step, wsOnMessage.
  repeat first [apply handlePayload_sends | sends_step].
Qed.

Lemma step_produces (e : Event) (w : World) (eff : Effect) :
  In eff (effects (step e w)) -> producedBy e eff.
Proof.
  intros Hin. pose proof (step_producedBy e w) as H.
  rewrite Forall_forall in H. apply H. apply list_elem_of_In. exact Hin.
Qed.

(** X1. Whatever a handler writes to a transport, it writes to the current
    handle, and only while that socket is OPEN; it is either a heartbeat
    with the tracked sequence number, written by a timer, or the Identify
    with the token, written in answer to a Hello. *)
Theorem writes_go_to_the_open_current_transport
    (e : Event) (w : World) (sock : nat) (payload : JVal) :
  In (Send sock payload) (effects (step e w)) ->
  ws (gw w) = Some sock /\
  readyStateOf w sock = OPEN /\
  ((isTimer e /\ payload = heartbeatPayload (sequence (gw w))) \/
   (isFrame OpHello e /\ payload = identifyPayload (token (gw w)))).
Proof.
  intros Hin. pose proof (step_produces e w _ Hin) as Hby. simpl in Hby.
  destruct e as [| | s | s data | s | s code reason | id];
    try (destruct Hby as [[]|[]]; fail).
  - destruct (step_message_sends s data w sock payload Hin) as [Hws [Hopen Hp]].
    destruct Hby as [[]|Hhello]. unfold readyStateOf. auto.
  - destruct (fireTimer_sends id w sock payload Hin) as [Hws [Hopen Hp]].
    unfold readyStateOf. simpl. auto.
Qed.

(** The Identify that answers a Hello on an open transport. *)
Lemma writes_go_to_the_open_current_transport_witness :
  let w := fst (run [ECallConnect; EOpen 0] (newWorld allCallbacks)) in
  In (Send 0 (identifyPayload "tok")) (effects (step (EMessage 0 (helloFrame 41250)) w)) /\
  ws (gw w) = Some 0%nat /\ readyStateOf w 0 = OPEN.
Proof.
  intros w.
  assert (Hin : In (Send 0 (identifyPayload "tok"))
                   (effects (step (EMessage 0 (helloFrame 41250)) w)))
    by (vm_compute; auto 10).
  split; [exact Hin|].
  destruct (writes_go_to_the_open_current_transport _ _ _ _ Hin) as [Hws [Hopen _]].
  split; assumption.
Defined.

(** X2. A transport is closed by the gateway only when the owner calls
    [disconnect]: the socket closed is the current handle, with code 1000.
    No frame, WebSocket event or timer makes the gateway close a socket;
    in particular a reconnect does not close the transport it replaces. *)
Theorem only_disconnect_closes_a_transport
    (e : Event) (w : World) (sock : nat) (code : Z) (reason : string) :
  In (CloseSock sock code reason) (effects (step e w)) ->
  e = ECallDisconnect /\ ws (gw w) = Some sock /\
  code = 1000 /\ reason = "Client disconnecting".
Proof.
  intros Hin. destruct (step_produces e w _ Hin) as [-> _].
  split; [reflexivity|]. unfold step in Hin. rewrite disconnect_spec in Hin.
  unfold effects in Hin. cbn [snd] in Hin. apply in_app_or in Hin.
  destruct Hin as [Hin|Hin].
  - destruct (heartbeatInterval (gw w)); [destruct Hin as [H|[]]; discriminate | destruct Hin].
  - destruct (ws (gw w)) as [s|]; [|destruct Hin].
    destruct Hin as [H|[]]. injection H as -> <- <-. auto.
Qed.

Lemma only_disconnect_closes_a_transport_witness :
  let w := fst (run sessionEstablished (newWorld allCallbacks)) in
  In (CloseSock 0 1000 "Client disconnecting") (effects (step ECallDisconnect w)) /\
  ws (gw w) = Some 0%nat.
Proof.
  intros w.
  assert (Hin : In (CloseSock 0 1000 "Client disconnecting")
                   (effects (step ECallDisconnect w)))
    by (vm_compute; auto).
  split; [exact Hin|].
  exact (proj1 (proj2 (only_disconnect_closes_a_transport _ _ _ _ _ Hin))).
Defined.

(** X3. A transport is opened only by [connect], called by the owner or by
    the timer that [reconnect] armed; every dial goes to the fixed gateway
    URL with the header [Bot <token>] and makes a new socket. *)
Theorem dials_come_from_connect
    (e : Event) (w : World) (sock : nat) (url auth : string) :
  In (Dial sock url auth) (effects (step e w)) ->
  (e = ECallConnect \/
   exists id rep delay, e = ETimer id /\ timers w !! id = Some (mkTimer rep delay DoConnect)) /\
  sock = length (socks w) /\
  url = gatewayUrl /\
  auth = "Bot " +:+ token (gw w).
Proof.
  intros Hin. pose proof (step_produces e w _ Hin) as Hby. simpl in Hby.
  destruct e as [| | s | s data | s | s code reason | id];
    try (destruct Hby as [H|[]]; discriminate H).
  - unfold step, bind in Hin. destruct (constructorThrows w) eqn:Hc.
    + rewrite connect_throws_spec in Hin by exact Hc. unfold effects in Hin.
      cbn in Hin. destruct Hin as [H|[H|[]]]; discriminate.
    + rewrite connect_spec in Hin by exact Hc. unfold effects in Hin.
      cbn in Hin. destruct Hin as [H|[H|[]]]; [discriminate|].
      injection H as <- <- <-. auto.
  - unfold step, fireTimer, bind at 1, world in Hin.
    destruct (timers w !! id) as [[rep delay a]|] eqn:Ht; [|destruct Hin].
    cbn [repeating action] in Hin.
    assert (Hcb : forall w', socks w' = socks w -> token (gw w') = token (gw w) ->
              In (Dial sock url auth) (effects (timerCallback a w')) ->
              a = DoConnect /\ sock = length (socks w) /\ url = gatewayUrl /\
              auth = "Bot " +:+ token (gw w)).
    { intros w' Hs Htok. destruct a; unfold timerCallback.
      - rewrite heartbeatTick_spec. unfold effects. cbn [snd].
        destruct (ws (gw w')); [|intros []].
        destruct (ReadyState_eqb _ _); [intros [H|[]]; discriminate | intros []].
      - rewrite reconnect_spec. unfold effects. cbn [snd].
        intros [H|[H|[]]]; discriminate.
      - unfold bind. destruct (constructorThrows w') eqn:Hc.
        + rewrite connect_throws_spec by exact Hc. cbn beta iota zeta.
          unfold attachCatch. cbn [promises set_promises].
          rewrite list_lookup_middle by reflexivity.
          unfold effects. cbn [snd app]. intros [H|[H|[H|[]]]]; discriminate.
        + rewrite connect_spec by exact Hc. cbn beta iota zeta.
          unfold attachCatch. cbn [promises].
          rewrite list_lookup_middle by reflexivity.
          unfold effects. cbn [snd app]. intros [H|[H|[]]]; [discriminate|].
          injection H as <- <- <-. rewrite Hs, Htok. auto. }
    assert (Hres : a = DoConnect /\ sock = length (socks w) /\ url = gatewayUrl /\
                   auth = "Bot " +:+ token (gw w)).
    { destruct rep; cbn [negb when] in Hin.
      - unfold bind, ret in Hin. apply (Hcb w eq_refl eq_refl).
        unfold effects in *. destruct (timerCallback a w) as [[r w2] e2]. exact Hin.
      - unfold bind, update in Hin.
        apply (Hcb (set_timers (delete id (timers w)) w) eq_refl eq_refl).
        unfold effects in *. destruct (timerCallback a _) as [[r w2] e2]. exact Hin. }
    destruct Hres as [-> Hrest]. split; [|exact Hrest].
    right. exists id, rep, delay. auto.
Qed.

Lemma dials_come_from_connect_witness :
  let w := fst (run (sessionEstablished ++ [EClose 0 1006 ""]) (newWorld allCallbacks)) in
  In (Dial 1 gatewayUrl "Bot tok") (effects (step (ETimer 1) w)) /\
  1%nat = length (socks w) /\
  "Bot tok" = "Bot " +:+ token (gw w).
Proof.
  intros w.
  assert (Hin : In (Dial 1 gatewayUrl "Bot tok") (effects (step (ETimer 1) w)))
    by (vm_compute; auto).
  split; [exact Hin|].
  destruct (dials_come_from_connect _ _ _ _ _ Hin) as [_ [Hsock [_ Hauth]]].
  split; assumption.
Defined.

(** A promise is rejected inside [connect] only where the constructor
    throws, and it is the promise of that call. *)
Lemma connect_rejects (w : World) (p : nat) :
  In (Rejected p) (effects ((let! q := connect in attachCatch q) w)) \/
  In (Rejected p) (effects ((let! _ := connect in ret tt) w)) ->
  constructorThrows w = true /\ p = length (promises w).
Proof.
  unfold bind. destruct (constructorThrows w) eqn:Hc.
  - rewrite connect_throws_spec by exact Hc. cbn beta iota zeta.
    unfold attachCatch, ret. cbn [promises set_promises].
    rewrite list_lookup_middle by reflexivity.
    unfold effects. cbn [snd app].
    intros [[H|[H|[H|[]]]]|[H|[H|[]]]]; try discriminate; injection H as <-; auto.
  - rewrite connect_spec by exact Hc. cbn beta iota zeta.
    unfold attachCatch, ret. cbn [promises].
    rewrite list_lookup_middle by reflexivity.
    unfold effects. cbn [snd app].
    intros [[H|[H|[]]]|[H|[H|[]]]]; discriminate.
Qed.

Lemma fireTimer_rejects (w : World) (id p : nat) :
  In (Rejected p) (effects (fireTimer id w)) ->
  constructorThrows w = true /\ p = length (promises w).
Proof.
  unfold fireTimer, bind at 1, world.
  destruct (timers w !! id) as [[rep delay a]|] eqn:Ht; [|intros []].
  cbn [repeating action].
  assert (Hcb : forall w', socks w' = socks w -> promises w' = promises w ->
            wsRejectsArguments w' = wsRejectsArguments w ->
            In (Rejected p) (effects (timerCallback a w')) ->
            constructorThrows w = true /\ p = length (promises w)).
  { intros w' Hs Hp Hr. destruct a; unfold timerCallback.
    - rewrite heartbeatTick_spec. unfold effects. cbn [snd].
      destruct (ws (gw w')); [|intros []].
      destruct (ReadyState_eqb _ _); [intros [H|[]]; discriminate | intros []].
    - rewrite reconnect_spec. unfold effects. cbn [snd].
      intros [H|[H|[]]]; discriminate.
    - intros Hin. destruct (connect_rejects w' p (or_introl Hin)) as [Hc ->].
      unfold constructorThrows in *. rewrite <- Hs, <- Hr, Hp. auto. }
  destruct rep; cbn [negb when].
  - unfold bind, ret. intros Hin. apply (Hcb w eq_refl eq_refl eq_refl).
    unfold effects in *. destruct (timerCallback a w) as [[r w2] e2]. exact Hin.
  - unfold bind, update. intros Hin.
    apply (Hcb (set_timers (delete id (timers w)) w) eq_refl eq_refl eq_refl).
    unfold effects in *. destruct (timerCallback a _) as [[r w2] e2]. exact Hin.
Qed.

(** X4. The owner hears from the gateway only for the matching event: the
    Ready callback runs, and a connect promise is fulfilled, only while a
    READY dispatch is handled; the Message callback only for a
    MESSAGE_CREATE dispatch; the Error callback only on a transport error;
    the Disconnect callback only on a close. A connect promise is rejected
    on a transport error, or inside [connect] itself (called by the owner
    or by a timer) where the WebSocket constructor throws: then it is the
    promise of that very call. *)
Theorem callbacks_follow_their_event (e : Event) (w : World) (eff : Effect) :
  In eff (effects (step e w)) ->
  match eff with
  | CallOnReady _ | Fulfilled _ => isDispatchOf "READY" e
  | CallOnMessage _ => isDispatchOf "MESSAGE_CREATE" e
  | CallOnError => isError e
  | Rejected p =>
      isError e \/
      ((e = ECallConnect \/ isTimer e) /\
       constructorThrows w = true /\ p = length (promises w))
  | CallOnDisconnect => isClose e
  | _ => True
  end.
Proof.
  intros Hin. pose proof (step_produces e w eff Hin) as Hby.
  destruct eff; try exact I; try exact Hby.
  destruct Hby as [Herr|Hconn]; [left; exact Herr | right].
  split; [exact Hconn|].
  destruct Hconn as [->|Htimer].
  - apply connect_rejects. right. exact Hin.
  - destruct e; try destruct Htimer. apply (fireTimer_rejects w id). exact Hin.
Qed.

Lemma callbacks_follow_their_event_witness :
  let w := fst (run [ECallConnect; EOpen 0; EMessage 0 (helloFrame 41250)]
                    (newWorld allCallbacks)) in
  In (Fulfilled 0) (effects (step (EMessage 0 (readyFrame 1 "s0")) w)) /\
  isDispatchOf "READY" (EMessage 0 (readyFrame 1 "s0")).
Proof.
  intros w.
  assert (Hin : In (Fulfilled 0) (effects (step (EMessage 0 (readyFrame 1 "s0")) w)))
    by (vm_compute; auto 10).
  split; [exact Hin|].
  exact (callbacks_follow_their_event _ _ _ Hin).
Defined.

(** X5. Timers are armed only for their cause: the heartbeat interval only
    while a Hello is handled; the fixed-delay timer only for an Invalid
    Session; the backoff timer only by a close, by a Reconnect request, or
    by a timer coming due (the fixed-delay timer of an Invalid Session). No
    heartbeat is ever armed as a one-shot timer. *)
Theorem timers_follow_their_cause (e : Event) (w : World) (eff : Effect) :
  In eff (effects (step e w)) ->
  match eff with
  | SetInterval _ _ a => a = DoHeartbeat /\ isFrame OpHello e
  | SetTimeout _ _ DoConnect => isTimer e \/ isFrame OpReconnect e \/ isClose e
  | SetTimeout _ _ DoReconnect => isFrame OpInvalidSession e
  | SetTimeout _ _ DoHeartbeat => False
  | _ => True
  end.
Proof.
  intros Hin. pose proof (step_produces e w eff Hin) as Hby.
  destruct eff; try exact I; exact Hby.
Qed.

Lemma timers_follow_their_cause_witness :
  let w := fst (run sessionEstablished (newWorld allCallbacks)) in
  In (SetTimeout 1 (JNum 1000) DoReconnect) (effects (step (EMessage 0 (opFrame 9)) w)) /\
  isFrame OpInvalidSession (EMessage 0 (opFrame 9)).
Proof.
  intros w.
  assert (Hin : In (SetTimeout 1 (JNum 1000) DoReconnect)
                   (effects (step (EMessage 0 (opFrame 9)) w)))
    by (vm_compute; auto 10).
  split; [exact Hin|].
  exact (timers_follow_their_cause _ _ _ Hin).
Defined.

(** ** The sequence number, in general *)

Lemma receive_latest (frames : list Frame) :
  forall w, sequence (gw (receive frames w)) =
            fold_left latestSequence frames (sequence (gw w)).
Proof.
  induction frames as [|data rest IH]; intros w; [reflexivity|].
  simpl. unfold receive in IH. rewrite IH. f_equal.
  destruct data as [|payload]; [reflexivity|].
  rewrite wsOnMessage_parsed_sequence. apply handlePayload_sequence.
Qed.

(** X6. The tracked sequence number is the [s] of the latest frame that
    carried a nonzero one, whatever came before: the handler does not
    compare it with the tracked value, so a smaller or repeated [s]
    replaces a larger one. *)
Theorem latest_nonzero_sequence_wins
    (w : World) (frames : list Frame) (payload : JVal) (s : Z) :
  getProp payload "s" = Some (JNum s) ->
  s <> 0 ->
  sequence (gw (receive (frames ++ [Parsed payload]) w)) = JNum s.
Proof.
  intros Hs Hne. rewrite receive_latest, fold_left_app. simpl.
  rewrite Hs. simpl. destruct (Z.eqb_spec s 0); [contradiction | reflexivity].
Qed.

Lemma latest_nonzero_sequence_wins_witness :
  getProp (JObj [("op", JNum 0); ("s", JNum 3)]) "s" = Some (JNum 3) /\
  sequence (gw (receive ([Parsed (JObj [("op", JNum 0); ("s", JNum 9)])]
                           ++ [Parsed (JObj [("op", JNum 0); ("s", JNum 3)])])
                        (newWorld allCallbacks))) = JNum 3.
Proof.
  split; [reflexivity|].
  apply latest_nonzero_sequence_wins; [reflexivity | lia].
Defined.

(** ** Exceptions *)

(** X7. No handler lets an exception out: an API call, a WebSocket event or
    a timer callback always completes normally. [handlePayload] itself does
    throw, for instance on a Hello without data or on a payload that is
    [null]; the message handler catches that, prints it and goes on. *)
Theorem handlers_never_throw (e : Event) (w : World) :
  completion (step e w) = Normal tt /\
  completion (handlePayload (JObj [("op", JNum 10)]) w) = Thrown /\
  completion (handlePayload JNull w) = Thrown /\
  effects (wsOnMessage (Parsed (JObj [("op", JNum 10)])) w) =
    [ Console false (LEvent JUndefined (JNum 10)); Console false LHello;
      Console true LParseFailed ].
Proof.
  split; [|repeat split].
  destruct (step_returns e w) as [[] H]. exact H.
Qed.

(** ** Hello *)

(** A Hello whose interval has no primitive value: the timer armed before
    is cleared, [setInterval] throws, and the handle the object holds is
    the one of the cleared timer. A Hello whose event type cannot be
    printed does not get as far as the switch. *)
Example hello_that_throws :
  let w := fst (run sessionEstablished (newWorld allCallbacks)) in
  let unarmed := JObj [("op", JNum 10);
                       ("d", JObj [("heartbeat_interval", JObj [("toString", JNum 1)])])] in
  let unprinted := JObj [("op", JNum 10); ("t", JObj [("toString", JNum 1)]);
                         ("d", JObj [("heartbeat_interval", JNum 30000)])] in
  effects (wsOnMessage (Parsed unarmed) w) =
    [ Console false (LEvent JUndefined (JNum 10)); Console false LHello; ClearInterval 0;
      Console true LParseFailed ] /\
  heartbeatInterval (gw (after (wsOnMessage (Parsed unarmed) w))) = Some 0%nat /\
  timers (after (wsOnMessage (Parsed unarmed) w)) !! 0%nat = None /\
  effects (wsOnMessage (Parsed unprinted) w) = [ Console true LParseFailed ].
Proof. vm_compute. repeat split. Qed.

(** X8. Handling a Hello whose data has a heartbeat interval (a frame whose
    event type, if any, can be printed, and whose interval has a primitive
    value): the heartbeat timer that is armed (if any) is cleared, one
    interval timer is armed at the interval of the payload and recorded as
    the heartbeat handle, and the Identify is sent on the current transport
    if and only if that transport is open; otherwise an error is printed
    and nothing is sent. *)
Theorem hello_rearms_heartbeat_and_identifies
    (w : World) (payload eventData intervalMs : JVal) :
  getProp payload "op" = Some (JNum 10) ->
  getProp payload "d" = Some eventData ->
  getProp eventData "heartbeat_interval" = Some intervalMs ->
  toPrimitiveThrows (payloadEventType payload) = false ->
  toPrimitiveThrows intervalMs = false ->
  let r := handlePayload payload w in
  completion r = Normal tt /\
  effects r =
    [ Console false (LEvent (payloadEventType payload) (JNum 10)); Console false LHello ]
      ++ match heartbeatInterval (gw w) with
         | Some h => [ClearInterval h]
         | None => []
         end
      ++ [ SetInterval (nextTimer w) intervalMs DoHeartbeat ]
      ++ (if isConnected w
          then [ Console false LSendingIdentify;
                 Send (default 0%nat (ws (gw w))) (identifyPayload (token (gw w))) ]
          else [ Console true LCannotIdentify ]) /\
  heartbeatInterval (gw (after r)) = Some (nextTimer w) /\
  timers (after r) =
    <[nextTimer w := mkTimer true intervalMs DoHeartbeat]>
      match heartbeatInterval (gw w) with
      | Some h => delete h (timers w)
      | None => timers w
      end.
Proof.
  intros Hop Hd Hint Hprint Harm r. subst r.
  destruct payload as [| | b | n | s | fields]; try discriminate Hop.
  unfold handlePayload, updateSequence, dispatchPayload, startHeartbeat, sendIdentify,
    setInterval, toPrimitive, armTimer, clearInterval, wsSend, prop, payloadEventType,
    isConnected, wsIsOpen, readyStateOf in *.
  rewrite Hop, Hd. cbn [getProp default] in *.
  assert (Hlog : toPrimitiveThrows
                   (if truthy (default JUndefined (assoc "t" fields))
                    then default JUndefined (assoc "t" fields) else JNum 10) = false)
    by (destruct (truthy _); [exact Hprint | reflexivity]).
  js_unfold. cbn [opcodeCase Z.eqb]. rewrite Hint, Hlog, Harm.
  destruct w as [g so ti nt pr rj].
  destruct g as [wso tok sq sid ru onr onm one ond att mx dl hb].
  destruct (truthy (default JUndefined (assoc "s" fields))), hb as [h|], wso as [sock|];
    simpl; try (destruct (ReadyState_eqb _ OPEN)); simpl; repeat split.
Qed.

Lemma hello_rearms_heartbeat_and_identifies_witness :
  let w := fst (run sessionEstablished (newWorld allCallbacks)) in
  let payload := JObj [("op", JNum 10); ("d", JObj [("heartbeat_interval", JNum 30000)])] in
  getProp payload "op" = Some (JNum 10) /\
  effects (handlePayload payload w) =
    [ Console false (LEvent JUndefined (JNum 10)); Console false LHello;
      ClearInterval 0; SetInterval 1 (JNum 30000) DoHeartbeat;
      Console false LSendingIdentify; Send 0 (identifyPayload "tok") ].
Proof.
  intros w payload. split; [reflexivity|].
  destruct (hello_rearms_heartbeat_and_identifies w payload
              (JObj [("heartbeat_interval", JNum 30000)]) (JNum 30000)
              eq_refl eq_refl eq_refl eq_refl eq_refl) as [_ [Heff _]].
  rewrite Heff. vm_compute. reflexivity.
Defined.

(** ** The backoff schedule of a whole run *)

Lemma backoffDelays_app (t1 t2 : list Effect) :
  backoffDelays (t1 ++ t2) = backoffDelays t1 ++ backoffDelays t2.
Proof.
  induction t1 as [|eff t1 IH]; [reflexivity|].
  destruct eff as [| | | | id delay [] | | | | | | | |]; simpl; rewrite IH; reflexivity.
Qed.

Lemma backoffDelays_none (t : list Effect) : Forall notBackoff t -> backoffDelays t = [].
Proof.
  induction 1 as [|eff t Heff _ IH]; [reflexivity|].
  destruct eff as [| | | | id delay [] | | | | | | | |]; simpl in *; try exact IH.
  destruct Heff.
Qed.

Lemma backoffSchedule_shift (base from : Z) (n1 n2 : nat) :
  forall k : nat,
    map (fun i => JNum (base * 2 ^ (from + Z.of_nat n1 + Z.of_nat i))) (seq k n2) =
    map (fun i => JNum (base * 2 ^ (from + Z.of_nat i))) (seq (k + n1) n2).
Proof.
  induction n2 as [|n2 IH]; intros k; [reflexivity|].
  simpl. rewrite (IH (S k)). f_equal. f_equal. f_equal. f_equal. lia.
Qed.

Lemma backoffSchedule_app (base from : Z) (n1 n2 : nat) :
  backoffSchedule base from n1 ++ backoffSchedule base (from + Z.of_nat n1) n2 =
    backoffSchedule base from (n1 + n2).
Proof.
  unfold backoffSchedule. rewrite seq_app, map_app. f_equal.
  apply backoffSchedule_shift.
Qed.

Lemma callReady_field {X} (f : FluxerGateway -> X) fn data :
  Keeps (field f) (callReady fn data).
Proof. induction fn as [given|p fn IH]; simpl; keeps. exact IH. Qed.

Lemma Schedules_quiet {A} (m : Js A) :
  Keeps (field reconnectAttempts) m -> Keeps (field reconnectDelay) m ->
  Emits notBackoff m -> Schedules m.
Proof.
  intros Ha Hd He w. exists 0%nat. specialize (Ha w). specialize (Hd w).
  unfold field in *. rewrite Ha, Hd, (backoffDelays_none _ (He w)).
  repeat split. simpl. lia.
Qed.

Lemma Schedules_bind {A B} (m : Js A) (k : A -> Js B) :
  Schedules m -> (forall a, Schedules (k a)) -> Schedules (bind m k).
Proof.
  intros Hm Hk w. destruct (Hm w) as [n1 [Hd1 [Ha1 Hs1]]].
  unfold bind, after, effects in *.
  destruct (m w) as [[[a|] w1] e1]; simpl in *; [|exists n1; auto].
  destruct (Hk a w1) as [n2 [Hd2 [Ha2 Hs2]]]. unfold after, effects in *.
  destruct (k a w1) as [[r w2] e2]; simpl in *.
  exists (n1 + n2)%nat. rewrite Hd2, Hd1, Ha2, Ha1. repeat split; [lia|].
  rewrite backoffDelays_app, Hs1, Hs2, Hd1, Ha1. apply backoffSchedule_app.
Qed.

Lemma Schedules_tryCatch (m h : Js unit) :
  Schedules m -> Schedules h -> Schedules (tryCatch m h).
Proof.
  intros Hm Hh w. destruct (Hm w) as [n1 [Hd1 [Ha1 Hs1]]].
  unfold tryCatch, after, effects in *.
  destruct (m w) as [[[a|] w1] e1]; simpl in *; [exists n1; auto|].
  destruct (Hh w1) as [n2 [Hd2 [Ha2 Hs2]]]. unfold after, effects in *.
  destruct (h w1) as [[r w2] e2]; simpl in *.
  exists (n1 + n2)%nat. rewrite Hd2, Hd1, Ha2, Ha1. repeat split; [lia|].
  rewrite backoffDelays_app, Hs1, Hs2, Hd1, Ha1. apply backoffSchedule_app.
Qed.

Lemma Schedules_reconnect : Schedules reconnect.
Proof.
  intros w. exists 1%nat. rewrite reconnect_spec. unfold after, effects. simpl.
  repeat split. unfold backoffSchedule. simpl.
  replace (reconnectAttempts (gw w) + 1 - 1) with (reconnectAttempts (gw w) + 0) by lia.
  reflexivity.
Qed.

Ltac keeps_all := solve [repeat first [apply callReady_field | keeps_step
    | apply setReadyState_field | apply newPromise_field | apply newWebSocket_field
    | apply resolve_field | apply reject_field | apply attachCatch_field
    | apply armTimer_field | apply clearInterval_field | apply wsClose_field ]].

Ltac schedules_step :=
  first
    [ apply Schedules_reconnect
    | (apply Schedules_quiet;
         [ keeps_all | keeps_all
         | solve [repeat first [(apply callReady_emits; simpl; solve [auto]) | emits_step];
                  simpl; auto] ])
    | apply Schedules_bind; [| intros ?]
    | apply Schedules_tryCatch
    | match goal with
      | |- Schedules (match ?x with _ => _ end) => destruct x
      | |- Schedules (if ?x then _ else _) => destruct x
      end ].

Lemma step_schedules (e : Event) : Schedules (step e).
Proof.
  destruct e; unfold step, connect, disconnect, wsOnOpen, wsOnMessage, wsOnError, wsOnClose,
    handleDisconnect, fireTimer, timerCallback, heartbeatTick, wsSend, handlePayload,
    updateSequence, dispatchPayload, startHeartbeat, sendIdentify, setTimeout, setInterval,
    wsSend, connect.
  all: repeat schedules_step.
Qed.

Lemma run_schedules (events : list Event) :
  forall w, exists n : nat,
    reconnectDelay (gw (fst (run events w))) = reconnectDelay (gw w) /\
    reconnectAttempts (gw (fst (run events w))) = reconnectAttempts (gw w) + Z.of_nat n /\
    backoffDelays (snd (run events w)) =
      backoffSchedule (reconnectDelay (gw w)) (reconnectAttempts (gw w)) n.
Proof.
  induction events as [|e rest IH]; intros w.
  - exists 0%nat. simpl. repeat split. lia.
  - destruct (step_schedules e w) as [n1 [Hd1 [Ha1 Hs1]]].
    destruct (IH (after (step e w))) as [n2 [Hd2 [Ha2 Hs2]]].
    simpl. destruct (run rest (after (step e w))) as [w' tr]. simpl in *.
    exists (n1 + n2)%nat. rewrite Hd2, Hd1, Ha2, Ha1. repeat split; [lia|].
    rewrite backoffDelays_app, Hs1, Hs2, Hd1, Ha1. apply backoffSchedule_app.
Qed.

(** X9. Over the whole life of a gateway object, whatever events arrive and
    in whatever order (successful sessions in between included, and whether
    the WebSocket constructor throws or not), the delays of the backoff
    timers it arms are 1000, 2000, 4000, ...: the i-th reconnect waits
    1000 * 2^(i-1), and the attempt counter is the number of reconnects so
    far. This is stated for the runs that schedule at most 1015
    reconnects: from the 1016th on the delay overflows the doubles the code
    computes with. *)
Theorem backoff_delays_double_over_a_run
    (options : FluxerGatewayOptions) (rejects : bool) (events : list Event) :
  (length (backoffDelays (snd (run events (newWorldIn rejects options)))) <= 1015)%nat ->
  reconnectAttempts (gw (fst (run events (newWorldIn rejects options)))) =
    Z.of_nat (length (backoffDelays (snd (run events (newWorldIn rejects options))))) /\
  backoffDelays (snd (run events (newWorldIn rejects options))) =
    map (fun i => JNum (1000 * 2 ^ Z.of_nat i))
        (seq 0 (length (backoffDelays (snd (run events (newWorldIn rejects options)))))).
Proof.
  intros _.
  destruct (run_schedules events (newWorldIn rejects options)) as [n [_ [Ha Hs]]].
  rewrite Hs, Ha. unfold backoffSchedule. rewrite length_map, length_seq.
  split; reflexivity.
Qed.

(** Two reconnects, around a session. *)
Lemma backoff_delays_double_over_a_run_witness :
  (length (backoffDelays (snd (run secondRetryConnected (newWorldIn false allCallbacks))))
     <= 1015)%nat /\
  backoffDelays (snd (run secondRetryConnected (newWorldIn false allCallbacks))) =
    [JNum 1000; JNum 2000].
Proof.
  assert (Hn : (length (backoffDelays
                   (snd (run secondRetryConnected (newWorldIn false allCallbacks))))
                <= 1015)%nat) by (vm_compute; lia).
  split; [exact Hn|].
  rewrite (proj2 (backoff_delays_double_over_a_run allCallbacks false secondRetryConnected Hn)).
  vm_compute. reflexivity.
Defined.

(** ** The bound on reconnects *)

Lemma setReadyState_timers sock st : Keeps timers (setReadyState sock st).
Proof. intros w. unfold setReadyState, update, after. simpl.
       destruct (socks w !! sock); reflexivity. Qed.

Lemma resolve_timers p : Keeps timers (resolve p).
Proof. intros w. unfold resolve, after.
       destruct (promises w !! p) as [[[b|] c]|]; reflexivity. Qed.

Lemma reject_timers p : Keeps timers (reject p).
Proof. intros w. unfold reject, after.
       destruct (promises w !! p) as [[[b|] c]|]; reflexivity. Qed.

Lemma attachCatch_timers p : Keeps timers (attachCatch p).
Proof. intros w. unfold attachCatch, update, after. simpl.
       destruct (promises w !! p) as [[st c]|]; reflexivity. Qed.

Lemma newWebSocket_timers p auth : Keeps timers (newWebSocket p auth).
Proof. intros w. unfold newWebSocket, after. destruct (constructorThrows w); reflexivity. Qed.

Ltac keeps_timers_step :=
  first [ keeps_step | apply setReadyState_timers | apply resolve_timers
        | apply reject_timers | apply attachCatch_timers | apply newWebSocket_timers
        | (intros ?; reflexivity) ].

Lemma callReady_timers fn data : Keeps timers (callReady fn data).
Proof. induction fn as [given|p fn IH]; simpl; repeat keeps_timers_step. exact IH. Qed.

Ltac keeps_timers := solve [repeat first [apply callReady_timers | keeps_timers_step]].

Section Arming.
Context (a0 : TimerAction).

Lemma ArmsNo_Keeps {A} (m : Js A) : Keeps timers m -> ArmsNo a0 m.
Proof. intros H w id t Ht _. rewrite (H w) in Ht. exact Ht. Qed.

Lemma ArmsNo_bind {A B} (m : Js A) (k : A -> Js B) :
  ArmsNo a0 m -> (forall a, ArmsNo a0 (k a)) -> ArmsNo a0 (bind m k).
Proof.
  intros Hm Hk w id t. specialize (Hm w id t). unfold bind, after in *.
  destruct (m w) as [[[a|] w1] e1]; simpl in *; [|exact Hm].
  specialize (Hk a w1 id t). unfold after in Hk.
  destruct (k a w1) as [[r w2] e2]; simpl in *. auto.
Qed.

Lemma ArmsNo_bind_ret {A B} (a : A) (k : A -> Js B) :
  ArmsNo a0 (k a) -> ArmsNo a0 (bind (ret a) k).
Proof.
  intros Hk w id t. specialize (Hk w id t). unfold bind, ret, after in *.
  destruct (k a w) as [[r w2] e2]. exact Hk.
Qed.

Lemma ArmsNo_tryCatch (m h : Js unit) :
  ArmsNo a0 m -> ArmsNo a0 h -> ArmsNo a0 (tryCatch m h).
Proof.
  intros Hm Hh w id t. specialize (Hm w id t). unfold tryCatch, after in *.
  destruct (m w) as [[[a|] w1] e1]; simpl in *; [exact Hm|].
  specialize (Hh w1 id t). unfold after in Hh.
  destruct (h w1) as [[r w2] e2]; simpl in *. auto.
Qed.

Lemma ArmsNo_clearInterval id : ArmsNo a0 (clearInterval id).
Proof.
  intros w id' t Ht _. unfold clearInterval, after in Ht. simpl in Ht.
  apply lookup_delete_Some in Ht. tauto.
Qed.

Lemma ArmsNo_delete id : ArmsNo a0 (update (fun w => set_timers (delete id (timers w)) w)).
Proof.
  intros w id' t Ht _. unfold update, after in Ht. simpl in Ht.
  apply lookup_delete_Some in Ht. tauto.
Qed.

Lemma ArmsNo_armTimer rep a delay : a <> a0 -> ArmsNo a0 (armTimer rep a delay).
Proof.
  intros Hne w id t Ht Ha. unfold armTimer, after in Ht. simpl in Ht.
  apply lookup_insert_Some in Ht. destruct Ht as [[_ <-]|[_ Ht]]; [|exact Ht].
  simpl in Ha. contradiction.
Qed.
End Arming.

Ltac armsno_step :=
  first
    [ (apply ArmsNo_Keeps; keeps_timers)
    | apply ArmsNo_clearInterval
    | apply ArmsNo_delete
    | (apply ArmsNo_armTimer; discriminate)
    | apply ArmsNo_bind; [| intros ?]
    | apply ArmsNo_tryCatch
    | match goal with
      | |- ArmsNo _ (match ?x with _ => _ end) => destruct x eqn:?
      | |- ArmsNo _ (if ?x then _ else _) => destruct x eqn:?
      | |- ArmsNo _ (when ?x _) => destruct x; unfold when
      end ].

Lemma Keeps_bind_throw {X A B} (f : World -> X) (k : A -> Js B) : Keeps f (bind throw k).
Proof. intros w. reflexivity. Qed.

Lemma handlePayload_quiet_attempts payload :
  payloadOpcode payload <> OpReconnect ->
  Keeps (field reconnectAttempts) (handlePayload payload).
Proof.
  intros Hq. unfold handlePayload, updateSequence, dispatchPayload.
  apply Keeps_bind; [keeps | intros _].
  apply Keeps_bind; [keeps | intros eventType].
  apply Keeps_bind; [keeps | intros eventData].
  unfold payloadOpcode in Hq. unfold prop at 1.
  destruct (getProp payload "op") as [opcode|]; [apply Keeps_bind_ret | apply Keeps_bind_throw].
  apply Keeps_bind; [keeps | intros _].
  destruct (opcodeCase opcode); try contradiction;
    unfold startHeartbeat, sendIdentify, setInterval, setTimeout, wsSend; keeps_all.
Qed.

Lemma handlePayload_quiet_timers payload :
  payloadOpcode payload <> OpInvalidSession ->
  ArmsNo DoReconnect (handlePayload payload).
Proof.
  intros Hq. unfold handlePayload, updateSequence, dispatchPayload.
  apply ArmsNo_bind; [repeat armsno_step | intros _].
  apply ArmsNo_bind; [repeat armsno_step | intros eventType].
  apply ArmsNo_bind; [repeat armsno_step | intros eventData].
  unfold payloadOpcode in Hq. unfold prop at 1.
  destruct (getProp payload "op") as [opcode|];
    [apply ArmsNo_bind_ret | apply ArmsNo_Keeps; apply Keeps_bind_throw].
  apply ArmsNo_bind; [repeat armsno_step | intros _].
  destruct (opcodeCase opcode); try contradiction;
    unfold startHeartbeat, sendIdentify, reconnect, setInterval, setTimeout, wsSend;
    repeat armsno_step.
Qed.

Lemma step_keeps_maximum (e : Event) : Keeps (field maxReconnectAttempts) (step e).
Proof.
  destruct e; unfold step, connect, disconnect, wsOnOpen, wsOnMessage, wsOnError, wsOnClose,
    handleDisconnect, fireTimer, timerCallback, heartbeatTick, wsSend, handlePayload,
    updateSequence, dispatchPayload, startHeartbeat, sendIdentify, reconnect, setTimeout,
    setInterval, wsSend, connect.
  all: keeps_all.
Qed.

Lemma step_arms_no_reconnect (e : Event) :
  serverQuiet e = true -> ArmsNo DoReconnect (step e).
Proof.
  intros Hq.
  destruct e as [| | sock | sock data | sock | sock code reason | id]; unfold step.
  - unfold connect. repeat armsno_step.
  - unfold disconnect, wsClose. repeat armsno_step.
  - unfold wsOnOpen. repeat armsno_step.
  - apply ArmsNo_bind; [repeat armsno_step | intros w0].
    destruct (socks w0 !! sock); [|repeat armsno_step].
    unfold wsOnMessage. apply ArmsNo_tryCatch; [|repeat armsno_step].
    destruct data as [|payload]; [repeat armsno_step|].
    apply handlePayload_quiet_timers. simpl in Hq.
    destruct (payloadOpcode payload); congruence.
  - unfold wsOnError. repeat armsno_step.
  - unfold wsOnClose, handleDisconnect, reconnect, setTimeout. repeat armsno_step.
  - unfold fireTimer, timerCallback, heartbeatTick, wsSend, reconnect, setTimeout, connect.
    repeat armsno_step.
Qed.

Lemma step_within_maximum (e : Event) (w : World) :
  serverQuiet e = true -> withinMaximum w -> withinMaximum (after (step e w)).
Proof.
  intros Hq [Hle Hnone]. split.
  - pose proof (step_keeps_maximum e w) as Hmax. unfold field in Hmax. rewrite Hmax.
    destruct e as [| | sock | sock data | sock | sock code reason | id].
    + assert (H : Keeps (field reconnectAttempts) (step ECallConnect))
        by (unfold step, connect; keeps_all).
      specialize (H w). unfold field in H. rewrite H. exact Hle.
    + assert (H : Keeps (field reconnectAttempts) (step ECallDisconnect))
        by (unfold step, disconnect; keeps_all).
      specialize (H w). unfold field in H. rewrite H. exact Hle.
    + assert (H : Keeps (field reconnectAttempts) (step (EOpen sock)))
        by (unfold step, wsOnOpen; keeps_all).
      specialize (H w). unfold field in H. rewrite H. exact Hle.
    + assert (H : Keeps (field reconnectAttempts) (step (EMessage sock data))).
      { unfold step. apply Keeps_bind; [keeps | intros w0].
        destruct (socks w0 !! sock); [|keeps].
        unfold wsOnMessage. apply Keeps_tryCatch; [|keeps].
        destruct data as [|payload]; [keeps|].
        apply handlePayload_quiet_attempts. simpl in Hq.
        destruct (payloadOpcode payload); congruence. }
      specialize (H w). unfold field in H. rewrite H. exact Hle.
    + assert (H : Keeps (field reconnectAttempts) (step (EError sock)))
        by (unfold step, wsOnError; keeps_all).
      specialize (H w). unfold field in H. rewrite H. exact Hle.
    + destruct (socks w !! sock) as [s|] eqn:Hs.
      * rewrite (step_close w sock s code reason Hs).
        set (w1 := set_socks _ w).
        destruct (Z.lt_ge_cases (reconnectAttempts (gw w1)) (maxReconnectAttempts (gw w1)))
          as [Hlt|Hge].
        -- rewrite (wsOnClose_retries w1 code reason Hlt). unfold after. subst w1.
           simpl in *. lia.
        -- rewrite (wsOnClose_exhausted w1 code reason Hge). unfold after. subst w1.
           simpl in *. lia.
      * unfold step, bind, world, after. rewrite Hs. simpl. exact Hle.
    + unfold step, fireTimer, bind at 1, world.
      destruct (timers w !! id) as [[rep delay a]|] eqn:Ht; [|exact Hle].
      cbn [repeating action].
      assert (Ha : a <> DoReconnect) by (exact (Hnone id _ Ht)).
      assert (H : Keeps (field reconnectAttempts)
                    (when (negb rep) (update (fun w => set_timers (delete id (timers w)) w)) ;;;
                     timerCallback a)).
      { destruct a; try contradiction;
          unfold timerCallback, heartbeatTick, wsSend, connect; keeps_all. }
      specialize (H w). unfold field, after in *.
      destruct ((when (negb rep) _ ;;; timerCallback a) w) as [[r w2] e2].
      simpl in *. rewrite H. exact Hle.
  - intros id t Ht Ha.
    apply (Hnone id t); [|exact Ha].
    exact (step_arms_no_reconnect e Hq w id t Ht Ha).
Qed.

Lemma run_within_maximum (events : list Event) :
  forall w, forallb serverQuiet events = true -> withinMaximum w ->
            withinMaximum (fst (run events w)).
Proof.
  induction events as [|e rest IH]; intros w Hq Hw; [exact Hw|].
  simpl in Hq. apply andb_prop in Hq as [He Hrest].
  simpl. specialize (IH (after (step e w)) Hrest (step_within_maximum e w He Hw)).
  destruct (run rest (after (step e w))) as [w' tr]. exact IH.
Qed.

(** X10. As long as the server sends no Reconnect request and no Invalid
    Session, a gateway object schedules at most five reconnects in its
    whole life, successful sessions in between included: the attempt
    counter never passes the maximum and at most five backoff timers are
    armed. *)
Theorem at_most_five_reconnects_without_server_requests
    (options : FluxerGatewayOptions) (events : list Event) :
  forallb serverQuiet events = true ->
  reconnectAttempts (gw (fst (run events (newWorld options)))) <= 5 /\
  (length (backoffDelays (snd (run events (newWorld options)))) <= 5)%nat.
Proof.
  intros Hq.
  assert (H0 : withinMaximum (newWorld options)).
  { split; [simpl; lia|]. intros id t Ht. simpl in Ht. rewrite lookup_empty in Ht.
    discriminate. }
  destruct (run_within_maximum events (newWorld options) Hq H0) as [Hle _].
  assert (Hmax : maxReconnectAttempts (gw (fst (run events (newWorld options)))) = 5).
  { assert (G : forall evs w, maxReconnectAttempts (gw (fst (run evs w))) =
                              maxReconnectAttempts (gw w)).
    { induction evs as [|e rest IH]; intros w; [reflexivity|].
      simpl. specialize (IH (after (step e w))).
      destruct (run rest (after (step e w))) as [w' tr]. simpl in *.
      rewrite IH. apply (step_keeps_maximum e w). }
    rewrite G. reflexivity. }
  destruct (run_schedules events (newWorld options)) as [n [_ [Ha Hs]]].
  rewrite Hmax in Hle. split; [exact Hle|].
  rewrite Hs. unfold backoffSchedule. rewrite length_map, length_seq.
  rewrite Ha in Hle. simpl in Hle. lia.
Qed.

Lemma at_most_five_reconnects_without_server_requests_witness :
  forallb serverQuiet (fifthRetryConnected ++ [EClose 5 1006 ""]) = true /\
  reconnectAttempts
    (gw (fst (run (fifthRetryConnected ++ [EClose 5 1006 ""]) (newWorld allCallbacks)))) <= 5.
Proof.
  assert (Hq : forallb serverQuiet (fifthRetryConnected ++ [EClose 5 1006 ""]) = true)
    by (vm_compute; reflexivity).
  split; [exact Hq|].
  exact (proj1 (at_most_five_reconnects_without_server_requests allCallbacks _ Hq)).
Defined.

(** ** The heartbeat timer *)

Section HeartbeatTimer.
Context (strict : bool).

Lemma heartbeatOk_stop (ti : gmap nat Timer) (nt h : nat) :
  heartbeatOk strict (ti, nt, Some h) -> heartbeatOk strict (delete h ti, nt, None).
Proof.
  intros [Hfresh [Honly Harmed]]. simpl in *. split; [|split]; simpl.
  - intros id Hge. apply lookup_delete_None. right. auto.
  - intros id t Hl Ha. apply lookup_delete_Some in Hl as [Hne Hl].
    destruct (Honly id t Hl Ha) as [[= ->] _]. contradiction.
  - intros _ h' [=].
Qed.

Lemma heartbeatOk_start (ti : gmap nat Timer) (nt : nat) (hb : option nat) (delay : JVal) :
  heartbeatOk strict (ti, nt, hb) ->
  heartbeatOk strict (<[nt := mkTimer true delay DoHeartbeat]>
                        (match hb with Some h => delete h ti | None => ti end),
                      S nt, Some nt).
Proof.
  intros [Hfresh [Honly Harmed]]. simpl in *.
  set (ti' := match hb with Some h => delete h ti | None => ti end).
  assert (Hsub : forall id t, ti' !! id = Some t -> ti !! id = Some t).
  { intros id t. subst ti'. destruct hb; [|auto].
    intros H. apply lookup_delete_Some in H. tauto. }
  assert (Hnohb : forall id t, ti' !! id = Some t -> action t <> DoHeartbeat).
  { intros id t Hl Ha. destruct (Honly id t (Hsub _ _ Hl) Ha) as [Hhb _].
    subst ti'. rewrite Hhb in Hl. rewrite lookup_delete_eq in Hl. discriminate. }
  split; [|split]; simpl.
  - intros id Hge. rewrite lookup_insert_ne by lia.
    destruct (ti' !! id) as [t|] eqn:Hl; [|reflexivity].
    apply Hsub in Hl. rewrite Hfresh in Hl by lia. discriminate.
  - intros id t Hl Ha. apply lookup_insert_Some in Hl as [[<- <-]|[_ Hl]]; [auto|].
    destruct (Hnohb _ _ Hl Ha).
  - intros _ h [= <-]. eexists. split; [apply lookup_insert_eq | reflexivity].
Qed.

(** [startHeartbeat] as far as a [setInterval] that throws: the recorded
    timer is cleared, the record stays. *)
Lemma heartbeatOk_clear (ti : gmap nat Timer) (nt : nat) (hb : option nat) :
  strict = false ->
  heartbeatOk strict (ti, nt, hb) ->
  heartbeatOk strict (match hb with Some h => delete h ti | None => ti end, nt, hb).
Proof.
  intros Hs [Hfresh [Honly Harmed]]. simpl in *.
  destruct hb as [h|]; [|exact (conj Hfresh (conj Honly Harmed))].
  split; [|split]; simpl.
  - intros id Hge. apply lookup_delete_None. right. auto.
  - intros id t Hl Ha. apply lookup_delete_Some in Hl as [Hne Hl].
    destruct (Honly id t Hl Ha) as [[= ->] _]. contradiction.
  - rewrite Hs. discriminate.
Qed.

Lemma heartbeatOk_arm (ti : gmap nat Timer) (nt : nat) (hb : option nat)
    (rep : bool) (delay : JVal) (a : TimerAction) :
  a <> DoHeartbeat ->
  heartbeatOk strict (ti, nt, hb) ->
  heartbeatOk strict (<[nt := mkTimer rep delay a]> ti, S nt, hb).
Proof.
  intros Hne [Hfresh [Honly Harmed]]. simpl in *. split; [|split]; simpl.
  - intros id Hge. rewrite lookup_insert_ne by lia. apply Hfresh. lia.
  - intros id t Hl Ha. apply lookup_insert_Some in Hl as [[_ <-]|[_ Hl]]; [contradiction|].
    exact (Honly _ _ Hl Ha).
  - intros Hs h Hh. destruct (Harmed Hs h Hh) as [t [Hl Ha]].
    exists t. split; [|exact Ha]. rewrite lookup_insert_ne; [exact Hl|].
    intros <-. rewrite Hfresh in Hl by lia. discriminate.
Qed.

Lemma heartbeatOk_spend (ti : gmap nat Timer) (nt : nat) (hb : option nat)
    (id : nat) (t : Timer) :
  ti !! id = Some t -> repeating t = false ->
  heartbeatOk strict (ti, nt, hb) ->
  heartbeatOk strict (delete id ti, nt, hb).
Proof.
  intros Ht Hrep [Hfresh [Honly Harmed]]. simpl in *. split; [|split]; simpl.
  - intros id' Hge. apply lookup_delete_None. right. auto.
  - intros id' t' Hl Ha. apply lookup_delete_Some in Hl as [_ Hl].
    exact (Honly _ _ Hl Ha).
  - intros Hs h Hh. destruct (Harmed Hs h Hh) as [t' [Hl Ha]].
    exists t'. split; [|exact Ha]. apply lookup_delete_Some. split; [|exact Hl].
    intros <-. rewrite Ht in Hl. injection Hl as <-.
    destruct (Honly _ _ Ht Ha) as [_ Hr]. congruence.
Qed.
End HeartbeatTimer.

Lemma setReadyState_timerView sock st : Keeps timerView (setReadyState sock st).
Proof. intros w. unfold setReadyState, update, after. simpl.
       destruct (socks w !! sock); reflexivity. Qed.

Lemma resolve_timerView p : Keeps timerView (resolve p).
Proof. intros w. unfold resolve, after.
       destruct (promises w !! p) as [[[b|] c]|]; reflexivity. Qed.

Lemma reject_timerView p : Keeps timerView (reject p).
Proof. intros w. unfold reject, after.
       destruct (promises w !! p) as [[[b|] c]|]; reflexivity. Qed.

Lemma attachCatch_timerView p : Keeps timerView (attachCatch p).
Proof. intros w. unfold attachCatch, after.
       destruct (promises w !! p) as [[st c]|]; reflexivity. Qed.

Lemma newWebSocket_timerView p auth : Keeps timerView (newWebSocket p auth).
Proof. intros w. unfold newWebSocket, after. destruct (constructorThrows w); reflexivity. Qed.

Ltac keeps_view_step :=
  first [ keeps_step | apply setReadyState_timerView | apply resolve_timerView
        | apply reject_timerView | apply attachCatch_timerView | apply newWebSocket_timerView
        | (intros ?; reflexivity) ].

Lemma callReady_timerView fn data : Keeps timerView (callReady fn data).
Proof. induction fn as [given|p fn IH]; simpl; repeat keeps_view_step. exact IH. Qed.

Ltac keeps_view := solve [repeat first [apply callReady_timerView | keeps_view_step]].

Section Preservation.
Context (I : World -> Prop).

Lemma Preserves_bind {A B} (m : Js A) (k : A -> Js B) :
  Preserves I m -> (forall a, Preserves I (k a)) -> Preserves I (bind m k).
Proof.
  intros Hm Hk w Hw. specialize (Hm w Hw). unfold bind, after in *.
  destruct (m w) as [[[a|] w1] e1]; simpl in *; [|exact Hm].
  specialize (Hk a w1 Hm). unfold after in Hk.
  destruct (k a w1) as [[r w2] e2]; simpl in *. exact Hk.
Qed.

Lemma Preserves_bind_ret {A B} (a : A) (k : A -> Js B) :
  Preserves I (k a) -> Preserves I (bind (ret a) k).
Proof.
  intros Hk w Hw. specialize (Hk w Hw). unfold bind, ret, after in *.
  destruct (k a w) as [[r w2] e2]. exact Hk.
Qed.

Lemma Preserves_bind_throw {A B} (k : A -> Js B) : Preserves I (bind throw k).
Proof. intros w Hw. exact Hw. Qed.

Lemma Preserves_tryCatch (m h : Js unit) :
  Preserves I m -> Preserves I h -> Preserves I (tryCatch m h).
Proof.
  intros Hm Hh w Hw. specialize (Hm w Hw). unfold tryCatch, after in *.
  destruct (m w) as [[[a|] w1] e1]; simpl in *; [exact Hm|].
  specialize (Hh w1 Hm). unfold after in Hh.
  destruct (h w1) as [[r w2] e2]; simpl in *. exact Hh.
Qed.
End Preservation.

Section HeartbeatInvariant.
Context (strict : bool).

Lemma Preserves_Keeps {A} (m : Js A) :
  Keeps timerView m -> Preserves (heartbeatArmed strict) m.
Proof. intros H w Hw. unfold heartbeatArmed. rewrite (H w). exact Hw. Qed.

(** The start of [handleDisconnect] and of [disconnect]: the heartbeat
    timer is cleared and forgotten. *)
Lemma Preserves_stop {B} (k : unit -> Js B) :
  (forall u, Preserves (heartbeatArmed strict) (k u)) ->
  Preserves (heartbeatArmed strict)
    (let! g := this in
     bind match heartbeatInterval g with
          | Some id => clearInterval id ;;; assign (set_heartbeatInterval None)
          | None => ret tt
          end k).
Proof.
  intros Hk w Hw. unfold bind at 1, this. cbn beta iota.
  destruct (heartbeatInterval (gw w)) as [h|] eqn:Hh.
  - assert (H1 : heartbeatArmed strict (stopHeartbeat w)).
    { unfold heartbeatArmed, timerView, stopHeartbeat in *. rewrite Hh in *. simpl.
      apply heartbeatOk_stop. exact Hw. }
    specialize (Hk tt _ H1). unfold stopHeartbeat in Hk. rewrite Hh in Hk.
    unfold bind, clearInterval, assign, after in *. simpl in *.
    destruct (k tt _) as [[r w2] e2]. exact Hk.
  - specialize (Hk tt w Hw). unfold bind, ret, after in *. simpl.
    destruct (k tt w) as [[r w2] e2]. exact Hk.
Qed.

(** [startHeartbeat]: where [setInterval] throws, the timer that was armed
    is cleared already and its handle is left behind. *)
Lemma Preserves_startHeartbeat intervalMs :
  (strict = true -> toPrimitiveThrows intervalMs = false) ->
  Preserves (heartbeatArmed strict) (startHeartbeat intervalMs).
Proof.
  intros Hvalue w Hw. unfold heartbeatArmed, timerView in *.
  unfold startHeartbeat, setInterval, toPrimitive.
  destruct (toPrimitiveThrows intervalMs) eqn:Hthrows.
  - assert (Hs : strict = false) by (destruct strict; [discriminate (Hvalue eq_refl) | reflexivity]).
    pose proof (heartbeatOk_clear strict _ _ _ Hs Hw) as H.
    unfold bind, this, clearInterval, throw, after.
    destruct (heartbeatInterval (gw w)) as [h|] eqn:Hh; simpl; rewrite ?Hh; exact H.
  - pose proof (heartbeatOk_start strict _ _ _ intervalMs Hw) as H.
    unfold bind, this, clearInterval, armTimer, assign, ret, after.
    destruct (heartbeatInterval (gw w)) as [h|]; simpl; exact H.
Qed.

Lemma Preserves_armTimer rep a delay :
  a <> DoHeartbeat -> Preserves (heartbeatArmed strict) (armTimer rep a delay).
Proof.
  intros Hne w Hw. unfold heartbeatArmed, timerView in *.
  exact (heartbeatOk_arm strict _ _ _ rep delay a Hne Hw).
Qed.
End HeartbeatInvariant.

Ltac preserves_step :=
  first
    [ apply Preserves_stop; intros ?
    | (apply Preserves_Keeps; keeps_view)
    | (apply Preserves_armTimer; discriminate)
    | apply Preserves_bind; [| intros ?]
    | apply Preserves_tryCatch
    | match goal with
      | |- Preserves _ (match ?x with _ => _ end) => destruct x
      | |- Preserves _ (if ?x then _ else _) => destruct x
      | |- Preserves _ (when ?x _) => destruct x; unfold when
      end ].

Lemma timerCallback_heartbeatArmed strict a :
  Preserves (heartbeatArmed strict) (timerCallback a).
Proof.
  destruct a; unfold timerCallback, heartbeatTick, wsSend, reconnect, setTimeout, connect;
    repeat preserves_step.
Qed.

Lemma fireTimer_heartbeatArmed strict id : Preserves (heartbeatArmed strict) (fireTimer id).
Proof.
  intros w Hw. unfold fireTimer, bind at 1, world.
  destruct (timers w !! id) as [t|] eqn:Ht; [|exact Hw].
  pose proof (timerCallback_heartbeatArmed strict (action t)) as Hcb.
  destruct (repeating t) eqn:Hrep; cbn [negb when].
  - specialize (Hcb w Hw). unfold bind, ret, after in *.
    destruct (timerCallback (action t) w) as [[r w2] e2]. exact Hcb.
  - assert (H1 : heartbeatArmed strict (set_timers (delete id (timers w)) w)).
    { unfold heartbeatArmed, timerView in *. simpl.
      exact (heartbeatOk_spend strict _ _ _ id t Ht Hrep Hw). }
    specialize (Hcb _ H1). unfold bind, update, after in *.
    destruct (timerCallback (action t) _) as [[r w2] e2]. exact Hcb.
Qed.

Lemma handlePayload_heartbeatArmed strict (payload : JVal) :
  (strict = true -> payloadOpcode payload = OpHello ->
   toPrimitiveThrows (helloInterval payload) = false) ->
  Preserves (heartbeatArmed strict) (handlePayload payload).
Proof.
  intros Hvalue. unfold handlePayload, updateSequence.
  apply Preserves_bind; [repeat preserves_step | intros _].
  unfold dispatchPayload, prop, payloadOpcode, helloInterval in *.
  destruct (getProp payload "t") as [eventType|];
    [apply Preserves_bind_ret | apply Preserves_bind_throw].
  destruct (getProp payload "d") as [eventData|];
    [apply Preserves_bind_ret | apply Preserves_bind_throw].
  destruct (getProp payload "op") as [opcode|];
    [apply Preserves_bind_ret | apply Preserves_bind_throw].
  apply Preserves_bind; [repeat preserves_step | intros _].
  apply Preserves_bind; [repeat preserves_step | intros _].
  destruct (opcodeCase opcode) eqn:Hcase.
  - apply Preserves_bind; [repeat preserves_step | intros _].
    destruct (getProp eventData "heartbeat_interval") as [intervalMs|];
      [apply Preserves_bind_ret | apply Preserves_bind_throw].
    apply Preserves_bind; [|intros _; unfold sendIdentify, wsSend; repeat preserves_step].
    apply Preserves_startHeartbeat. intros Hs. exact (Hvalue Hs eq_refl).
  - repeat preserves_step.
  - repeat preserves_step.
  - unfold reconnect, setTimeout. repeat preserves_step.
  - unfold setTimeout. repeat preserves_step.
  - repeat preserves_step.
Qed.

Lemma step_heartbeatArmed strict (e : Event) :
  (strict = true -> intervalHasValue e = true) ->
  Preserves (heartbeatArmed strict) (step e).
Proof.
  intros Hvalue.
  destruct e as [| | sock | sock data | sock | sock code reason | id]; unfold step.
  - unfold connect. repeat preserves_step.
  - unfold disconnect, wsClose. repeat preserves_step.
  - unfold wsOnOpen. repeat preserves_step.
  - apply Preserves_bind; [repeat preserves_step | intros w0].
    destruct (socks w0 !! sock); [|repeat preserves_step].
    unfold wsOnMessage. apply Preserves_tryCatch; [|repeat preserves_step].
    destruct data as [|payload]; [repeat preserves_step|].
    apply handlePayload_heartbeatArmed. intros Hs Hhello.
    specialize (Hvalue Hs). simpl in Hvalue. rewrite Hhello in Hvalue.
    apply negb_true_iff. exact Hvalue.
  - unfold wsOnError. repeat preserves_step.
  - unfold wsOnClose, handleDisconnect, reconnect, setTimeout. repeat preserves_step.
  - apply fireTimer_heartbeatArmed.
Qed.

Lemma run_heartbeatArmed strict (events : list Event) :
  (strict = true -> forallb intervalHasValue events = true) ->
  forall w, heartbeatArmed strict w -> heartbeatArmed strict (fst (run events w)).
Proof.
  induction events as [|e rest IH]; intros Hvalue w Hw; [exact Hw|].
  assert (He : strict = true -> intervalHasValue e = true)
    by (intros Hs; specialize (Hvalue Hs); simpl in Hvalue;
        apply andb_prop in Hvalue; tauto).
  assert (Hrest : strict = true -> forallb intervalHasValue rest = true)
    by (intros Hs; specialize (Hvalue Hs); simpl in Hvalue;
        apply andb_prop in Hvalue; tauto).
  simpl. specialize (IH Hrest (after (step e w)) (step_heartbeatArmed strict e He w Hw)).
  destruct (run rest (after (step e w))) as [w' tr]. exact IH.
Qed.

(** A second Hello, whose interval has no primitive value, leaves the
    object with the handle of a timer that is no longer armed. *)
Example stale_heartbeat_handle :
  let hello := EMessage 0 (Parsed (JObj [("op", JNum 10);
                 ("d", JObj [("heartbeat_interval", JObj [("toString", JNum 1)])])])) in
  let w := fst (run (sessionEstablished ++ [hello]) (newWorld allCallbacks)) in
  intervalHasValue hello = false /\
  heartbeatInterval (gw w) = Some 0%nat /\
  timers w !! 0%nat = None.
Proof. vm_compute. repeat split. Qed.

(** X11. At any moment in the life of a gateway object (whether the
    WebSocket constructor throws or not) at most one heartbeat timer is
    armed, and it is the one whose handle the object
    holds: a Hello re-arms without leaving the old timer behind, and a close
    or [disconnect] leaves none. Conversely, as long as no Hello has come
    with an interval that has no primitive value (on which [setInterval]
    throws after the old timer is cleared), the handle the object holds is
    an armed heartbeat interval. *)
Theorem one_heartbeat_timer_at_most
    (options : FluxerGatewayOptions) (rejects : bool) (events : list Event) :
  let w := fst (run events (newWorldIn rejects options)) in
  (forall id t, timers w !! id = Some t -> action t = DoHeartbeat ->
                heartbeatInterval (gw w) = Some id) /\
  (forall id1 id2 t1 t2,
      timers w !! id1 = Some t1 -> action t1 = DoHeartbeat ->
      timers w !! id2 = Some t2 -> action t2 = DoHeartbeat -> id1 = id2) /\
  (forallb intervalHasValue events = true ->
   forall h, heartbeatInterval (gw w) = Some h ->
             exists delay, timers w !! h = Some (mkTimer true delay DoHeartbeat)).
Proof.
  intros w.
  assert (H0 : forall strict, heartbeatArmed strict (newWorldIn rejects options)).
  { intros strict. split; [|split]; simpl.
    - intros id _. apply lookup_empty.
    - intros id t Ht. rewrite lookup_empty in Ht. discriminate.
    - intros _ h [=]. }
  assert (Hall : heartbeatArmed false w)
    by (apply run_heartbeatArmed; [discriminate | apply H0]).
  destruct Hall as [_ [Honly _]]. simpl in Honly.
  split; [|split].
  - intros id t Hl Ha. exact (proj1 (Honly id t Hl Ha)).
  - intros id1 id2 t1 t2 H1 A1 H2 A2.
    destruct (Honly _ _ H1 A1) as [E1 _]. destruct (Honly _ _ H2 A2) as [E2 _].
    congruence.
  - intros Hvalue h Hh.
    assert (Hstrict : heartbeatArmed true w)
      by (apply run_heartbeatArmed; [intros _; exact Hvalue | apply H0]).
    destruct Hstrict as [_ [_ Harmed]]. simpl in Harmed.
    destruct (Harmed eq_refl h Hh) as [t [Hl Ha]].
    destruct (Honly _ _ Hl Ha) as [_ Hrep].
    destruct t as [rep delay a]. simpl in *. subst. exists delay. exact Hl.
Qed.

(** ** READY and the connect promises *)

Lemma readyCalls_app t1 t2 : readyCalls (t1 ++ t2) = readyCalls t1 ++ readyCalls t2.
Proof. induction t1 as [|[] t1 IH]; simpl; rewrite ?IH; reflexivity. Qed.

Lemma fulfilledIn_app t1 t2 : fulfilledIn (t1 ++ t2) = fulfilledIn t1 ++ fulfilledIn t2.
Proof. induction t1 as [|[] t1 IH]; simpl; rewrite ?IH; reflexivity. Qed.

Lemma resolve_spec (p : nat) (w : World) :
  completion (resolve p w) = Normal tt /\
  gw (after (resolve p w)) = gw w /\
  readyCalls (effects (resolve p w)) = [] /\
  ~ pending (after (resolve p w)) p /\
  (forall q, pending (after (resolve p w)) q -> pending w q) /\
  (forall q, pending w q ->
             pending (after (resolve p w)) q \/ In q (fulfilledIn (effects (resolve p w)))) /\
  (forall q, In q (fulfilledIn (effects (resolve p w))) -> q = p /\ pending w p).
Proof.
  unfold resolve, completion, after, effects, pending.
  destruct (promises w !! p) as [[[b|] c]|] eqn:Hp; simpl.
  - repeat split; try tauto. intros [c' H]. rewrite Hp in H. discriminate.
  - assert (Hlt : (p < length (promises w))%nat) by (apply lookup_lt_is_Some; eauto).
    repeat split.
    + intros [c' H]. rewrite list_lookup_insert_eq in H by exact Hlt. discriminate.
    + intros q [c' H]. destruct (decide (p = q)) as [<-|Hne]; [eauto|].
      rewrite list_lookup_insert_ne in H by exact Hne. eauto.
    + intros q [c' H]. destruct (decide (p = q)) as [<-|Hne]; [right; left; reflexivity|].
      left. exists c'. rewrite list_lookup_insert_ne by exact Hne. exact H.
    + destruct H as [<-|[]]. reflexivity.
    + destruct H as [<-|[]]. eauto.
  - repeat split; try tauto. intros [c' H]. rewrite Hp in H. discriminate.
Qed.

(** What the call of [this.onReady] does: the callback of the owner runs
    once, whatever the number of wrappers, and every wrapper's promise is
    settled: those still pending are fulfilled. *)
Lemma callReady_spec (fn : ReadyFn) (data : JVal) :
  forall w,
    completion (callReady fn data w) = Normal tt /\
    gw (after (callReady fn data w)) = gw w /\
    readyCalls (effects (callReady fn data w)) = (if readyGiven fn then [data] else []) /\
    (forall p, In p (wrappedPromises fn) -> ~ pending (after (callReady fn data w)) p) /\
    (forall q, pending (after (callReady fn data w)) q -> pending w q) /\
    (forall q, pending w q ->
               pending (after (callReady fn data w)) q \/
               In q (fulfilledIn (effects (callReady fn data w)))) /\
    (forall q, In q (fulfilledIn (effects (callReady fn data w))) ->
               In q (wrappedPromises fn) /\ pending w q).
Proof.
  induction fn as [given|p fn IH]; intros w.
  - simpl. destruct given; unfold completion, after, effects; simpl;
      repeat split; try tauto.
  - simpl. unfold bind at 1, emit. cbn beta iota. unfold bind.
    destruct (IH w) as [Hc [Hg [Hr [Hs [Hm [Hf Hi]]]]]].
    unfold completion, after, effects in *.
    destruct (callReady fn data w) as [[c1 w1] e1]. simpl in *. subst c1.
    destruct (resolve_spec p w1) as [Rc [Rg [Rr [Rs [Rm [Rf Ri]]]]]].
    unfold completion, after, effects in *.
    destruct (resolve p w1) as [[c2 w2] e2]. simpl in *.
    rewrite readyCalls_app, fulfilledIn_app, Rr, Hr, app_nil_r.
    split; [exact Rc|]. split; [congruence|]. split; [reflexivity|].
    split; [|split; [|split]].
    + intros q [<-|Hq]; [exact Rs|]. intros Hp. exact (Hs q Hq (Rm q Hp)).
    + intros q Hq. exact (Hm q (Rm q Hq)).
    + intros q Hq. destruct (Hf q Hq) as [H1|H1].
      * destruct (Rf q H1) as [H2|H2]; [left; exact H2|].
        right. apply in_or_app. right. exact H2.
      * right. apply in_or_app. left. exact H1.
    + intros q Hq. apply in_app_or in Hq. destruct Hq as [Hq|Hq].
      * destruct (Hi q Hq). auto.
      * destruct (Ri q Hq) as [-> Hp1]. split; [left; reflexivity | exact (Hm p Hp1)].
Qed.

Lemma handlePayload_ready (w : World) (payload eventData sid : JVal) :
  isReady payload ->
  getProp payload "d" = Some eventData ->
  getProp eventData "session_id" = Some sid ->
  toPrimitiveThrows sid = false ->
  exists w1,
    gw w1 = set_sessionId sid (gw (sequenceUpdated (default JUndefined (getProp payload "s")) w)) /\
    promises w1 = promises w /\
    handlePayload payload w =
      (completion (callReady (onReady (gw w)) eventData w1),
       after (callReady (onReady (gw w)) eventData w1),
       [ Console false (LEvent (JStr "READY") (JNum 0)); Console false (LSessionId sid) ]
         ++ effects (callReady (onReady (gw w)) eventData w1)).
Proof.
  intros [Hop Ht] Hd Hsid Hprint.
  destruct payload as [| | b | n | s | fields]; try discriminate Hop.
  change (default JUndefined (getProp (JObj fields) "s"))
    with (default JUndefined (assoc "s" fields)).
  cbn [getProp] in Hop, Ht, Hd.
  set (w0 := sequenceUpdated (default JUndefined (assoc "s" fields)) w).
  exists (set_gw (set_sessionId sid (gw w0)) w0).
  assert (Hon : onReady (gw w0) = onReady (gw w))
    by (subst w0; unfold sequenceUpdated; destruct (truthy _); reflexivity).
  assert (Hpr : promises w0 = promises w)
    by (subst w0; unfold sequenceUpdated; destruct (truthy _); reflexivity).
  split; [reflexivity|]. split; [exact Hpr|].
  unfold handlePayload, updateSequence, dispatchPayload, prop.
  cbn [getProp]. injection Hop as Hop. injection Ht as Ht. injection Hd as Hd.
  rewrite Hop, Ht, Hd. subst w0. unfold sequenceUpdated in *.
  change (toPrimitive (if truthy (JStr "READY") then JStr "READY" else JNum 0))
    with (@ret unit tt).
  unfold bind, ret, throw, emit, this, assign, when. cbn beta iota.
  change (isStr (JStr "READY") "READY") with true. cbn beta iota.
  cbn [opcodeCase Z.eqb]. rewrite Hsid. cbn beta iota.
  unfold toPrimitive. rewrite Hprint.
  unfold completion, after, effects.
  destruct (truthy (default JUndefined (assoc "s" fields))); simpl;
    match goal with
    | |- context [callReady ?f ?d ?x] => destruct (callReady f d x) as [[[[]|] w2] e2]
    end; reflexivity.
Qed.

(** *** Every pending promise is wrapped *)

Lemma Wrapped_Keeps {A} (m : Js A) : Keeps promiseView m -> Preserves promisesWrapped m.
Proof.
  intros H w Hw p Hp. specialize (H w). unfold promiseView in H.
  injection H as Hpr Hon. unfold pending in Hp. rewrite Hpr in Hp.
  rewrite Hon. apply Hw. exact Hp.
Qed.

Lemma resolve_wrapped p : Preserves promisesWrapped (resolve p).
Proof.
  intros w Hw q Hq. destruct (resolve_spec p w) as [_ [Hg [_ [_ [Hm _]]]]].
  rewrite Hg. apply Hw. apply Hm. exact Hq.
Qed.

Lemma reject_wrapped p : Preserves promisesWrapped (reject p).
Proof.
  intros w Hw q. unfold reject, after, pending.
  destruct (promises w !! p) as [[[b|] c]|] eqn:Hp; simpl; try apply Hw.
  intros [c' H]. apply Hw. destruct (decide (p = q)) as [<-|Hne].
  - rewrite list_lookup_insert_eq in H by (apply lookup_lt_is_Some; eauto). discriminate.
  - rewrite list_lookup_insert_ne in H by exact Hne. exists c'. exact H.
Qed.

Lemma attachCatch_wrapped p : Preserves promisesWrapped (attachCatch p).
Proof.
  intros w Hw q. unfold attachCatch, after, pending.
  destruct (promises w !! p) as [[st c]|] eqn:Hp; simpl; [|apply Hw].
  intros [c' H]. apply Hw. destruct (decide (p = q)) as [<-|Hne].
  - rewrite list_lookup_insert_eq in H by (apply lookup_lt_is_Some; eauto).
    injection H as -> _. exists c. exact Hp.
  - rewrite list_lookup_insert_ne in H by exact Hne. exists c'. exact H.
Qed.

Lemma callReady_wrapped fn data : Preserves promisesWrapped (callReady fn data).
Proof.
  induction fn as [given|p fn IH]; simpl.
  - destruct given; intros w Hw; exact Hw.
  - apply Preserves_bind; [intros w Hw; exact Hw | intros _].
    apply Preserves_bind; [exact IH | intros _]. apply resolve_wrapped.
Qed.

(** [connect] wraps [this.onReady] around the promise it makes, or, where
    the constructor throws, rejects that promise. *)
Lemma connect_wrapped : Preserves promisesWrapped connect.
Proof.
  intros w Hw q. unfold pending.
  assert (Hold : forall c l, (promises w ++ l) !! q = Some (mkPromise None c) ->
                 q <> length (promises w) -> length l = 1%nat ->
                 In q (wrappedPromises (onReady (gw w)))).
  { intros c l Hl Hne Hlen. apply Hw. exists c.
    rewrite lookup_app_l in Hl; [exact Hl|].
    apply lookup_lt_Some in Hl. rewrite length_app, Hlen in Hl. lia. }
  destruct (constructorThrows w) eqn:Hc.
  - rewrite connect_throws_spec by exact Hc. unfold after. cbn [fst snd promises set_promises gw].
    intros [c H]. apply (Hold c _ H); [|reflexivity].
    intros ->. rewrite list_lookup_middle in H by reflexivity. discriminate.
  - rewrite connect_spec by exact Hc. unfold after. cbn [fst snd promises gw onReady set_onReady].
    intros [c H]. cbn [wrappedPromises].
    destruct (decide (q = length (promises w))) as [->|Hne]; [left; reflexivity|].
    right. apply (Hold c _ H Hne). reflexivity.
Qed.

Lemma setReadyState_promiseView sock st : Keeps promiseView (setReadyState sock st).
Proof. intros w. unfold setReadyState, update, after. simpl.
       destruct (socks w !! sock); reflexivity. Qed.

Ltac keeps_promises :=
  solve [repeat first [keeps_step | apply setReadyState_promiseView | (intros ?; reflexivity)]].

Ltac wrapped_step :=
  first
    [ apply connect_wrapped | apply callReady_wrapped | apply resolve_wrapped
    | apply reject_wrapped | apply attachCatch_wrapped
    | (apply Wrapped_Keeps; keeps_promises)
    | apply Preserves_bind; [| intros ?]
    | apply Preserves_tryCatch
    | match goal with
      | |- Preserves _ (match ?x with _ => _ end) => destruct x
      | |- Preserves _ (if ?x then _ else _) => destruct x
      | |- Preserves _ (when ?x _) => destruct x; unfold when
      end ].

Lemma step_wrapped (e : Event) : Preserves promisesWrapped (step e).
Proof.
  destruct e; unfold step, disconnect, wsClose, wsOnOpen, wsOnMessage, wsOnError, wsOnClose,
    handleDisconnect, fireTimer, timerCallback, heartbeatTick, wsSend, handlePayload,
    updateSequence, dispatchPayload, startHeartbeat, sendIdentify, reconnect, setTimeout,
    setInterval, armTimer, clearInterval, wsSend.
  all: repeat wrapped_step.
Qed.

Lemma run_wrapped (events : list Event) :
  forall w, promisesWrapped w -> promisesWrapped (fst (run events w)).
Proof.
  induction events as [|e rest IH]; intros w Hw; [exact Hw|].
  simpl. specialize (IH (after (step e w)) (step_wrapped e w Hw)).
  destruct (run rest (after (step e w))) as [w' tr]. exact IH.
Qed.

(** The callback at the bottom of [this.onReady] is the one the gateway
    was made with. *)
Lemma connect_readyGiven : Keeps (field (fun g => readyGiven (onReady g))) connect.
Proof.
  intros w. unfold field.
  destruct (constructorThrows w) eqn:Hc;
    [rewrite connect_throws_spec by exact Hc | rewrite connect_spec by exact Hc]; reflexivity.
Qed.

Lemma step_readyGiven (e : Event) : Keeps (field (fun g => readyGiven (onReady g))) (step e).
Proof.
  destruct e; unfold step, disconnect, wsClose, wsOnOpen, wsOnMessage, wsOnError, wsOnClose,
    handleDisconnect, fireTimer, timerCallback, heartbeatTick, wsSend, handlePayload,
    updateSequence, dispatchPayload, startHeartbeat, sendIdentify, reconnect, setTimeout,
    setInterval, wsSend.
  all: solve [repeat first
    [ apply connect_readyGiven | apply callReady_field | keeps_step
    | apply setReadyState_field | apply resolve_field | apply reject_field
    | apply attachCatch_field | apply armTimer_field | apply clearInterval_field ]].
Qed.

Lemma run_readyGiven (events : list Event) :
  forall w, readyGiven (onReady (gw (fst (run events w)))) = readyGiven (onReady (gw w)).
Proof.
  induction events as [|e rest IH]; intros w; [reflexivity|].
  simpl. specialize (IH (after (step e w))).
  destruct (run rest (after (step e w))) as [w' tr]. simpl in *.
  rewrite IH. exact (step_readyGiven e w).
Qed.

(** X12. At any moment in the life of a gateway object, whether the
    WebSocket constructor throws in its environment or not: handling a READY
    whose data carries a session id (one that can be printed) stores the
    session id, runs the Ready callback that the gateway was made with
    exactly once with the data, however many times [connect] has wrapped
    it, and leaves no promise of a [connect] call pending: the promises
    that were pending, whichever transport they were made for, are exactly
    the ones this READY fulfils. *)
Theorem ready_runs_callback_once_and_settles_promises
    (options : FluxerGatewayOptions) (rejects : bool) (events : list Event)
    (payload eventData sid : JVal) :
  isReady payload ->
  getProp payload "d" = Some eventData ->
  getProp eventData "session_id" = Some sid ->
  toPrimitiveThrows sid = false ->
  let w := fst (run events (newWorldIn rejects options)) in
  let r := handlePayload payload w in
  completion r = Normal tt /\
  getSessionId (after r) = sid /\
  readyCalls (effects r) = (if opt_onReady options then [eventData] else []) /\
  (forall p, ~ pending (after r) p) /\
  (forall p, pending w p <-> In p (fulfilledIn (effects r))).
Proof.
  intros Hready Hd Hsid Hprint w r. subst r.
  assert (Hwrapped : promisesWrapped w).
  { apply run_wrapped. intros p [c Hp]. simpl in Hp. rewrite lookup_nil in Hp. discriminate. }
  assert (Hgiven : readyGiven (onReady (gw w)) = opt_onReady options)
    by (unfold w; rewrite run_readyGiven; reflexivity).
  destruct (handlePayload_ready w payload eventData sid Hready Hd Hsid Hprint)
    as [w1 [Hg [Hp Heq]]].
  rewrite Heq.
  destruct (callReady_spec (onReady (gw w)) eventData w1)
    as [Hc [Hgw [Hr [Hs [Hm [Hf Hi]]]]]].
  assert (Hpend : forall p, pending w1 p <-> pending w p)
    by (intros p; unfold pending; rewrite Hp; tauto).
  unfold completion, after, effects, getSessionId in *. cbn [fst snd] in *.
  split; [exact Hc|]. split; [rewrite Hgw, Hg; reflexivity|].
  split; [rewrite <- Hgiven; exact Hr|].
  assert (Hnone : forall p, ~ pending (callReady (onReady (gw w)) eventData w1).1.2 p).
  { intros p Hafter. apply (Hs p); [|exact Hafter].
    apply Hwrapped. apply Hpend. apply Hm. exact Hafter. }
  split; [exact Hnone|].
  intros p. split.
  - intros Hpe. apply Hpend in Hpe. destruct (Hf p Hpe) as [H1|H1]; [|exact H1].
    destruct (Hnone p H1).
  - intros Hin. destruct (Hi p Hin) as [_ H2]. apply Hpend. exact H2.
Qed.

(** The owner calls [connect] twice; the READY on the second transport
    fulfils both promises and runs the callback once. *)
Lemma ready_runs_callback_once_and_settles_promises_witness :
  let events := [ECallConnect; ECallConnect; EOpen 1; EMessage 1 (helloFrame 41250)] in
  let w := fst (run events (newWorldIn false allCallbacks)) in
  let data := JObj [("session_id", JStr "s1")] in
  let payload := JObj [("op", JNum 0); ("t", JStr "READY"); ("s", JNum 1); ("d", data)] in
  isReady payload /\
  readyCalls (effects (handlePayload payload w)) = [data] /\
  In 0%nat (fulfilledIn (effects (handlePayload payload w))) /\
  In 1%nat (fulfilledIn (effects (handlePayload payload w))).
Proof.
  intros events w data payload.
  assert (Hr : isReady payload) by (split; reflexivity).
  destruct (ready_runs_callback_once_and_settles_promises allCallbacks false events
              payload data (JStr "s1") Hr eq_refl eq_refl eq_refl)
    as [_ [_ [Hcalls [_ Hful]]]].
  split; [exact Hr|]. split; [exact Hcalls|].
  split; apply Hful; vm_compute; eauto.
Defined.

(** ** The module that owns the gateway *)

Lemma channelReaction_spec (object : nat) (e : Effect) (c : Channel) :
  gateways (fst (channelReaction object e c)) = gateways c /\
  fluxerGateway (fst (channelReaction object e c)) = fluxerGateway c /\
  gatewaySessionId (fst (channelReaction object e c)) =
    moduleSessionAfter (moduleSessionId c) (gatewaySessionId c) e.
Proof.
  destruct e as [| | | | | | | | data | | | [|p] | [|p]]; simpl;
    try destruct (getProp data "id"); repeat split.
Qed.

Lemma channelReactions_spec (object : nat) (es : list Effect) :
  forall c,
    gateways (fst (channelReactions object es c)) = gateways c /\
    fluxerGateway (fst (channelReactions object es c)) = fluxerGateway c /\
    gatewaySessionId (fst (channelReactions object es c)) =
      fold_left (moduleSessionAfter (moduleSessionId c)) es (gatewaySessionId c).
Proof.
  induction es as [|e rest IH]; intros c; [repeat split|].
  simpl. destruct (channelReaction_spec object e c) as [Hg [Hf Hs]].
  destruct (channelReaction object e c) as [c1 out1]. simpl in *.
  destruct (IH c1) as [Hg' [Hf' Hs']].
  destruct (channelReactions object rest c1) as [c2 out2]. simpl in *.
  rewrite Hg', Hf', Hs', Hg, Hf, Hs.
  assert (Hm : moduleSessionId c1 = moduleSessionId c)
    by (unfold moduleSessionId; rewrite Hg, Hf; reflexivity).
  rewrite Hm. repeat split.
Qed.

Lemma fold_session_without_ready (current : JVal) (es : list Effect) :
  (forall data, ~ In (CallOnReady data) es) ->
  forall sid,
    fold_left (moduleSessionAfter current) es sid = JNull \/
    (fold_left (moduleSessionAfter current) es sid = sid /\ ~ In CallOnDisconnect es).
Proof.
  induction es as [|e rest IH]; intros Hno sid; [right; split; [reflexivity | intros []]|].
  assert (Hno' : forall data, ~ In (CallOnReady data) rest)
    by (intros data H; apply (Hno data); right; exact H).
  simpl. destruct e;
    try (destruct (IH Hno' sid) as [H|[H Hn]];
         [left; exact H | right; split; [exact H | intros [Hd|Hd]; [discriminate|auto]]]).
  - exfalso. apply (Hno data). left. reflexivity.
  - simpl. destruct (IH Hno' JNull) as [H|[H _]]; left; exact H.
Qed.

Lemma fold_session_without_disconnect (current : JVal) (es : list Effect) :
  ~ In CallOnDisconnect es ->
  forall sid,
    fold_left (moduleSessionAfter current) es sid = current \/
    (fold_left (moduleSessionAfter current) es sid = sid /\
     forall data, ~ In (CallOnReady data) es).
Proof.
  induction es as [|e rest IH]; intros Hno sid; [right; split; [reflexivity | intros ? []]|].
  assert (Hno' : ~ In CallOnDisconnect rest) by (intros H; apply Hno; right; exact H).
  simpl. destruct e;
    try (destruct (IH Hno' sid) as [H|[H Hn]];
         [left; exact H
         | right; split; [exact H | intros d [Hd|Hd]; [discriminate | exact (Hn d Hd)]]]).
  - simpl. destruct (IH Hno' current) as [H|[H _]]; left; exact H.
  - exfalso. apply Hno. left. reflexivity.
Qed.

Lemma channelReactions_forwards (object : nat) (es : list Effect) :
  forall c e, In e es -> In (FromGateway object e) (snd (channelReactions object es c)).
Proof.
  induction es as [|e0 rest IH]; intros c e Hin; [destruct Hin|].
  simpl. destruct (channelReaction object e0 c) as [c1 out1].
  specialize (IH c1 e).
  destruct (channelReactions object rest c1) as [c2 out2]. simpl in *.
  destruct Hin as [->|Hin]; [left; reflexivity|].
  right. apply in_or_app. right. auto.
Qed.

Lemma close_calls_disconnect (w : World) (sock : nat) (code : Z) (reason : string) :
  is_Some (socks w !! sock) -> onDisconnect (gw w) = true ->
  In CallOnDisconnect (effects (step (EClose sock code reason) w)).
Proof.
  intros [s Hs] Hon. rewrite (step_close w sock s code reason Hs).
  set (w1 := set_socks _ w).
  assert (Hon1 : onDisconnect (gw w1) = true) by exact Hon.
  destruct (Z.lt_ge_cases (reconnectAttempts (gw w1)) (maxReconnectAttempts (gw w1)))
    as [Hlt|Hge].
  - rewrite (wsOnClose_retries w1 code reason Hlt). unfold effects. cbn [snd].
    rewrite Hon1. simpl. auto.
  - rewrite (wsOnClose_exhausted w1 code reason Hge). unfold effects. cbn [snd].
    rewrite Hon1. simpl. auto.
Qed.

(** X13. A close event on any gateway object that the module has made,
    also one that the module variable no longer points to, runs the
    Disconnect callback of the module: the module forgets its session id
    and [isFluxerGatewayConnected] answers false, whatever the state of the
    gateway the module points to. *)
Theorem close_on_any_gateway_object_forgets_the_session
    (c : Channel) (object sock : nat) (w : World) (code : Z) (reason : string) :
  gateways c !! object = Some w ->
  is_Some (socks w !! sock) ->
  onDisconnect (gw w) = true ->
  let c' := fst (channelStep object (EClose sock code reason) c) in
  gatewaySessionId c' = JNull /\
  isFluxerGatewayConnected c' = false /\
  fluxerGateway c' = fluxerGateway c.
Proof.
  intros Hw Hs Hon c'. subst c'. unfold channelStep. rewrite Hw.
  set (r := step (EClose sock code reason) w).
  set (c0 := mkChannel _ _ _ _).
  destruct (channelReactions_spec object (effects r) c0) as [_ [Hf Hsid]].
  assert (Hnull : gatewaySessionId (fst (channelReactions object (effects r) c0)) = JNull).
  { rewrite Hsid.
    destruct (fold_session_without_ready (moduleSessionId c0) (effects r)) with
      (sid := gatewaySessionId c0) as [H|[_ Hn]].
    - intros data Hin. exact (step_produces _ _ _ Hin).
    - exact H.
    - destruct Hn. apply close_calls_disconnect; assumption. }
  split; [exact Hnull|]. split; [|exact Hf].
  unfold isFluxerGatewayConnected. rewrite Hnull. reflexivity.
Qed.

(** The module starts a gateway twice before the first transport opens; the
    second object establishes a session; then the close event of the first,
    forgotten object arrives. *)
Lemma close_on_any_gateway_object_forgets_the_session_witness :
  let c1 := fst (startFluxerGateway "tok" (fst (startFluxerGateway "tok" newChannel))) in
  let c2 := fst (channelStep 1 (EOpen 0) c1) in
  let c3 := fst (channelStep 1 (EMessage 0 (helloFrame 41250)) c2) in
  let c4 := fst (channelStep 1 (EMessage 0 (readyFrame 1 "s1")) c3) in
  let c5 := fst (channelStep 0 (EClose 0 1006 "") c4) in
  fluxerGateway c4 = Some 1%nat /\
  isFluxerGatewayConnected c4 = true /\
  moduleGatewayConnected c5 = true /\
  isFluxerGatewayConnected c5 = false.
Proof.
  intros c1 c2 c3 c4 c5.
  assert (Hw : exists w, gateways c4 !! 0%nat = Some w /\ is_Some (socks w !! 0%nat) /\
                         onDisconnect (gw w) = true)
    by (vm_compute; eexists; repeat split; eauto).
  destruct Hw as [w [Hw [Hs Hon]]].
  destruct (close_on_any_gateway_object_forgets_the_session c4 0%nat 0%nat w 1006 ""
              Hw Hs Hon) as [_ [Hfalse _]].
  split; [vm_compute; reflexivity|]. split; [vm_compute; reflexivity|].
  split; [vm_compute; reflexivity|]. exact Hfalse.
Defined.

Lemma readyCalls_In (t : list Effect) (data : JVal) :
  In data (readyCalls t) -> In (CallOnReady data) t.
Proof.
  induction t as [|e t IH]; [intros []|].
  destruct e; simpl; try (intros H; right; exact (IH H)).
  intros [->|H]; [left; reflexivity | right; exact (IH H)].
Qed.

(** A frame whose handling completes normally: the message handler adds
    nothing. *)
Lemma step_message_normal (w : World) (sock : nat) (payload : JVal) :
  is_Some (socks w !! sock) ->
  completion (handlePayload payload w) = Normal tt ->
  step (EMessage sock (Parsed payload)) w = handlePayload payload w.
Proof.
  intros [s Hs] Hc. unfold step, bind, world, wsOnMessage, tryCatch. rewrite Hs.
  unfold completion in Hc. destruct (handlePayload payload w) as [[c w1] e1].
  simpl in Hc. subst c. reflexivity.
Qed.

(** X14. A READY with a session id string, received by the gateway that the
    module points to: the Ready callback of the module copies that session
    id, and [isFluxerGatewayConnected] answers true from then on (until a
    Disconnect callback runs). *)
Theorem ready_on_the_module_gateway_records_the_session
    (c : Channel) (object sock : nat) (w : World) (payload eventData : JVal) (sid : string) :
  fluxerGateway c = Some object ->
  gateways c !! object = Some w ->
  is_Some (socks w !! sock) ->
  readyGiven (onReady (gw w)) = true ->
  isReady payload ->
  getProp payload "d" = Some eventData ->
  getProp eventData "session_id" = Some (JStr sid) ->
  let c' := fst (channelStep object (EMessage sock (Parsed payload)) c) in
  gatewaySessionId c' = JStr sid /\
  isFluxerGatewayConnected c' = true.
Proof.
  intros Hcur Hw Hs Hgiven Hready Hd Hsid c'. subst c'. unfold channelStep. rewrite Hw.
  destruct (handlePayload_ready w payload eventData (JStr sid) Hready Hd Hsid eq_refl)
    as [w1 [Hg [_ Heq]]].
  destruct (callReady_spec (onReady (gw w)) eventData w1) as [Hc [Hgw [Hr _]]].
  assert (Hnormal : completion (handlePayload payload w) = Normal tt)
    by (rewrite Heq; exact Hc).
  rewrite (step_message_normal w sock payload Hs Hnormal).
  set (r := handlePayload payload w).
  assert (Hsess : sessionId (gw (after r)) = JStr sid).
  { subst r. rewrite Heq. unfold after. cbn [fst snd]. unfold after in Hgw.
    rewrite Hgw, Hg. reflexivity. }
  assert (Hcall : In (CallOnReady eventData) (effects r)).
  { apply readyCalls_In. subst r. rewrite Heq. unfold effects. cbn [snd].
    rewrite readyCalls_app. unfold effects in Hr. rewrite Hr, Hgiven. simpl. auto. }
  set (c0 := mkChannel _ _ _ _).
  assert (Hmod : moduleSessionId c0 = JStr sid).
  { unfold moduleSessionId, c0. cbn [fluxerGateway gateways]. rewrite Hcur.
    rewrite list_lookup_insert_eq by (apply lookup_lt_is_Some; eauto).
    unfold getSessionId. rewrite Hsess. reflexivity. }
  destruct (channelReactions_spec object (effects r) c0) as [_ [_ Hfold]].
  assert (Hres : gatewaySessionId (fst (channelReactions object (effects r) c0)) = JStr sid).
  { rewrite Hfold, Hmod.
    destruct (fold_session_without_disconnect (JStr sid) (effects r)) with
      (sid := gatewaySessionId c0) as [H|[_ Hn]].
    - intros Hin.
      assert (Hby : producedBy (EMessage sock (Parsed payload)) CallOnDisconnect).
      { pose proof (handlePayload_producedBy sock payload w) as Hall.
        rewrite Forall_forall in Hall. apply Hall. apply list_elem_of_In. exact Hin. }
      exact Hby.
    - exact H.
    - destruct (Hn eventData Hcall). }
  split; [exact Hres|]. unfold isFluxerGatewayConnected. rewrite Hres. reflexivity.
Qed.

Lemma ready_on_the_module_gateway_records_the_session_witness :
  let c1 := fst (startFluxerGateway "tok" newChannel) in
  let c2 := fst (channelStep 0 (EOpen 0) c1) in
  let c3 := fst (channelStep 0 (EMessage 0 (helloFrame 41250)) c2) in
  let data := JObj [("session_id", JStr "s0")] in
  let payload := JObj [("op", JNum 0); ("t", JStr "READY"); ("s", JNum 1); ("d", data)] in
  isReady payload /\
  gatewaySessionId (fst (channelStep 0 (EMessage 0 (Parsed payload)) c3)) = JStr "s0".
Proof.
  intros c1 c2 c3 data payload.
  assert (Hr : isReady payload) by (split; reflexivity).
  split; [exact Hr|].
  assert (Hw : exists w, gateways c3 !! 0%nat = Some w /\ is_Some (socks w !! 0%nat) /\
                         readyGiven (onReady (gw w)) = true)
    by (vm_compute; eexists; repeat split; eauto).
  destruct Hw as [w [Hw [Hs Hg]]].
  exact (proj1 (ready_on_the_module_gateway_records_the_session c3 0%nat 0%nat w payload
                  data "s0" eq_refl Hw Hs Hg Hr eq_refl eq_refl)).
Defined.

Lemma close_after_disconnect_retries
    (w : World) (sock : nat) (code : Z) (reason : string) :
  is_Some (socks w !! sock) ->
  reconnectAttempts (gw w) < maxReconnectAttempts (gw w) ->
  In (SetTimeout (nextTimer w)
        (JNum (reconnectDelay (gw w) * 2 ^ reconnectAttempts (gw w))) DoConnect)
     (effects (step (EClose sock code reason) (disconnected w))).
Proof.
  intros Hsock Hlt. set (w1 := disconnected w).
  assert (Hatt : reconnectAttempts (gw w1) = reconnectAttempts (gw w))
    by (apply (disconnected_field reconnectAttempts); reflexivity).
  assert (Hmax : maxReconnectAttempts (gw w1) = maxReconnectAttempts (gw w))
    by (apply (disconnected_field maxReconnectAttempts); reflexivity).
  assert (Hdel : reconnectDelay (gw w1) = reconnectDelay (gw w))
    by (apply (disconnected_field reconnectDelay); reflexivity).
  assert (Hnt : nextTimer w1 = nextTimer w) by apply disconnected_nextTimer.
  assert (Hs1 : is_Some (socks w1 !! sock)).
  { apply lookup_lt_is_Some. unfold w1. rewrite disconnected_socks_length.
    apply lookup_lt_is_Some. exact Hsock. }
  destruct Hs1 as [s1 Hs1].
  rewrite (step_close w1 sock s1 code reason Hs1).
  set (w2 := set_socks _ w1).
  assert (Hlt2 : reconnectAttempts (gw w2) < maxReconnectAttempts (gw w2))
    by (subst w2; simpl; lia).
  rewrite (wsOnClose_retries w2 code reason Hlt2).
  unfold effects. cbn [snd].
  replace (reconnectAttempts (gw w2)) with (reconnectAttempts (gw w)) by (symmetry; exact Hatt).
  replace (reconnectDelay (gw w2)) with (reconnectDelay (gw w)) by (symmetry; exact Hdel).
  replace (nextTimer w2) with (nextTimer w) by (symmetry; exact Hnt).
  replace (reconnectAttempts (gw w) + 1 - 1) with (reconnectAttempts (gw w)) by lia.
  rewrite !in_app_iff. right. right. right. simpl. auto.
Qed.

(** X15. [stopFluxerGateway] disconnects the gateway of the module and
    forgets it: the module variable is null, [isFluxerGatewayConnected]
    answers false, and a second stop does nothing. The gateway object
    itself is not shut down: when the close event of its transport arrives
    and attempts remain, the forgotten object schedules a reconnect. *)
Theorem stop_forgets_the_gateway_but_it_reconnects
    (c : Channel) (object sock : nat) (w : World) (code : Z) (reason : string) :
  fluxerGateway c = Some object ->
  gateways c !! object = Some w ->
  is_Some (socks w !! sock) ->
  reconnectAttempts (gw w) < maxReconnectAttempts (gw w) ->
  let c1 := fst (stopFluxerGateway c) in
  snd (stopFluxerGateway c) =
    map (FromGateway object) (effects (disconnect w)) ++ [ChannelConsole false LStopped] /\
  fluxerGateway c1 = None /\
  isFluxerGatewayConnected c1 = false /\
  moduleGatewayConnected c1 = false /\
  stopFluxerGateway c1 = (c1, []) /\
  In (FromGateway object
        (SetTimeout (nextTimer w)
           (JNum (reconnectDelay (gw w) * 2 ^ reconnectAttempts (gw w))) DoConnect))
     (snd (channelStep object (EClose sock code reason) c1)).
Proof.
  intros Hcur Hw Hs Hlt c1. subst c1.
  assert (Hstop : stopFluxerGateway c =
            (mkChannel (<[object := after (disconnect w)]> (gateways c)) None JNull
                       (wsRejectsToken c),
             map (FromGateway object) (effects (disconnect w))
               ++ [ChannelConsole false LStopped]))
    by (unfold stopFluxerGateway; rewrite Hcur, Hw; reflexivity).
  rewrite Hstop. cbn [fst snd].
  split; [reflexivity|]. split; [reflexivity|]. split; [reflexivity|].
  split; [reflexivity|]. split; [reflexivity|].
  unfold channelStep. cbn [gateways].
  rewrite list_lookup_insert_eq by (apply lookup_lt_is_Some; eauto).
  apply channelReactions_forwards.
  rewrite disconnect_spec. unfold after. cbn [fst snd]. fold (disconnected w).
  apply close_after_disconnect_retries; assumption.
Qed.

Lemma stop_forgets_the_gateway_but_it_reconnects_witness :
  let c1 := fst (startFluxerGateway "tok" newChannel) in
  let c2 := fst (channelStep 0 (EOpen 0) c1) in
  let stopped := fst (stopFluxerGateway c2) in
  fluxerGateway c2 = Some 0%nat /\
  In (FromGateway 0 (SetTimeout 0 (JNum (1000 * 2 ^ 0)) DoConnect))
     (snd (channelStep 0 (EClose 0 1000 "Client disconnecting") stopped)).
Proof.
  intros c1 c2 stopped.
  assert (Hw : exists w, gateways c2 !! 0%nat = Some w /\ is_Some (socks w !! 0%nat) /\
                         reconnectAttempts (gw w) = 0 /\ maxReconnectAttempts (gw w) = 5 /\
                         nextTimer w = 0%nat /\ reconnectDelay (gw w) = 1000)
    by (vm_compute; eexists; repeat split; eauto).
  destruct Hw as [w [Hw [Hs [Ha [Hm [Hn Hd]]]]]].
  split; [reflexivity|].
  assert (Hlt : reconnectAttempts (gw w) < maxReconnectAttempts (gw w)) by lia.
  pose proof (proj2 (proj2 (proj2 (proj2 (proj2
    (stop_forgets_the_gateway_but_it_reconnects c2 0%nat 0%nat w 1000
       "Client disconnecting" eq_refl Hw Hs Hlt)))))) as H.
  rewrite Ha, Hn, Hd in H. exact H.
Defined.

(** ** Accounts and outbound text *)

Lemma truthy_getProp_any (v : JVal) (k k' : string) :
  truthy (optProp v k) = true -> is_Some (getProp v k').
Proof.
  unfold optProp. destruct v; simpl; try discriminate; eauto.
Qed.

(** What [resolveFluxerAccount] returns; once the entry is enabled the
    access to its token cannot throw. *)
Lemma resolveFluxerAccount_spec (cfg : JVal) (accountId : string) :
  match getProp cfg "channels" with
  | None => resolveFluxerAccount cfg accountId = Threw TypeError
  | Some channels =>
      let entry := optProp (optProp (optProp channels "fluxer") "accounts") accountId in
      resolveFluxerAccount cfg accountId =
        if truthy (optProp entry "enabled") && truthy (optProp entry "token")
        then Returned (JObj [ ("accountId", JStr accountId);
                              ("token", optProp entry "token");
                              ("enabled", optProp entry "enabled");
                              ("name", coalesce (optProp entry "name") (JStr "Fluxer Bot")) ])
        else Returned JNull
  end.
Proof.
  unfold resolveFluxerAccount, fluxerAccounts.
  destruct (getProp cfg "channels") as [channels|]; [|reflexivity].
  cbn zeta. set (entry := optProp _ accountId).
  destruct (truthy (optProp entry "enabled")) eqn:Hen; [|reflexivity].
  destruct (truthy_getProp_any entry "enabled" "token" Hen) as [tok Htok].
  assert (Ho : optProp entry "token" = tok) by (unfold optProp; rewrite Htok; reflexivity).
  rewrite Htok, Ho. cbn [negb andb].
  destruct (truthy tok); reflexivity.
Qed.

(** X16. [resolveFluxerAccount] on a configuration that is an object never
    throws, whatever is missing below it: it returns null unless the
    account entry is enabled and has a token (both truthy), and an account
    it returns carries the id asked for, that token, the entry's [enabled],
    and the entry's name or "Fluxer Bot". *)
Theorem resolveFluxerAccount_returns_enabled_accounts_with_a_token
    (cfg channels : JVal) (accountId : string) :
  getProp cfg "channels" = Some channels ->
  let entry := optProp (optProp (optProp channels "fluxer") "accounts") accountId in
  exists account,
    resolveFluxerAccount cfg accountId = Returned account /\
    (account <> JNull <->
     truthy (optProp entry "enabled") = true /\ truthy (optProp entry "token") = true) /\
    (account <> JNull ->
     account = JObj [ ("accountId", JStr accountId);
                      ("token", optProp entry "token");
                      ("enabled", optProp entry "enabled");
                      ("name", coalesce (optProp entry "name") (JStr "Fluxer Bot")) ]).
Proof.
  intros Hch entry. pose proof (resolveFluxerAccount_spec cfg accountId) as H.
  rewrite Hch in H. cbn zeta in H. fold entry in H. rewrite H.
  destruct (truthy (optProp entry "enabled")), (truthy (optProp entry "token"));
    cbn [andb]; eexists; (split; [reflexivity|]); split;
    try (split; [intros Hne; try (exfalso; apply Hne; reflexivity); auto
                | intros [? ?]; try discriminate]);
    try (intros Hne; try reflexivity; exfalso; apply Hne; reflexivity).
Qed.

Lemma resolveFluxerAccount_returns_enabled_accounts_with_a_token_witness :
  let channels := JObj [("fluxer", JObj [("accounts",
                    JObj [("main", JObj [("enabled", JBool true); ("token", JStr "tok")]);
                          ("off", JObj [("enabled", JBool false); ("token", JStr "t2")])])])] in
  let cfg := JObj [("channels", channels)] in
  getProp cfg "channels" = Some channels /\
  resolveFluxerAccount cfg "main" =
    Returned (JObj [ ("accountId", JStr "main"); ("token", JStr "tok");
                     ("enabled", JBool true); ("name", JStr "Fluxer Bot") ]).
Proof.
  intros channels cfg. split; [reflexivity|].
  destruct (resolveFluxerAccount_returns_enabled_accounts_with_a_token cfg channels "main"
              eq_refl) as [account [Hres [Hiff Hshape]]].
  rewrite Hres. f_equal. apply Hshape. apply Hiff. split; reflexivity.
Defined.

(** X17. When the configuration has no (truthy) [accounts],
    [listFluxerAccountIds] lists the default account id, but no account id
    resolves, the default one included: [resolveFluxerAccount] returns null
    and [sendText] throws "Fluxer account not configured" without making a
    request. *)
Theorem default_account_is_listed_but_does_not_resolve
    (DEFAULT_ACCOUNT_ID : string) (objectKeys : JVal -> list string)
    (cfg accounts : JVal) :
  fluxerAccounts cfg = Returned accounts ->
  truthy accounts = false ->
  listFluxerAccountIds DEFAULT_ACCOUNT_ID objectKeys cfg = Returned [DEFAULT_ACCOUNT_ID] /\
  (forall accountId, resolveFluxerAccount cfg accountId = Returned JNull) /\
  (forall to text accountId,
      sendText DEFAULT_ACCOUNT_ID (setFluxerRuntime cfg None) to text accountId =
        Threw AccountNotConfigured).
Proof.
  intros Hacc Hfalsy.
  assert (Hres : forall accountId, resolveFluxerAccount cfg accountId = Returned JNull).
  { intros accountId. unfold resolveFluxerAccount. rewrite Hacc. cbn zeta.
    destruct accounts as [| | [] | n | s | fields]; try discriminate Hfalsy; reflexivity. }
  split; [|split].
  - unfold listFluxerAccountIds. rewrite Hacc, Hfalsy. reflexivity.
  - exact Hres.
  - intros to text accountId. unfold sendText, setFluxerRuntime, getFluxerRuntime.
    rewrite Hres. reflexivity.
Qed.

Lemma default_account_is_listed_but_does_not_resolve_witness :
  let cfg := JObj [("channels", JObj [("fluxer", JObj [("token", JStr "tok")])])] in
  fluxerAccounts cfg = Returned JUndefined /\
  listFluxerAccountIds "default" (fun _ => []) cfg = Returned ["default"] /\
  resolveFluxerAccount cfg "default" = Returned JNull.
Proof.
  intros cfg.
  assert (Ha : fluxerAccounts cfg = Returned JUndefined) by reflexivity.
  destruct (default_account_is_listed_but_does_not_resolve "default" (fun _ => [])
              cfg JUndefined Ha eq_refl) as [Hlist [Hres _]].
  split; [exact Ha|]. split; [exact Hlist | exact (Hres "default")].
Defined.

(** X18. [sendText] makes a request only when the runtime has been set and
    the account (the given id, or the default one) resolves to a token that
    has a primitive value: the request then goes to the messages URL of the
    target channel, with the text as content and the header [Bot <token>]
    of that account's truthy token, which for a token that is a string is
    "Bot " followed by that string. Before [setFluxerRuntime] it throws
    "Fluxer runtime not initialized". *)
Theorem sendText_posts_with_the_token_of_the_resolved_account
    (DEFAULT_ACCOUNT_ID : string) (runtime : option JVal)
    (to text : string) (accountId : option string) (request : Request) :
  sendText DEFAULT_ACCOUNT_ID runtime to text accountId = Returned request ->
  exists cfg channels tok,
    runtime = Some cfg /\
    getProp cfg "channels" = Some channels /\
    (let entry := optProp (optProp (optProp channels "fluxer") "accounts")
                          (default DEFAULT_ACCOUNT_ID accountId) in
     truthy (optProp entry "enabled") = true /\
     optProp entry "token" = tok) /\
    truthy tok = true /\
    toPrimitiveThrows tok = false /\
    request =
      {| url := "https://api.fluxer.app/v1/channels/" +:+ to +:+ "/messages";
         authorizationHeader := option_map (String.append "Bot ") (templateString tok);
         body := JObj [("content", JStr text)] |} /\
    (forall s, tok = JStr s -> authorizationHeader request = Some ("Bot " +:+ s)) /\
    sendText DEFAULT_ACCOUNT_ID None to text accountId = Threw RuntimeNotInitialized.
Proof.
  intros Hsend. unfold sendText, getFluxerRuntime in Hsend.
  destruct runtime as [cfg|]; [|discriminate].
  pose proof (resolveFluxerAccount_spec cfg (default DEFAULT_ACCOUNT_ID accountId)) as Hres.
  destruct (getProp cfg "channels") as [channels|] eqn:Hch;
    [|rewrite Hres in Hsend; discriminate].
  cbn zeta in Hres. rewrite Hres in Hsend.
  set (entry := optProp _ (default DEFAULT_ACCOUNT_ID accountId)) in *.
  destruct (truthy (optProp entry "enabled")) eqn:Hen; [|discriminate].
  destruct (truthy (optProp entry "token")) eqn:Htok; [|discriminate].
  cbn [andb truthy negb] in Hsend.
  change (optProp (JObj _) "token") with (optProp entry "token") in Hsend.
  unfold sendFluxerMessageRequest in Hsend.
  destruct (toPrimitiveThrows (optProp entry "token")) eqn:Hprim; [discriminate|].
  injection Hsend as <-.
  exists cfg, channels, (optProp entry "token").
  repeat split; try assumption.
  intros s Hs. cbn [authorizationHeader]. rewrite Hs. reflexivity.
Qed.

(** A token that is a string; a token without a primitive value. *)
Lemma sendText_posts_with_the_token_of_the_resolved_account_witness :
  let config := fun tok =>
    JObj [("channels", JObj [("fluxer", JObj [("accounts",
            JObj [("main", JObj [("enabled", JBool true); ("token", tok)])])])])] in
  sendText "default" (Some (config (JStr "tok"))) "42" "hi" (Some "main") =
    Returned {| url := "https://api.fluxer.app/v1/channels/42/messages";
                authorizationHeader := Some "Bot tok";
                body := JObj [("content", JStr "hi")] |} /\
  sendText "default" (Some (config (JObj [("toString", JNum 1)]))) "42" "hi" (Some "main") =
    Threw TypeError /\
  sendText "default" None "42" "hi" (Some "main") = Threw RuntimeNotInitialized.
Proof.
  intros config.
  assert (Hs : sendText "default" (Some (config (JStr "tok"))) "42" "hi" (Some "main") =
    Returned {| url := "https://api.fluxer.app/v1/channels/42/messages";
                authorizationHeader := Some "Bot tok";
                body := JObj [("content", JStr "hi")] |}) by reflexivity.
  split; [exact Hs|]. split; [reflexivity|].
  destruct (sendText_posts_with_the_token_of_the_resolved_account _ _ _ _ _ _ Hs)
    as [c [ch [tok [_ [_ [_ [_ [_ [_ [_ H]]]]]]]]]].
  exact H.
Defined.
